(** * Keras: momentum SGD update rule and sequence preprocessing

    A shallow embedding of

    - [keras/preprocessing/sequence.py] ([_remove_long_seq],
      [TimeseriesGenerator], [pad_sequences], [make_sampling_table],
      [skipgrams]);
    - the numpy reference update [_update_nesterov_momentum_numpy] and the
      expected values of [MomentumOptimizerTest] in
      [keras/optimizers/optimizer_v2/gradient_descent_test.py];
    - the momentum optimizer itself ([gradient_descent.SGD]), whose module is
      not part of the excerpt and is therefore modelled from the
      specification's contract (section 4.1).

    Numbers: the optimizer arithmetic is carried out over the canonical
    rationals [Qc] (exact arithmetic, Leibniz equality); the sampling table,
    which needs [ln] and [sqrt], over the real numbers [R]; indices, lengths
    and tokens are Python integers, i.e. [Z]; the one floating-point product
    of [skipgrams] is rounded as binary64 does ([Float64]), and
    [pad_sequences] stores its integers as [int32]. *)

From Stdlib Require Import ZArith QArith Qcanon Qround Lia Lra List Permutation.
From Stdlib Require Import Reals.
From stdpp Require Import gmap strings list.

(** ** Python exceptions as an error type *)

Inductive error : Type :=
| ValueError (msg : string)
| IndexError (msg : string)
| TypeError (msg : string)
| KeyError (msg : string)
| ZeroDivisionError (msg : string).

Inductive result (A : Type) : Type :=
| Ok (a : A)
| Err (e : error).
Arguments Ok {A} a.
Arguments Err {A} e.

Definition is_ok {A} (r : result A) : bool :=
  match r with Ok _ => true | Err _ => false end.

Definition is_value_error {A} (r : result A) : bool :=
  match r with Err (ValueError _) => true | _ => false end.

(** ** The momentum optimizer *)

Module Optimizer.
Local Open Scope Qc_scope.

(** A variable is a list of rows; a one-dimensional variable has rows of
    width one. *)
Abbreviation row := (list Qc).
Abbreviation tensor := (list (list Qc)).

(** Learning-rate source: a constant, or a schedule of the step count. *)
Inductive lr_source : Type :=
| Constant (base_lr : Qc)
| Scheduled (schedule : nat -> Qc).

Record SGD : Type := mkSGD {
  learning_rate : lr_source;
  momentum : Qc;
  nesterov : bool;
  decay : Qc
}.

(** Modelled from the spec: the constructor of [gradient_descent.SGD]
    (module [keras/optimizers/optimizer_v2/gradient_descent.py] is missing).
    "Construction fails with a configuration error if momentum is outside
    [0,1] or if momentum==0 while Nesterov=true." *)
Definition SGD_new (lr : lr_source) (m : Qc) (nest : bool) (d : Qc)
  : result SGD :=
  if bool_decide (m < 0 ∨ 1 < m) then
    Err (ValueError "`momentum` must be between [0, 1].")
  else if bool_decide (m = 0) && nest then
    Err (ValueError "`nesterov` requires a positive `momentum`.")
  else Ok (mkSGD lr m nest d).

(** Modelled from the spec: [effective_lr(step)].  With a decay rate [d > 0]
    the base rate is divided by [1 + d*step]; a schedule is evaluated at the
    step and the fixed-decay formula is not applied. *)
Definition effective_lr (opt : SGD) (step : nat) : Qc :=
  match learning_rate opt with
  | Scheduled f => f step
  | Constant base =>
      if bool_decide (0 < decay opt)
      then base / (1 + decay opt * Qc_of_Z (Z.of_nat step))
      else base
  end.

(** Modelled from the spec: the dense update of one element, returning
    [(new_variable, new_accumulator)].  With [momentum == 0] no accumulator
    is used. *)
Definition update_elem (opt : SGD) (lr var acc g : Qc) : Qc * Qc :=
  if bool_decide (momentum opt = 0) then (var - lr * g, acc)
  else
    let new_acc := momentum opt * acc - lr * g in
    if nesterov opt
    then (var + momentum opt * new_acc - lr * g, new_acc)
    else (var + new_acc, new_acc).

(** The numpy reference of the test suite
    ([MomentumOptimizerTest._update_nesterov_momentum_numpy]), on one
    element. *)
Definition _update_nesterov_momentum_numpy (var accum g lr momentum : Qc)
  : Qc * Qc :=
  let accum := accum * momentum - g * lr in
  let var := var + (accum * momentum - g * lr) in
  (var, accum).

(** Modelled from the spec: the dense formulas are elementwise; one row of
    the variable, of its accumulator and of the gradient are walked in
    lockstep ("shapes always match"). *)
Fixpoint update_row (opt : SGD) (lr : Qc) (var acc g : row) : row * row :=
  match var, acc, g with
  | v :: var', a :: acc', x :: g' =>
      let '(v1, a1) := update_elem opt lr v a x in
      let '(vs, accs) := update_row opt lr var' acc' g' in
      (v1 :: vs, a1 :: accs)
  | _, _, _ => ([], [])
  end.

(** Modelled from the spec: a dense gradient updates every row of the
    variable. *)
Fixpoint apply_dense (opt : SGD) (lr : Qc) (var acc g : tensor)
  : tensor * tensor :=
  match var, acc, g with
  | v :: var', a :: acc', x :: g' =>
      let '(v1, a1) := update_row opt lr v a x in
      let '(vs, accs) := apply_dense opt lr var' acc' g' in
      (v1 :: vs, a1 :: accs)
  | _, _, _ => ([], [])
  end.

(** Modelled from the spec: a sparse gradient is "a set of (row-index,
    row-value) pairs with an implied dense shape" (the [tf.IndexedSlices] of
    the tests): row [values[k]] is the contribution for row [indices[k]]. *)
Record IndexedSlices : Type := mkIndexedSlices {
  values : tensor;
  indices : list nat;
  dense_shape : list nat
}.

Definition row_add (r1 r2 : row) : row := zip_with Qcplus r1 r2.

(** Modelled from the spec: "duplicate indices in the sparse gradient are
    summed first"; the summed gradient of row [r], starting from a zero row
    of the given width. *)
Definition summed_row (g : IndexedSlices) (width r : nat) : row :=
  foldr (fun (iv : nat * row) (s : row) =>
           if bool_decide (iv.1 = r) then row_add s iv.2 else s)
        (replicate width 0) (zip (indices g) (values g)).

(** Modelled from the spec: the sparse update.  Rows present in the index
    set follow the dense formulas with their summed gradient; the others are
    left untouched in both the variable and the accumulator. *)
Fixpoint apply_sparse_from (opt : SGD) (lr : Qc) (g : IndexedSlices)
    (r : nat) (var acc : tensor) : tensor * tensor :=
  match var, acc with
  | v :: var', a :: acc' =>
      let '(v1, a1) :=
        if bool_decide (r ∈ indices g)
        then update_row opt lr v a (summed_row g (length v) r)
        else (v, a) in
      let '(vs, accs) := apply_sparse_from opt lr g (S r) var' acc' in
      (v1 :: vs, a1 :: accs)
  | _, _ => ([], [])
  end.

Definition apply_sparse (opt : SGD) (lr : Qc) (var acc : tensor)
    (g : IndexedSlices) : tensor * tensor :=
  apply_sparse_from opt lr g 0 var acc.

Inductive gradient : Type :=
| Dense (g : tensor)
| Sparse (g : IndexedSlices).

(** Modelled from the spec: the optimizer state is the shared step counter,
    the variables it manages and the momentum slots, both keyed by variable
    name ("an explicit mapping from a stable variable identifier to
    accumulator storage"). *)
Record state : Type := mkState {
  iterations : nat;
  variables : gmap string tensor;
  slots : gmap string tensor
}.

Definition zeros_like (t : tensor) : tensor :=
  (fun r : row => replicate (length r) (0 : Qc)) <$> t.

(** Modelled from the spec: the accumulator of a variable is "initialized to
    zero, created lazily on first update". *)
Definition get_slot (st : state) (name : string) (var : tensor) : tensor :=
  default (zeros_like var) (slots st !! name).

(** Modelled from the spec: the update of one variable by its gradient; the
    accumulator is stored only when momentum is used. *)
Definition apply_one (opt : SGD) (lr : Qc) (st : state)
    (gv : gradient * string) : result state :=
  match variables st !! gv.2 with
  | None => Err (KeyError gv.2)
  | Some var =>
      let acc := get_slot st gv.2 var in
      let '(var1, acc1) :=
        match gv.1 with
        | Dense g => apply_dense opt lr var acc g
        | Sparse g => apply_sparse opt lr var acc g
        end in
      Ok (mkState (iterations st)
                  (<[gv.2 := var1]> (variables st))
                  (if bool_decide (momentum opt = 0) then slots st
                   else <[gv.2 := acc1]> (slots st)))
  end.

(** Modelled from the spec: the updates of one step, variable by
    variable. *)
Fixpoint apply_all (opt : SGD) (lr : Qc) (st : state)
    (gvs : list (gradient * string)) : result state :=
  match gvs with
  | [] => Ok st
  | gv :: gvs' =>
      match apply_one opt lr st gv with
      | Ok st1 => apply_all opt lr st1 gvs'
      | Err e => Err e
      end
  end.

(** Modelled from the spec: one training step updates every variable with
    the learning rate of the current step, then increments the step counter
    "exactly once per logical training step, not once per variable". *)
Definition apply_gradients (opt : SGD) (gvs : list (gradient * string))
    (st : state) : result state :=
  match apply_all opt (effective_lr opt (iterations st)) st gvs with
  | Ok st1 => Ok (mkState (S (iterations st1)) (variables st1) (slots st1))
  | Err e => Err e
  end.

(** The two variants on one element, from the same state. *)
Definition classical_step (m lr var acc g : Qc) : Qc * Qc :=
  update_elem (mkSGD (Constant lr) m false 0) lr var acc g.

Definition nesterov_step (m lr var acc g : Qc) : Qc * Qc :=
  update_elem (mkSGD (Constant lr) m true 0) lr var acc g.

(** What [apply_sparse] does to row [r]. *)
Definition sparse_row (opt : SGD) (lr : Qc) (g : IndexedSlices) (r : nat)
    (v a : row) : row * row :=
  if bool_decide (r ∈ indices g)
  then update_row opt lr v a (summed_row g (length v) r)
  else (v, a).

(** The dense gradient a sparse one stands for: row [r] is the sum of the
    slices indexed [r] (zero when there is none). *)
Fixpoint densify_from (g : IndexedSlices) (r : nat) (var : tensor) : tensor :=
  match var with
  | [] => []
  | v :: var' => summed_row g (length v) r :: densify_from g (S r) var'
  end.

Definition densify (g : IndexedSlices) (var : tensor) : tensor :=
  densify_from g 0 var.

(** The summed gradient of element [j] of row [r], written out: the sum,
    over the slices whose index is [r], of their [j]-th entries. *)
Definition slice_sum (g : IndexedSlices) (r j : nat) : Qc :=
  foldr Qcplus 0
    ((fun iv : nat * row => default 0 (iv.2 !! j))
       <$> filter (fun iv : nat * row => iv.1 = r)
                  (zip (indices g) (values g))).

(** [n] successive training steps with the same gradients. *)
Fixpoint steps (opt : SGD) (gvs : list (gradient * string)) (n : nat)
    (st : state) : result state :=
  match n with
  | O => Ok st
  | S n' =>
      match apply_gradients opt gvs st with
      | Ok st1 => steps opt gvs n' st1
      | Err e => Err e
      end
  end.

Definition slot_of (r : result state) (name : string) : option tensor :=
  match r with Ok st => slots st !! name | Err _ => None end.

Definition var_of (r : result state) (name : string) : option tensor :=
  match r with Ok st => variables st !! name | Err _ => None end.

(** *** Fixtures of [MomentumOptimizerTest] *)

Definition q (n : Z) (d : positive) : Qc := Q2Qc (n # d).

(** [testBasic]: [var0 = [1.0, 2.0]], [var1 = [3.0, 4.0]],
    [grads0 = [0.1, 0.1]], [grads1 = [0.01, 0.01]]. *)
Definition test_basic_state : state :=
  mkState 0 (<["var0" := [[q 1 1]; [q 2 1]]]>
            (<["var1" := [[q 3 1]; [q 4 1]]]> ∅)) ∅.

Definition test_basic_grads : list (gradient * string) :=
  [(Dense [[q 1 10]; [q 1 10]], "var0");
   (Dense [[q 1 100]; [q 1 100]], "var1")].

(** [testSparse]: a 4x2 variable of zeros, one slice for row 1. *)
Definition test_sparse_grad : IndexedSlices :=
  mkIndexedSlices [[q 1 10; q 1 10]] [1%nat] [4%nat; 2%nat].

Definition test_sparse_var : tensor := replicate 4 [q 0 1; q 0 1].

(** A gradient with a repeated index: two slices for row 1. *)
Definition test_duplicate_grad : IndexedSlices :=
  mkIndexedSlices [[q 1 10; q 1 10]; [q 2 10; q 2 10]] [1%nat; 1%nat]
                  [4%nat; 2%nat].

Definition test_sparse_opt : SGD :=
  mkSGD (Constant (q 2 1)) (q 9 10) false (q 0 1).

End Optimizer.


(** ** Python runtime helpers *)

Module Py.
Local Open Scope Z_scope.

Definition len {A} (l : list A) : Z := Z.of_nat (length l).

(** [l[i]] on a list or array: negative indices count from the end, an
    index outside [-len, len) raises [IndexError]. *)
Definition getitem {A} (l : list A) (i : Z) : result A :=
  let k := if i <? 0 then i + len l else i in
  if (k <? 0) || (len l <=? k) then Err (IndexError "index out of range")
  else match l !! Z.to_nat k with
       | Some x => Ok x
       | None => Err (IndexError "index out of range")
       end.

(** The integers [start, start+step, ...] strictly before [stop] (after it
    for a negative step); [count] of them. *)
Definition progression (start step : Z) (count : nat) : list Z :=
  (fun k : nat => start + step * Z.of_nat k) <$> seq 0 count.

Definition progression_count (start stop step : Z) : Z :=
  if 0 <? step then
    if start <? stop then (stop - start - 1) / step + 1 else 0
  else
    if stop <? start then (start - stop - 1) / (- step) + 1 else 0.

(** [range(start, stop)] / [np.arange(start, stop, step)] on integers. *)
Definition arange (start stop step : Z) : result (list Z) :=
  if step =? 0 then Err (ZeroDivisionError "division by zero")
  else Ok (progression start step
             (Z.to_nat (progression_count start stop step))).

Definition range (start stop : Z) : list Z :=
  progression start 1 (Z.to_nat (stop - start)).

(** Slice bounds, as CPython's [PySlice_AdjustIndices] clips them. *)
Definition adjust_index (n step i : Z) : Z :=
  if i <? 0 then
    if i + n <? 0 then (if step <? 0 then -1 else 0) else i + n
  else
    if n <=? i then (if step <? 0 then n - 1 else n) else i.

Definition slice_indices (n : Z) (start stop : option Z) (step : Z)
  : result (list Z) :=
  if step =? 0 then Err (ValueError "slice step cannot be zero")
  else
    let lo := match start with
              | Some i => adjust_index n step i
              | None => if step <? 0 then n - 1 else 0
              end in
    let hi := match stop with
              | Some i => adjust_index n step i
              | None => if step <? 0 then -1 else n
              end in
    Ok (progression lo step (Z.to_nat (progression_count lo hi step))).

(** [l[start:stop:step]] *)
Definition slice {A} (l : list A) (start stop : option Z) (step : Z)
  : result (list A) :=
  match slice_indices (len l) start stop step with
  | Ok idxs => Ok (omap (fun i : Z => l !! Z.to_nat i) idxs)
  | Err e => Err e
  end.

(** [int(q)]: truncation towards zero. *)
Definition int (q : Q) : Z :=
  if Qle_bool 0 q then Qfloor q else Qceiling q.

End Py.

(** ** Python floats

    A finite [float] is given by its value, a rational; what the model needs
    of IEEE 754 binary64 arithmetic is the rounding of an exact result to the
    nearest representable number (ties to even).  Mantissas have 53 bits and
    the exponent of the last place is at least -1074 (subnormal numbers);
    overflow to infinity is not modelled. *)

Module Float64.
Local Open Scope Z_scope.

Definition prec : Z := 53.
Definition emin : Z := -1074.

(** [n / d] rounded to the nearest integer, ties to even ([0 < d]). *)
Definition round_half_even (n d : Z) : Z :=
  let q := n / d in
  match 2 * (n `mod` d) ?= d with
  | Lt => q
  | Gt => q + 1
  | Eq => if Z.even q then q else q + 1
  end.

(** [floor(log2(n / d))], for positive [n] and [d]. *)
Definition log2_floor (n d : Z) : Z :=
  let k := Z.log2 n - Z.log2 d in
  if (if 0 <=? k then d * 2 ^ k <=? n else d <=? n * 2 ^ (- k))
  then k else k - 1.

(** The float nearest to [n / d] (positive [n] and [d]), as a mantissa and
    the exponent of its last place. *)
Definition nearest (n d : Z) : Z * Z :=
  let e := Z.max (log2_floor n d - (prec - 1)) emin in
  let m := if 0 <=? e then round_half_even n (d * 2 ^ e)
           else round_half_even (n * 2 ^ (- e)) d in
  (m, e).

Definition value (me : Z * Z) : Q :=
  if 0 <=? me.2 then inject_Z (me.1 * 2 ^ me.2)
  else Qmake me.1 (Z.to_pos (2 ^ (- me.2))).

(** The float nearest to a rational: what a literal such as [0.3]
    denotes. *)
Definition round (q : Q) : Q :=
  match Qnum q with
  | Z0 => 0%Q
  | Zpos n => value (nearest (Zpos n) (Zpos (Qden q)))
  | Zneg n => Qopp (value (nearest (Zpos n) (Zpos (Qden q))))
  end.

(** [float(z)], the conversion applied to an [int] operand. *)
Definition of_int (z : Z) : Q := round (inject_Z z).

(** [x * y] on floats. *)
Definition mul (x y : Q) : Q := round (Qmult x y).

End Float64.

(** ** Errors and random state as a monad *)

Global Instance result_ret : MRet result := fun A a => Ok a.
Global Instance result_bind : MBind result := fun A B f r =>
  match r with Ok a => f a | Err e => Err e end.

(** The interface of a pseudo-random generator ([random.Random],
    [np.random]): seeding fixes the state; [randbelow n] draws from
    [0, n); [random] draws a fraction in [0, 1). *)
Class RandomGen : Type := {
  rng : Type;
  rng_seed : Z -> rng;
  rng_randbelow : Z -> rng -> Z * rng;
  rng_random : rng -> Q * rng;
  rng_randbelow_range :
    forall n s, (0 < n)%Z -> (0 <= (rng_randbelow n s).1 < n)%Z
}.

(** Computations that may raise and that thread the generator state. *)
Definition M `{RandomGen} (A : Type) : Type := rng -> result (A * rng).

Global Instance M_ret `{RandomGen} : MRet M := fun A a s => Ok (a, s).
Global Instance M_bind `{RandomGen} : MBind M := fun A B f m s =>
  match m s with Ok (a, s1) => f a s1 | Err e => Err e end.

Definition lift `{RandomGen} {A} (r : result A) : M A := fun s =>
  match r with Ok a => Ok (a, s) | Err e => Err e end.

Definition raise `{RandomGen} {A} (e : error) : M A := fun _ => Err e.

(** [m] runs without raising from state [s] and its result satisfies [P]. *)
Definition returns `{RandomGen} {A} (m : M A) (s : rng)
    (P : A -> rng -> Prop) : Prop :=
  exists a s1, m s = Ok (a, s1) /\ P a s1.

Module Random.
Section Random.
Context `{RandomGen}.
Local Open Scope Z_scope.

(** [random.seed(a)] *)
Definition seed (a : Z) : M unit := fun _ => Ok (tt, rng_seed a).

(** [random.random()] *)
Definition random : M Q := fun s => Ok (rng_random s).

Definition randbelow (n : Z) : M Z := fun s => Ok (rng_randbelow n s).

(** [random.randint(a, b)]: uniform on [a, b]; an empty range raises. *)
Definition randint (a b : Z) : M Z :=
  if b + 1 - a <=? 0 then raise (ValueError "empty range for randrange()")
  else j ← randbelow (b + 1 - a); mret (a + j).

(** [x[i], x[j] = x[j], x[i]] *)
Definition swap {A} (x : list A) (i j : nat) : result (list A) :=
  match x !! j, x !! i with
  | Some xj, Some xi => Ok (<[j := xi]> (<[i := xj]> x))
  | _, _ => Err (IndexError "list index out of range")
  end.

(** The loop of [random.shuffle]:
    [for i in reversed(range(1, len(x))): j = randbelow(i + 1); swap] *)
Fixpoint shuffle_loop {A} (i : nat) (x : list A) : M (list A) :=
  match i with
  | O => mret x
  | S i' =>
      j ← randbelow (Z.of_nat i + 1);
      x1 ← lift (swap x i (Z.to_nat j));
      shuffle_loop i' x1
  end.

Definition shuffle {A} (x : list A) : M (list A) :=
  shuffle_loop (length x - 1)%nat x.

(** [np.random.randint(low, high, size=size)]: [size] draws from
    [low, high). *)
Fixpoint draws (low high : Z) (size : nat) : M (list Z) :=
  match size with
  | O => mret []
  | S size' =>
      j ← randbelow (high - low);
      rest ← draws low high size';
      mret ((low + j) :: rest)
  end.

Definition np_randint (low high size : Z) : M (list Z) :=
  if high <=? low then raise (ValueError "low >= high")
  else if size <? 0 then raise (ValueError "negative dimensions are not allowed")
  else draws low high (Z.to_nat size).

End Random.
End Random.

(** A concrete generator (a linear congruential one), to run the models. *)
Module LCG.
Local Open Scope Z_scope.

Definition next (s : Z) : Z := (1103515245 * s + 12345) `mod` 2147483648.

Definition randbelow (n s : Z) : Z * Z := (next s `mod` n, next s).

Definition random (s : Z) : Q * Z := (next s # 2147483648, next s).

Lemma randbelow_range n s : 0 < n -> 0 <= (randbelow n s).1 < n.
Proof. intros Hn. simpl. apply Z.mod_pos_bound. exact Hn. Qed.

Definition gen : RandomGen :=
  {| rng := Z;
     rng_seed := fun a => a `mod` 2147483648;
     rng_randbelow := randbelow;
     rng_random := random;
     rng_randbelow_range := randbelow_range |}.

End LCG.

(** ** [keras/preprocessing/sequence.py] *)

(** *** [TimeseriesGenerator] *)

(** The numpy in use.  What [np.array] does with rows of different lengths
    depends on its version: it builds a one-dimensional array of objects
    ([None]; numpy before 1.24), or it raises ([Some] of the exception). *)
Class Numpy : Type := { ragged_rows : option error }.

Definition numpy_legacy : Numpy := {| ragged_rows := None |}.

Definition numpy_strict : Numpy :=
  {| ragged_rows :=
       Some (ValueError "setting an array element with a sequence") |}.

Module TimeseriesGenerator.

(** JSON-compatible values of the configuration dictionary. *)
Inductive config_value : Type :=
| CStr (s : string)
| CInt (z : Z)
| CBool (b : bool).

Section TimeseriesGenerator.
Context `{RandomGen}.
(** Data points and targets, and [json.dumps] on sequences of them
    ([None] when the value is not JSON serializable). *)
Context {A B : Type}.
Context (dumps_data : list A -> option string).
Context (dumps_targets : list B -> option string).
Context `{np : Numpy}.
Local Open Scope Z_scope.

Record t : Type := mk {
  data : list A;
  targets : list B;
  length : Z;
  sampling_rate : Z;
  stride : Z;
  start_index : Z;
  end_index : Z;
  shuffle : bool;
  reverse : bool;
  batch_size : Z
}.

Definition __init__ (data : list A) (targets : list B) (length : Z)
    (sampling_rate stride start_index : Z) (end_index : option Z)
    (shuffle reverse : bool) (batch_size : Z) : result t :=
  if negb (Py.len data =? Py.len targets) then
    Err (ValueError "Data and targets have to be of same length.")
  else
    let self_start_index := start_index + length in
    let end_index := match end_index with
                     | None => Py.len data - 1
                     | Some e => e
                     end in
    if self_start_index >? end_index then
      Err (ValueError "`start_index+length > end_index` is disallowed")
    else
      Ok (mk data targets length sampling_rate stride self_start_index
             end_index shuffle reverse batch_size).

Definition __len__ (self : t) : result Z :=
  if batch_size self * stride self =? 0 then
    Err (ZeroDivisionError "integer division or modulo by zero")
  else
    Ok ((end_index self - start_index self + batch_size self * stride self)
          / (batch_size self * stride self)).

(** The end-points ("rows") of batch [index]. *)
Definition rows (self : t) (index : Z) : M (list Z) :=
  if shuffle self then
    Random.np_randint (start_index self) (end_index self + 1)
                      (batch_size self)
  else
    let i := start_index self + batch_size self * stride self * index in
    lift (Py.arange i
            (Z.min (i + batch_size self * stride self) (end_index self + 1))
            (stride self)).

(** [[f(row) for row in rows]] *)
Fixpoint for_rows {C} (f : Z -> result C) (rs : list Z) : result (list C) :=
  match rs with
  | [] => Ok []
  | r :: rs' => c ← f r; cs ← for_rows f rs'; mret (c :: cs)
  end.

(** Rows of one length: they make an array of two dimensions (or more). *)
Definition uniform (samples : list (list A)) : bool :=
  match samples with
  | [] => true
  | s :: rest =>
      forallb (fun r => Nat.eqb (Datatypes.length r) (Datatypes.length s))
              rest
  end.

(** [np.array(samples)]; the array is kept as the list of its rows. *)
Definition np_array (samples : list (list A)) : result (list (list A)) :=
  if uniform samples then Ok samples
  else match ragged_rows with
       | None => Ok samples
       | Some e => Err e
       end.

(** [samples[:, ::-1, ...]]: the array must have two dimensions, which an
    array without rows ([np.array([])], of shape [(0,)]) and an array of
    ragged rows have not. *)
Definition reverse_axis1 (samples : list (list A))
  : result (list (list A)) :=
  match samples with
  | [] => Err (IndexError "too many indices for array")
  | _ :: _ =>
      if uniform samples then Ok (@List.rev A <$> samples)
      else Err (IndexError "too many indices for array")
  end.

Definition __getitem__ (self : t) (index : Z)
  : M (list (list A) * list B) :=
  rs ← rows self index;
  windows ← lift (for_rows
    (fun row => Py.slice (data self) (Some (row - length self)) (Some row)
                         (sampling_rate self)) rs);
  samples ← lift (np_array windows);
  tgts ← lift (for_rows (fun row => Py.getitem (targets self) row) rs);
  if reverse self then
    reversed ← lift (reverse_axis1 samples);
    mret (reversed, tgts)
  else mret (samples, tgts).

Definition get_config (self : t) : result (gmap string config_value) :=
  match dumps_data (data self) with
  | None => Err (TypeError "Data not JSON Serializable:")
  | Some json_data =>
      match dumps_targets (targets self) with
      | None => Err (TypeError "Targets not JSON Serializable:")
      | Some json_targets =>
          Ok (<["data" := CStr json_data]>
             (<["targets" := CStr json_targets]>
             (<["length" := CInt (length self)]>
             (<["sampling_rate" := CInt (sampling_rate self)]>
             (<["stride" := CInt (stride self)]>
             (<["start_index" := CInt (start_index self)]>
             (<["end_index" := CInt (end_index self)]>
             (<["shuffle" := CBool (shuffle self)]>
             (<["reverse" := CBool (reverse self)]>
             (<["batch_size" := CInt (batch_size self)]> ∅))))))))))
      end
  end.

(** Calling the constructor again with the values of a configuration
    dictionary ([None] when a key is missing or of the wrong type). *)
Definition reconstruct (data : list A) (targets : list B)
    (cfg : gmap string config_value) : option (result t) :=
  match cfg !! "length", cfg !! "sampling_rate", cfg !! "stride",
        cfg !! "start_index", cfg !! "end_index", cfg !! "shuffle",
        cfg !! "reverse", cfg !! "batch_size" with
  | Some (CInt l), Some (CInt sr), Some (CInt st), Some (CInt s),
    Some (CInt e), Some (CBool sh), Some (CBool rv), Some (CInt bs) =>
      Some (__init__ data targets l sr st s (Some e) sh rv bs)
  | _, _, _, _, _, _, _, _ => None
  end.

(** The end-points of the batches [0 .. n-1], in order. *)
Fixpoint rows_upto (self : t) (n : nat) (s : rng) : list Z :=
  match n with
  | O => []
  | S n' =>
      rows_upto self n' s ++
      match rows self (Z.of_nat n') s with
      | Ok (rs, _) => rs
      | Err _ => []
      end
  end.

End TimeseriesGenerator.
End TimeseriesGenerator.

(** *** Small instances used to run the generator *)

(** A [json.dumps] that always succeeds (the text itself is irrelevant). *)
Definition dumps_stub {X} (l : list X) : option string := Some ""%string.

(** The configuration of five data points with [length = 2] and
    [batch_size = 1], constructed with [start_index = 0]. *)
Definition example_config : gmap string TimeseriesGenerator.config_value :=
  let CInt := TimeseriesGenerator.CInt in
  let CBool := TimeseriesGenerator.CBool in
  <["data" := TimeseriesGenerator.CStr ""]>
    (<["targets" := TimeseriesGenerator.CStr ""]>
    (<["length" := CInt 2%Z]> (<["sampling_rate" := CInt 1%Z]>
    (<["stride" := CInt 1%Z]> (<["start_index" := CInt 2%Z]>
    (<["end_index" := CInt 4%Z]> (<["shuffle" := CBool false]>
    (<["reverse" := CBool false]> (<["batch_size" := CInt 1%Z]> ∅))))))))).

(** Five data points, windows of length 1, two end-points per batch. *)
Definition example_generator : @TimeseriesGenerator.t Z Z :=
  TimeseriesGenerator.mk [10; 20; 30; 40; 50]%Z [1; 2; 3; 4; 5]%Z
                         1 1 1 1 4 false false 2.

(** *** [pad_sequences]

    Sequences of integers (the documented use: timesteps are scalars, so
    [sample_shape = ()] and the per-row shape check always passes), stored
    with the default [dtype='int32']; a text [value] is not modelled. *)

Module Pad.
Local Open Scope Z_scope.

(** [np.max(lengths)]: the maximum of an empty array raises. *)
Definition np_max (l : list Z) : result Z :=
  match l with
  | [] => Err (ValueError "zero-size array to reduction operation maximum")
  | x :: l' => Ok (foldr Z.max x l')
  end.

(** [dtype='int32'], the default: the integer is stored in 32 bits, in
    two's complement (the conversion numpy applies, without raising, to an
    integer that fits in 64 bits). *)
Definition int32 (z : Z) : Z := (z + 2 ^ 31) `mod` 2 ^ 32 - 2 ^ 31.

(** [np.full((num_samples, maxlen), value, dtype=dtype)] *)
Definition np_full (num_samples : nat) (maxlen value : Z)
  : result (list (list Z)) :=
  if maxlen <? 0 then Err (ValueError "negative dimensions are not allowed")
  else Ok (replicate num_samples (replicate (Z.to_nat maxlen) (int32 value))).

(** [np.asarray(trunc, dtype=dtype)] *)
Definition np_asarray (trunc : list Z) : list Z := int32 <$> trunc.

(** [row[start:stop] = vals] with numpy broadcasting: the value must have
    as many elements as the target slice, or exactly one. *)
Definition assign_slice (row : list Z) (start stop : option Z)
    (vals : list Z) : result (list Z) :=
  idxs ← Py.slice_indices (Py.len row) start stop 1;
  if Py.len vals =? Py.len idxs then
    Ok (foldr (fun (iv : Z * Z) r => <[Z.to_nat iv.1 := iv.2]> r)
              row (zip idxs vals))
  else
    match vals with
    | [v] => Ok (foldr (fun (i : Z) r => <[Z.to_nat i := v]> r) row idxs)
    | _ => Err (ValueError "could not broadcast input array")
    end.

(** [x[idx, start:stop] = vals] *)
Definition set_row (x : list (list Z)) (idx : nat) (start stop : option Z)
    (vals : list Z) : result (list (list Z)) :=
  match x !! idx with
  | None => Err (IndexError "index out of bounds")
  | Some row =>
      row1 ← assign_slice row start stop vals;
      mret (<[idx := row1]> x)
  end.

(** The main loop, [for idx, s in enumerate(sequences)]. *)
Fixpoint pad_loop (maxlen : Z) (padding truncating : string) (idx : nat)
    (sequences : list (list Z)) (x : list (list Z))
  : result (list (list Z)) :=
  match sequences with
  | [] => Ok x
  | s :: rest =>
      if Py.len s =? 0 then pad_loop maxlen padding truncating (S idx) rest x
      else
        trunc ← (if String.eqb truncating "pre"
                 then Py.slice s (Some (- maxlen)) None 1
                 else if String.eqb truncating "post"
                 then Py.slice s None (Some maxlen) 1
                 else Err (ValueError "Truncating type not understood"));
        let trunc := np_asarray trunc in
        x1 ← (if String.eqb padding "post"
              then set_row x idx None (Some (Py.len trunc)) trunc
              else if String.eqb padding "pre"
              then set_row x idx (Some (- Py.len trunc)) None trunc
              else Err (ValueError "Padding type not understood"));
        pad_loop maxlen padding truncating (S idx) rest x1
  end.

Definition pad_sequences (sequences : list (list Z)) (maxlen : option Z)
    (padding truncating : string) (value : Z) : result (list (list Z)) :=
  let num_samples := length sequences in
  let lengths := Py.len <$> sequences in
  maxlen ← match maxlen with
           | None => np_max lengths
           | Some m => Ok m
           end;
  x ← np_full num_samples maxlen value;
  pad_loop maxlen padding truncating 0 sequences x.

End Pad.

(** *** [skipgrams]

    A couple [[wi, wj]] is a pair; a label is an integer or, when
    [categorical], a one-hot list. *)

Module Skipgrams.

Inductive label : Type :=
| LInt (z : Z)
| LVec (l : list Z).

Abbreviation couple := (Z * Z)%type.

Fixpoint for_each {S X} (f : S -> X -> result S) (xs : list X) (s : S)
  : result S :=
  match xs with
  | [] => Ok s
  | x :: xs' => s1 ← f s x; for_each f xs' s1
  end.

Section Skipgrams.
Context `{RandomGen}.
Local Open Scope Z_scope.

Definition positive_label (categorical : bool) : label :=
  if categorical then LVec [0; 1] else LInt 1.

Definition negative_label (categorical : bool) : label :=
  if categorical then LVec [1; 0] else LInt 0.

(** [range(window_start, window_end)] around position [i]. *)
Definition window (sequence : list Z) (window_size i : Z) : list Z :=
  let window_start := Z.max 0 (i - window_size) in
  let window_end := Z.min (Py.len sequence) (i + window_size + 1) in
  Py.range window_start window_end.

(** Body of the inner loop, for one [j]. *)
Definition inner (sequence : list Z) (categorical : bool) (i wi : Z)
    (acc : list couple * list label) (j : Z)
  : result (list couple * list label) :=
  if j =? i then Ok acc
  else
    wj ← Py.getitem sequence j;
    if wj =? 0 then Ok acc
    else Ok (acc.1 ++ [(wi, wj)], acc.2 ++ [positive_label categorical]).

(** The outer loop, [for i, wi in enumerate(sequence)], from position [i]
    on; [rest] is the part of the sequence not yet visited. *)
Fixpoint outer (sequence : list Z) (window_size : Z) (categorical : bool)
    (sampling_table : option (list Q)) (i : Z) (rest : list Z)
    (acc : list couple * list label) : M (list couple * list label) :=
  match rest with
  | [] => mret acc
  | wi :: rest' =>
      if wi =? 0 then
        outer sequence window_size categorical sampling_table (i + 1) rest' acc
      else
        skip ← match sampling_table with
               | None => mret false
               | Some table =>
                   p ← lift (Py.getitem table wi);
                   u ← Random.random;
                   mret (negb (Qle_bool u p))
               end;
        if skip : bool then
          outer sequence window_size categorical sampling_table (i + 1)
                rest' acc
        else
          acc1 ← lift (for_each (inner sequence categorical i wi)
                                (window sequence window_size i) acc);
          outer sequence window_size categorical sampling_table (i + 1)
                rest' acc1
  end.

(** [[[words[i % len(words)], random.randint(1, vocabulary_size - 1)]
      for i in range(num_negative_samples)]] *)
Fixpoint negatives (words : list Z) (vocabulary_size : Z) (ks : list Z)
  : M (list couple) :=
  match ks with
  | [] => mret []
  | i :: ks' =>
      w ← lift (if Py.len words =? 0
                then Err (ZeroDivisionError "integer modulo by zero")
                else Py.getitem words (i `mod` Py.len words));
      r ← Random.randint 1 (vocabulary_size - 1);
      rest ← negatives words vocabulary_size ks';
      mret ((w, r) :: rest)
  end.

(** Everything before the final shuffle.  [negative_samples] is a float,
    the one nearest to the rational given, and
    [len(labels) * negative_samples] is a floating-point product. *)
Definition collect (sequence : list Z) (vocabulary_size window_size : Z)
    (negative_samples : Q) (categorical : bool)
    (sampling_table : option (list Q)) : M (list couple * list label) :=
  cl ← outer sequence window_size categorical sampling_table 0 sequence
             ([], []);
  let negative_samples := Float64.round negative_samples in
  if negb (Qle_bool negative_samples 0) then
    let num_negative_samples :=
      Py.int (Float64.mul (Float64.of_int (Py.len cl.2)) negative_samples) in
    words ← Random.shuffle (fst <$> cl.1);
    negs ← negatives words vocabulary_size (Py.range 0 num_negative_samples);
    mret (cl.1 ++ negs,
          cl.2 ++ replicate (Z.to_nat num_negative_samples)
                            (negative_label categorical))
  else mret cl.

(** The final shuffle: the generator is re-seeded with the same seed before
    each of the two shuffles. *)
Definition final_shuffle (seed : option Z) (cl : list couple * list label)
  : M (list couple * list label) :=
  seed ← match seed with
         | None => Random.randint 0 10000000
         | Some s => mret s
         end;
  _ ← Random.seed seed;
  couples ← Random.shuffle cl.1;
  _ ← Random.seed seed;
  labels ← Random.shuffle cl.2;
  mret (couples, labels).

Definition skipgrams (sequence : list Z) (vocabulary_size window_size : Z)
    (negative_samples : Q) (shuffle categorical : bool)
    (sampling_table : option (list Q)) (seed : option Z)
  : M (list couple * list label) :=
  cl ← collect sequence vocabulary_size window_size negative_samples
               categorical sampling_table;
  if shuffle then final_shuffle seed cl else mret cl.

(** The token at position [i] (0 outside the sequence). *)
Definition token (sequence : list Z) (i : Z) : Z :=
  default 0 (sequence !! Z.to_nat i).

Definition positions (sequence : list Z) : list Z :=
  Py.range 0 (Py.len sequence).

(** Position pairs [(i, j)] that co-occur in a window, zero tokens
    excluded. *)
Definition cooccurs (sequence : list Z) (window_size : Z) (ij : Z * Z)
  : bool :=
  (Z.max 0 (ij.1 - window_size) <=? ij.2)
  && (ij.2 <? Z.min (Py.len sequence) (ij.1 + window_size + 1))
  && negb (ij.2 =? ij.1)
  && negb (token sequence ij.1 =? 0)
  && negb (token sequence ij.2 =? 0).

Definition cooccurrence_count (sequence : list Z) (window_size : Z) : nat :=
  length (List.filter (cooccurs sequence window_size)
            (list_prod (positions sequence) (positions sequence))).

Definition is_positive (l : label) : bool :=
  match l with
  | LInt 1 => true
  | LVec [0; 1] => true
  | _ => false
  end.

Definition count_positive (labels : list label) : nat :=
  length (List.filter is_positive labels).

Definition no_zero_token (c : couple) : Prop := c.1 <> 0 /\ c.2 <> 0.

(** Closed forms of the two loops when there is no sampling table. *)
Definition inner_pairs (sequence : list Z) (i wi j : Z) : list couple :=
  if j =? i then []
  else if token sequence j =? 0 then []
  else [(wi, token sequence j)].

Fixpoint outer_pairs (sequence : list Z) (window_size i : Z) (rest : list Z)
  : list couple :=
  match rest with
  | [] => []
  | wi :: rest' =>
      (if wi =? 0 then []
       else flat_map (inner_pairs sequence i wi)
                     (window sequence window_size i))
      ++ outer_pairs sequence window_size (i + 1) rest'
  end.

(** [couples] and [labels] have the same length. *)
Definition aligned (cl : list couple * list label) : Prop :=
  length cl.1 = length cl.2.

(** The seed the final shuffle uses: the given one, or a fresh draw. *)
Definition seed_used (seed : option Z) (s : rng) : Z :=
  match seed with
  | Some sd => sd
  | None => 0 + (rng_randbelow (10000000 + 1 - 0) s).1
  end.

End Skipgrams.
End Skipgrams.

(** *** [make_sampling_table]

    Over the real numbers: [np.log] is [ln], [np.sqrt] is [sqrt],
    [np.minimum] is [Rmin]. *)

Module SamplingTable.
Local Open Scope R_scope.

Definition gamma : R := 577 / 1000.

(** [rank = np.arange(size); rank[0] = 1]: assigning into an empty array
    raises. *)
Definition ranks (size : Z) : result (list Z) :=
  match Py.range 0 size with
  | [] => Err (IndexError "index 0 is out of bounds for axis 0 with size 0")
  | _ :: rest => Ok (1%Z :: rest)
  end.

Definition inv_fq (rank : Z) : R :=
  IZR rank * (ln (IZR rank) + gamma) + 5 / 10 - 1 / (12 * IZR rank).

Definition probability (sampling_factor : R) (rank : Z) : R :=
  let f := sampling_factor * inv_fq rank in
  Rmin 1 (f / sqrt f).

Definition make_sampling_table (size : Z) (sampling_factor : R)
  : result (list R) :=
  match ranks size with
  | Ok rank => Ok (map (probability sampling_factor) rank)
  | Err e => Err e
  end.

End SamplingTable.

(** ** More of [keras/preprocessing/sequence.py] *)

(** *** [_remove_long_seq] *)

Module RemoveLongSeq.
Local Open Scope Z_scope.
Section RemoveLongSeq.
Context {X Y : Type}.

(** The loop [for x, y in zip(seq, label)], with both output lists. *)
Fixpoint remove_loop (maxlen : Z) (pairs : list (list X * Y))
    (new_seq : list (list X)) (new_label : list Y)
  : list (list X) * list Y :=
  match pairs with
  | [] => (new_seq, new_label)
  | xy :: rest =>
      if Py.len xy.1 <? maxlen
      then remove_loop maxlen rest (new_seq ++ [xy.1]) (new_label ++ [xy.2])
      else remove_loop maxlen rest new_seq new_label
  end.

Definition _remove_long_seq (maxlen : Z) (seq : list (list X))
    (label : list Y) : list (list X) * list Y :=
  remove_loop maxlen (zip seq label) [] [].

End RemoveLongSeq.
End RemoveLongSeq.

(** *** What [pad_sequences] computes, row by row *)

Module PadSpec.

(** The part of a sequence that is kept. *)
Definition truncate (truncating : string) (maxlen : nat) (s : list Z)
  : list Z :=
  if String.eqb truncating "pre" then drop (length s - maxlen) s
  else take maxlen s.

(** The kept part, aligned right (['pre']) or left, and filled up. *)
Definition pad_row (padding truncating : string) (maxlen : nat) (value : Z)
    (s : list Z) : list Z :=
  let t := truncate truncating maxlen s in
  if String.eqb padding "pre"
  then replicate (maxlen - length t) value ++ t
  else t ++ replicate (maxlen - length t) value.

Definition valid_mode (mode : string) : Prop := mode = "pre" \/ mode = "post".


(** The length of the longest sequence, and the width of the output. *)
Definition max_len (sequences : list (list Z)) : nat :=
  foldr Nat.max 0%nat (length <$> sequences).

Definition width (maxlen : option Z) (sequences : list (list Z)) : Z :=
  match maxlen with
  | Some m => m
  | None => Z.of_nat (max_len sequences)
  end.

(** The lengths of the rows of an array. *)
Definition shape (x : list (list Z)) : list nat := length <$> x.

(** The integers [dtype='int32'] holds unchanged. *)
Definition in_int32 (z : Z) : Prop := (- 2 ^ 31 <= z < 2 ^ 31)%Z.

End PadSpec.

(** ** More of [TimeseriesGenerator] *)

Module TimeseriesSpec.
Section TimeseriesSpec.
Context {A B : Type}.
Import TimeseriesGenerator.

(** The same generator with another [reverse] flag. *)
Definition set_reverse (rv : bool) (g : @t A B) : @t A B :=
  mk (data g) (targets g) (length g) (sampling_rate g) (stride g)
     (start_index g) (end_index g) (shuffle g) rv (batch_size g).


End TimeseriesSpec.
End TimeseriesSpec.

(** Six data points, windows of length 4 sampled every second point, given
    back reversed. *)
Definition example_windows : @TimeseriesGenerator.t Z Z :=
  TimeseriesGenerator.mk [10; 20; 30; 40; 50; 60]%Z [1; 2; 3; 4; 5; 6]%Z
                         4 2 1 4 5 false true 2.

(** Five data points, batches of three random end-points. *)
Definition example_shuffled : @TimeseriesGenerator.t Z Z :=
  TimeseriesGenerator.mk [10; 20; 30; 40; 50]%Z [1; 2; 3; 4; 5]%Z
                         2 1 1 2 4 true false 3.

(** ** More of [skipgrams] *)

Module SkipgramSpec.
Local Open Scope Z_scope.

(** [int(len(labels) * negative_samples)] for [positives] positive
    couples; none unless [negative_samples > 0]. *)
Definition num_negative_samples (positives : nat) (negative_samples : Q)
  : nat :=
  let negative_samples := Float64.round negative_samples in
  if Qle_bool negative_samples 0 then 0%nat
  else Z.to_nat (Py.int (Float64.mul (Float64.of_int (Z.of_nat positives))
                                     negative_samples)).

(** Every non-zero token of the sequence is an index into the sampling
    table (there is nothing to check without a table). *)
Definition table_covers (sampling_table : option (list Q))
    (sequence : list Z) : Prop :=
  match sampling_table with
  | None => True
  | Some table =>
      Forall (fun wi => wi = 0 \/ - Py.len table <= wi < Py.len table)
             sequence
  end.

End SkipgramSpec.

(** ** More of the momentum tests *)

Module MomentumReference.
Import Optimizer.
Local Open Scope Qc_scope.

(** The loop of [testNesterovMomentum] on the numpy side with a constant
    gradient: [for t in range(n): var, accum =
    _update_nesterov_momentum_numpy(var, accum, g, lr, momentum)]. *)
Fixpoint reference_steps (n : nat) (var accum g lr momentum : Qc)
  : Qc * Qc :=
  match n with
  | O => (var, accum)
  | S n' =>
      let '(var1, accum1) :=
        _update_nesterov_momentum_numpy var accum g lr momentum in
      reference_steps n' var1 accum1 g lr momentum
  end.

End MomentumReference.

(** * Properties

    ** The momentum optimizer *)

Section OptimizerFacts.
Import Optimizer.
Local Open Scope Qc_scope.

Lemma Qc_eq_this (x y : Qc) : this x = this y -> x = y.
Proof. intros E. rewrite <- (Qc_is_canon x y); [reflexivity|]. rewrite E. reflexivity. Qed.

Lemma SGD_new_ok lr m nest d opt :
  SGD_new lr m nest d = Ok opt ->
  opt = mkSGD lr m nest d /\ 0 <= m /\ m <= 1 /\ (m = 0 -> nest = false).
Proof.
  unfold SGD_new. case_bool_decide as Hr; [discriminate|].
  case_bool_decide as H0; destruct nest; simpl; try discriminate;
    intros [= <-]; (split; [reflexivity|]);
    (split; [|split]); try (apply Qcnot_lt_le; tauto); try tauto; try reflexivity.
Qed.

Lemma update_elem_classical opt lr var acc g :
  momentum opt <> 0 -> nesterov opt = false ->
  update_elem opt lr var acc g =
    (var + (momentum opt * acc - lr * g), momentum opt * acc - lr * g).
Proof.
  intros Hm Hn. unfold update_elem. rewrite bool_decide_eq_false_2 by assumption.
  rewrite Hn. reflexivity.
Qed.

Lemma update_row_classical opt lr (var acc g : list Qc) :
  momentum opt <> 0 -> nesterov opt = false ->
  length acc = length var -> length g = length var ->
  let new_acc := zip_with (fun a x => momentum opt * a - lr * x) acc g in
  update_row opt lr var acc g = (zip_with Qcplus var new_acc, new_acc).
Proof.
  intros Hm Hn. revert acc g. induction var as [|v var IH]; intros [|a acc] [|x g]; simpl; try discriminate; try reflexivity.
  intros [= Ha] [= Hg]. rewrite update_elem_classical by assumption.
  rewrite (IH acc g Ha Hg). reflexivity.
Qed.

Ltac qc_eq :=
  repeat first [ apply Qc_eq_this; vm_compute; reflexivity | progress f_equal ].

(** C1.  Classical momentum ([nesterov = false], [momentum > 0]): on every
    element of a row an update computes
    [new_accumulator = momentum * accumulator - effective_lr(step) * gradient]
    and [new_variable = variable + new_accumulator].  In particular, for the
    run of [testBasic] ([lr = 2], [momentum = 9/10], gradient [1/10],
    variable [1], accumulator [0]) the accumulator is exactly [-2/10] after
    step 1 and [9/10 * (-2/10) - 2 * 1/10 = -38/100] after step 2, and the
    variable is exactly [1 - 2/10 - 38/100 = 42/100] after step 2. *)
Theorem C1_classical_momentum :
  (forall lr m d opt step (var acc g : list Qc),
     SGD_new lr m false d = Ok opt -> 0 < m ->
     length acc = length var -> length g = length var ->
     let new_acc :=
       zip_with (fun a x => m * a - effective_lr opt step * x) acc g in
     update_row opt (effective_lr opt step) var acc g
       = (zip_with Qcplus var new_acc, new_acc))
  /\ (exists opt,
        SGD_new (Constant (q 2 1)) (q 9 10) false (q 0 1) = Ok opt /\
        let run n := steps opt test_basic_grads n test_basic_state in
        slot_of (run 1%nat) "var0" = Some [[q (-2) 10]; [q (-2) 10]] /\
        slot_of (run 2%nat) "var0" = Some [[q (-38) 100]; [q (-38) 100]] /\
        var_of (run 2%nat) "var0" = Some [[q 42 100]; [q 142 100]] /\
        q (-38) 100 = q 9 10 * q (-2) 10 - q 2 1 * q 1 10 /\
        q 42 100 = q 1 1 - q 2 10 - q 38 100).
Proof.
  split.
  - intros lr m d opt step var acc g Hnew Hm Ha Hg.
    apply SGD_new_ok in Hnew as (-> & _). simpl momentum.
    apply (update_row_classical (mkSGD lr m false d)); auto.
    simpl. intros E. apply (Qclt_not_eq _ _ Hm). symmetry. exact E.
  - eexists. split; [vm_compute; reflexivity|].
    repeat split; vm_compute; qc_eq.
Qed.

(** The general part of C1 at the first step of [testBasic]. *)
Lemma C1_classical_momentum_witness :
  update_row (mkSGD (Constant (q 2 1)) (q 9 10) false (q 0 1))
             (effective_lr (mkSGD (Constant (q 2 1)) (q 9 10) false (q 0 1)) 0)
             [q 1 1] [q 0 1] [q 1 10]
  = (zip_with Qcplus [q 1 1]
       (zip_with (fun a x => q 9 10 * a
          - effective_lr (mkSGD (Constant (q 2 1)) (q 9 10) false (q 0 1)) 0 * x)
          [q 0 1] [q 1 10]),
     zip_with (fun a x => q 9 10 * a
          - effective_lr (mkSGD (Constant (q 2 1)) (q 9 10) false (q 0 1)) 0 * x)
          [q 0 1] [q 1 10]).
Proof.
  apply (proj1 C1_classical_momentum (Constant (q 2 1)) (q 9 10) (q 0 1)).
  - vm_compute. reflexivity.
  - vm_compute. reflexivity.
  - reflexivity.
  - reflexivity.
Defined.

Lemma nesterov_step_numpy m lr var acc g :
  m <> 0 ->
  nesterov_step m lr var acc g = _update_nesterov_momentum_numpy var acc g lr m.
Proof.
  intros Hm. unfold nesterov_step, update_elem, _update_nesterov_momentum_numpy.
  simpl. rewrite bool_decide_eq_false_2 by assumption.
  f_equal; ring.
Qed.

Lemma variants_gap m lr var acc g :
  m <> 0 ->
  (nesterov_step m lr var acc g).1 - (classical_step m lr var acc g).1
  = m * ((m - 1) * acc - lr * g).
Proof.
  intros Hm. unfold nesterov_step, classical_step, update_elem. simpl.
  rewrite bool_decide_eq_false_2 by assumption. simpl. ring.
Qed.

Lemma Qcminus_eq_0 (x y : Qc) : x - y = 0 <-> x = y.
Proof.
  split; intros E.
  - replace x with ((x - y) + y) by ring. rewrite E. ring.
  - rewrite E. ring.
Qed.

(** C2 as stated fails: with [momentum = 1/2], [lr = 1], gradient [1] and
    accumulator [-2] (so that [(momentum - 1) * accumulator = lr * gradient])
    the Nesterov and the classical update produce the same variable. *)
Lemma C2_counterexample :
  ~ (forall m lr g var acc : Qc,
       0 < m -> 0 < lr -> g <> 0 ->
       (_update_nesterov_momentum_numpy var acc g lr m).1
       <> (classical_step m lr var acc g).1).
Proof.
  intros Hall.
  apply (Hall (q 1 2) (q 1 1) (q 1 1) (q 0 1) (q (-2) 1)).
  - vm_compute. reflexivity.
  - vm_compute. reflexivity.
  - intros E. apply (f_equal this) in E. vm_compute in E. discriminate.
  - vm_compute. qc_eq.
Qed.

(** C2, amended.  For [momentum > 0], [lr > 0] and a non-zero gradient, from
    the same (variable, accumulator) state both variants compute the same new
    accumulator, and the Nesterov variable differs from the classical one
    exactly when [(momentum - 1) * accumulator <> lr * gradient]; this is
    always so when the accumulator is zero, as on the first update. *)
Theorem C2_nesterov_differs_from_classical (m lr g var acc : Qc) :
  0 < m -> 0 < lr -> g <> 0 ->
  (_update_nesterov_momentum_numpy var acc g lr m).2
    = (classical_step m lr var acc g).2
  /\ ((_update_nesterov_momentum_numpy var acc g lr m).1
        <> (classical_step m lr var acc g).1
      <-> (m - 1) * acc <> lr * g)
  /\ (acc = 0 ->
      (_update_nesterov_momentum_numpy var acc g lr m).1
        <> (classical_step m lr var acc g).1).
Proof.
  intros Hm Hlr Hg.
  assert (Hm0 : m <> 0) by (intros E; apply (Qclt_not_eq _ _ Hm); symmetry; exact E).
  assert (Hlr0 : lr <> 0) by (intros E; apply (Qclt_not_eq _ _ Hlr); symmetry; exact E).
  rewrite <- (nesterov_step_numpy m lr var acc g Hm0).
  assert (Hiff : (nesterov_step m lr var acc g).1 <> (classical_step m lr var acc g).1
                 <-> (m - 1) * acc <> lr * g).
  { rewrite <- (Qcminus_eq_0 (nesterov_step m lr var acc g).1).
    rewrite (variants_gap m lr var acc g Hm0).
    rewrite <- (Qcminus_eq_0 ((m - 1) * acc)).
    split; intros Hne E; apply Hne.
    - rewrite E. ring.
    - apply Qcmult_integral in E as [E|E]; [contradiction|exact E]. }
  split; [|split].
  - unfold nesterov_step, classical_step, update_elem. simpl.
    rewrite bool_decide_eq_false_2 by assumption. reflexivity.
  - exact Hiff.
  - intros ->. apply Hiff. intros E.
    assert (E' : lr * g = 0) by (rewrite <- E; ring).
    apply Qcmult_integral in E' as [E'|E']; contradiction.
Qed.

(** C2 at the first step of [testBasic]. *)
Lemma C2_nesterov_differs_from_classical_witness :
  (_update_nesterov_momentum_numpy (q 1 1) (q 0 1) (q 1 10) (q 2 1) (q 9 10)).1
  <> (classical_step (q 9 10) (q 2 1) (q 1 1) (q 0 1) (q 1 10)).1.
Proof.
  apply (C2_nesterov_differs_from_classical (q 9 10) (q 2 1) (q 1 10) (q 1 1) (q 0 1)).
  - vm_compute. reflexivity.
  - vm_compute. reflexivity.
  - intros E. apply (f_equal this) in E. vm_compute in E. discriminate.
  - apply Qc_eq_this. vm_compute. reflexivity.
Defined.

(** C3.  Constructing the optimizer raises a configuration error if and only
    if [momentum] lies outside [[0, 1]] or [momentum = 0] while [nesterov] is
    set; for [momentum] in [[0, 1]] without Nesterov, and for [momentum] in
    [(0, 1]] with it, construction succeeds. *)
Theorem C3_construction_validation (lr : lr_source) (m : Qc) (nest : bool) (d : Qc) :
  (is_value_error (SGD_new lr m nest d) = true
     <-> (m < 0 \/ 1 < m \/ (m = 0 /\ nest = true)))
  /\ (is_ok (SGD_new lr m nest d) = false
     <-> (m < 0 \/ 1 < m \/ (m = 0 /\ nest = true)))
  /\ ((0 <= m /\ m <= 1 /\ nest = false) \/ (0 < m /\ m <= 1 /\ nest = true)
      -> SGD_new lr m nest d = Ok (mkSGD lr m nest d)).
Proof.
  assert (Hcases : (m < 0 \/ 1 < m \/ (m = 0 /\ nest = true)) \/
                   (SGD_new lr m nest d = Ok (mkSGD lr m nest d) /\
                    ~ (m < 0 \/ 1 < m \/ (m = 0 /\ nest = true)))).
  { unfold SGD_new. case_bool_decide as Hr; [left; tauto|].
    case_bool_decide as H0; destruct nest; simpl; try (left; tauto);
      right; (split; [reflexivity|]); intros [?|[?|[? ?]]];
      try tauto; try discriminate. }
  assert (Herr : (m < 0 \/ 1 < m \/ (m = 0 /\ nest = true)) ->
                 is_value_error (SGD_new lr m nest d) = true /\
                 is_ok (SGD_new lr m nest d) = false).
  { unfold SGD_new. intros Hbad. case_bool_decide as Hr; [split; reflexivity|].
    case_bool_decide as H0; destruct nest; simpl; try (split; reflexivity);
      exfalso; destruct Hbad as [?|[?|[? ?]]]; try tauto; try discriminate. }
  split; [|split].
  - split; [|apply Herr]. destruct Hcases as [Hb|[Hok Hn]]; [tauto|].
    rewrite Hok. discriminate.
  - split; [|apply Herr]. destruct Hcases as [Hb|[Hok Hn]]; [tauto|].
    rewrite Hok. discriminate.
  - intros Hgood. destruct Hcases as [Hb|[Hok Hn]]; [|exact Hok].
    exfalso. destruct Hgood as [(H0 & H1 & Hf)|(H0 & H1 & Ht)];
      destruct Hb as [Hb|[Hb|[Hb Hb']]].
    + exact (Qcle_not_lt _ _ H0 Hb).
    + exact (Qcle_not_lt _ _ H1 Hb).
    + congruence.
    + exact (Qclt_not_le _ _ Hb (Qclt_le_weak _ _ H0)).
    + exact (Qcle_not_lt _ _ H1 Hb).
    + apply (Qclt_not_eq _ _ H0). symmetry. exact Hb.
Qed.

(** C3 at the optimizer of [testConfig]. *)
Lemma C3_construction_validation_witness :
  SGD_new (Constant (q 1 1)) (q 9 10) true (q 0 1)
  = Ok (mkSGD (Constant (q 1 1)) (q 9 10) true (q 0 1)).
Proof.
  apply (proj2 (proj2 (C3_construction_validation
                         (Constant (q 1 1)) (q 9 10) true (q 0 1)))).
  right. split; [vm_compute; reflexivity|].
  split; [vm_compute; discriminate|reflexivity].
Defined.

Lemma apply_sparse_from_cons opt lr g r v a (var acc : list (list Qc)) :
  apply_sparse_from opt lr g r (v :: var) (a :: acc)
  = ((sparse_row opt lr g r v a).1 :: (apply_sparse_from opt lr g (S r) var acc).1,
     (sparse_row opt lr g r v a).2 :: (apply_sparse_from opt lr g (S r) var acc).2).
Proof.
  cbn [apply_sparse_from]. fold (sparse_row opt lr g r v a).
  destruct (sparse_row opt lr g r v a).
  destruct (apply_sparse_from opt lr g (S r) var acc). reflexivity.
Qed.

Lemma apply_sparse_from_lookup opt lr g r0 (var acc : list (list Qc)) k :
  length acc = length var ->
  (apply_sparse_from opt lr g r0 var acc).1 !! k
    = match var !! k, acc !! k with
      | Some v, Some a => Some (sparse_row opt lr g (r0 + k) v a).1
      | _, _ => None
      end
  /\ (apply_sparse_from opt lr g r0 var acc).2 !! k
    = match var !! k, acc !! k with
      | Some v, Some a => Some (sparse_row opt lr g (r0 + k) v a).2
      | _, _ => None
      end.
Proof.
  revert r0 acc k. induction var as [|v var IH]; intros r0 [|a acc] k;
    try discriminate.
  - intros _. split; reflexivity.
  - intros [= Hlen]. rewrite apply_sparse_from_cons.
    destruct k as [|k].
    + replace (r0 + 0)%nat with r0 by lia. split; reflexivity.
    + replace (r0 + S k)%nat with (S r0 + k)%nat by lia.
      exact (IH (S r0) acc k Hlen).
Qed.

Lemma apply_sparse_from_length opt lr g r0 (var acc : list (list Qc)) :
  length acc = length var ->
  length (apply_sparse_from opt lr g r0 var acc).1 = length var
  /\ length (apply_sparse_from opt lr g r0 var acc).2 = length acc.
Proof.
  revert r0 acc. induction var as [|v var IH]; intros r0 [|a acc];
    try discriminate.
  - intros _. split; reflexivity.
  - intros [= Hlen]. rewrite apply_sparse_from_cons.
    destruct (IH (S r0) acc Hlen) as [IH1 IH2].
    cbn [fst snd length]. split; congruence.
Qed.

Lemma apply_dense_cons opt lr v a x (var acc g : list (list Qc)) :
  apply_dense opt lr (v :: var) (a :: acc) (x :: g)
  = ((update_row opt lr v a x).1 :: (apply_dense opt lr var acc g).1,
     (update_row opt lr v a x).2 :: (apply_dense opt lr var acc g).2).
Proof.
  cbn [apply_dense]. destruct (update_row opt lr v a x).
  destruct (apply_dense opt lr var acc g). reflexivity.
Qed.

Lemma apply_dense_densify_lookup opt lr g r0 (var acc : list (list Qc)) k v a :
  length acc = length var ->
  var !! k = Some v -> acc !! k = Some a ->
  (apply_dense opt lr var acc (densify_from g r0 var)).1 !! k
    = Some (update_row opt lr v a (summed_row g (length v) (r0 + k))).1
  /\ (apply_dense opt lr var acc (densify_from g r0 var)).2 !! k
    = Some (update_row opt lr v a (summed_row g (length v) (r0 + k))).2.
Proof.
  revert r0 acc k. induction var as [|v0 var IH]; intros r0 [|a0 acc] k;
    try discriminate.
  intros [= Hlen] Hv Ha. cbn [densify_from]. rewrite apply_dense_cons.
  destruct k as [|k].
  - injection Hv as <-. injection Ha as <-.
    replace (r0 + 0)%nat with r0 by lia. split; reflexivity.
  - replace (r0 + S k)%nat with (S r0 + k)%nat by lia.
    exact (IH (S r0) acc k Hlen Hv Ha).
Qed.

Lemma update_row_lookup opt lr (v a gr : list Qc) (j : nat) x y gx :
  v !! j = Some x -> a !! j = Some y -> gr !! j = Some gx ->
  (update_row opt lr v a gr).1 !! j = Some (update_elem opt lr x y gx).1
  /\ (update_row opt lr v a gr).2 !! j = Some (update_elem opt lr x y gx).2.
Proof.
  revert a gr j. induction v as [|v0 v IH]; intros [|a0 a] [|g0 gr] j;
    try discriminate.
  intros Hv Ha Hg. cbn [update_row].
  destruct (update_elem opt lr v0 a0 g0) as [v1 a1] eqn:E0.
  destruct (update_row opt lr v a gr) as [vs accs] eqn:Er.
  destruct j as [|j]; simpl in Hv, Ha, Hg.
  - injection Hv as <-. injection Ha as <-. injection Hg as <-.
    rewrite E0. split; reflexivity.
  - specialize (IH a gr j Hv Ha Hg). rewrite Er in IH. exact IH.
Qed.

(** The row the sparse update sums up holds, in column [j], the sum of the
    [j]-th entries of all slices with that index. *)
Lemma summed_row_lookup (g : IndexedSlices) (w r j : nat) :
  Forall (fun row : list Qc => length row = w) (values g) ->
  (j < w)%nat ->
  summed_row g w r !! j = Some (slice_sum g r j).
Proof.
  intros Hw Hj. unfold summed_row, slice_sum.
  assert (Hall : Forall (fun iv : nat * list Qc => length iv.2 = w)
                        (zip (indices g) (values g))).
  { apply Forall_forall. intros [i row] Hin. apply elem_of_zip_r in Hin.
    rewrite Forall_forall in Hw. exact (Hw row Hin). }
  induction Hall as [|iv l Hiv Hall IH].
  - simpl. apply lookup_replicate_2. exact Hj.
  - cbn [foldr]. destruct (decide (iv.1 = r)) as [Hr|Hr].
    + rewrite bool_decide_eq_true_2 by exact Hr.
      rewrite filter_cons_True by exact Hr. cbn [fmap list_fmap foldr].
      unfold row_add in IH |- *. rewrite lookup_zip_with, IH.
      destruct (lookup_lt_is_Some_2 iv.2 j ltac:(lia)) as [x Hx].
      rewrite Hx. simpl. f_equal. apply Qcplus_comm.
    + rewrite bool_decide_eq_false_2 by exact Hr.
      rewrite filter_cons_False by exact Hr. exact IH.
Qed.

(** C4.  Sparse update: when every index of the gradient is a row of the
    variable, one update leaves every row outside the index set unchanged, in
    the variable and in the accumulator.  Every row [r] of the index set
    follows the dense formulas with the summed gradient of that row: it is
    the row the dense update computes for the densified gradient, and,
    element by element, it is the dense update of one element
    ([update_elem]) applied to the sum of the entries of all slices indexed
    [r] ([slice_sum]), so that a repeated index contributes each of its
    slices. *)
Theorem C4_sparse_update_frame (opt : SGD) (lr : Qc) (var acc : list (list Qc))
    (g : IndexedSlices) :
  (forall r, r ∈ indices g -> (r < length var)%nat) ->
  length acc = length var ->
  let new := apply_sparse opt lr var acc g in
  let dense := apply_dense opt lr var acc (densify g var) in
  length new.1 = length var /\ length new.2 = length acc
  /\ (forall r, r ∉ indices g ->
        new.1 !! r = var !! r /\ new.2 !! r = acc !! r)
  /\ (forall r, r ∈ indices g ->
        exists v a, var !! r = Some v /\ acc !! r = Some a
        /\ new.1 !! r = Some (update_row opt lr v a (summed_row g (length v) r)).1
        /\ new.2 !! r = Some (update_row opt lr v a (summed_row g (length v) r)).2
        /\ new.1 !! r = dense.1 !! r
        /\ new.2 !! r = dense.2 !! r
        /\ (Forall (fun row : list Qc => length row = length v) (values g) ->
            forall (j : nat) (x y : Qc),
              v !! j = Some x -> a !! j = Some y ->
              exists v1 a1,
                new.1 !! r = Some v1 /\ new.2 !! r = Some a1
                /\ v1 !! j = Some (update_elem opt lr x y (slice_sum g r j)).1
                /\ a1 !! j
                   = Some (update_elem opt lr x y (slice_sum g r j)).2)).
Proof.
  intros Hsub Hlen new dense. subst new dense. unfold apply_sparse, densify.
  destruct (apply_sparse_from_length opt lr g 0 var acc Hlen) as [L1 L2].
  split; [exact L1|]. split; [exact L2|]. split.
  - intros r Hr.
    destruct (apply_sparse_from_lookup opt lr g 0 var acc r Hlen) as [E1 E2].
    rewrite E1, E2. simpl. unfold sparse_row.
    rewrite bool_decide_eq_false_2 by assumption. simpl.
    destruct (var !! r) as [v|] eqn:Ev; destruct (acc !! r) as [a|] eqn:Ea;
      try (split; reflexivity).
    + apply lookup_lt_Some in Ev. apply lookup_ge_None in Ea. lia.
    + apply lookup_lt_Some in Ea. apply lookup_ge_None in Ev. lia.
  - intros r Hr. pose proof (Hsub r Hr) as Hlt.
    destruct (lookup_lt_is_Some_2 var r Hlt) as [v Ev].
    assert (Hlt' : (r < length acc)%nat) by lia.
    destruct (lookup_lt_is_Some_2 acc r Hlt') as [a Ea].
    exists v, a. split; [exact Ev|]. split; [exact Ea|].
    destruct (apply_sparse_from_lookup opt lr g 0 var acc r Hlen) as [E1 E2].
    destruct (apply_dense_densify_lookup opt lr g 0 var acc r v a Hlen Ev Ea)
      as [D1 D2].
    rewrite E1, E2, D1, D2, Ev, Ea. simpl. unfold sparse_row.
    rewrite bool_decide_eq_true_2 by assumption.
    do 4 (split; [reflexivity|]).
    intros Hw j x y Hx Hy.
    assert (Hj : (j < length v)%nat) by (apply lookup_lt_Some in Hx; exact Hx).
    pose proof (summed_row_lookup g (length v) r j Hw Hj) as Hg.
    destruct (update_row_lookup opt lr v a (summed_row g (length v) r) j x y
                (slice_sum g r j) Hx Hy Hg) as [U1 U2].
    eexists _, _. split; [reflexivity|]. split; [reflexivity|].
    split; assumption.
Qed.

(** C4 on [testSparse]'s variable with a repeated index: element 0 of
    row 1 is updated with the sum of both slices. *)
Lemma C4_sparse_update_frame_witness :
  exists v1 a1,
    (apply_sparse test_sparse_opt (q 2 1) test_sparse_var
       (zeros_like test_sparse_var) test_duplicate_grad).1 !! 1%nat = Some v1
    /\ (apply_sparse test_sparse_opt (q 2 1) test_sparse_var
          (zeros_like test_sparse_var) test_duplicate_grad).2 !! 1%nat
       = Some a1
    /\ v1 !! 0%nat
       = Some (update_elem test_sparse_opt (q 2 1) (q 0 1) (q 0 1)
                 (slice_sum test_duplicate_grad 1 0)).1
    /\ a1 !! 0%nat
       = Some (update_elem test_sparse_opt (q 2 1) (q 0 1) (q 0 1)
                 (slice_sum test_duplicate_grad 1 0)).2.
Proof.
  assert (Hsub : forall r, r ∈ indices test_duplicate_grad ->
                   (r < length test_sparse_var)%nat).
  { intros r Hr. simpl in Hr.
    repeat (apply elem_of_cons in Hr as [->|Hr]; [simpl; lia|]).
    inversion Hr. }
  assert (Hin : 1%nat ∈ indices test_duplicate_grad) by (simpl; left).
  destruct (proj2 (proj2 (proj2
    (C4_sparse_update_frame test_sparse_opt (q 2 1) test_sparse_var
       (zeros_like test_sparse_var) test_duplicate_grad Hsub eq_refl)))
    1%nat Hin)
    as (v & a & Ev & Ea & _ & _ & _ & _ & Helem).
  injection Ev as <-. injection Ea as <-.
  apply Helem.
  - repeat constructor.
  - reflexivity.
  - reflexivity.
Defined.

(** The repeated index at work: both slices, 0.1 and 0.2, reach row 1, which
    moves by [2.0 * 0.3]; the other rows stay. *)
Example test_duplicate_rows :
  slice_sum test_duplicate_grad 1 0 = q 3 10
  /\ (apply_sparse test_sparse_opt (q 2 1) test_sparse_var
        (zeros_like test_sparse_var) test_duplicate_grad).1
     = [[q 0 1; q 0 1]; [q (-6) 10; q (-6) 10]; [q 0 1; q 0 1];
        [q 0 1; q 0 1]].
Proof. split; vm_compute; qc_eq. Qed.

(** [testNesterovWithoutMomentum]: [momentum = 2.0] is rejected. *)
Example test_momentum_out_of_range :
  is_value_error (SGD_new (Constant (q 1 1)) (q 2 1) false (q 0 1)) = true.
Proof. vm_compute. reflexivity. Qed.

(** The remaining expected values of [testBasic], for [var1]. *)
Example test_basic_var1 :
  let run n := steps (mkSGD (Constant (q 2 1)) (q 9 10) false (q 0 1))
                     test_basic_grads n test_basic_state in
  slot_of (run 1%nat) "var1" = Some [[q (-2) 100]; [q (-2) 100]]
  /\ var_of (run 1%nat) "var1" = Some [[q 298 100]; [q 398 100]]
  /\ slot_of (run 2%nat) "var1" = Some [[q (-38) 1000]; [q (-38) 1000]]
  /\ var_of (run 2%nat) "var1" = Some [[q 2942 1000]; [q 3942 1000]].
Proof. repeat split; vm_compute; qc_eq. Qed.

(** [testSparse], first variable: rows 0, 2 and 3 stay zero, row 1 moves as
    in [testBasic]. *)
Example test_sparse_var0 :
  let st0 := mkState 0 (<["var0" := test_sparse_var]> ∅) ∅ in
  let run n := steps test_sparse_opt [(Sparse test_sparse_grad, "var0")] n st0 in
  var_of (run 1%nat) "var0"
    = Some [[q 0 1; q 0 1]; [q (-2) 10; q (-2) 10]; [q 0 1; q 0 1]; [q 0 1; q 0 1]]
  /\ slot_of (run 2%nat) "var0"
    = Some [[q 0 1; q 0 1]; [q (-38) 100; q (-38) 100]; [q 0 1; q 0 1]; [q 0 1; q 0 1]]
  /\ var_of (run 2%nat) "var0"
    = Some [[q 0 1; q 0 1]; [q (-58) 100; q (-58) 100]; [q 0 1; q 0 1]; [q 0 1; q 0 1]].
Proof. repeat split; vm_compute; qc_eq. Qed.

End OptimizerFacts.

(** ** Python helpers *)

Section PyFacts.
Local Open Scope Z_scope.

Lemma progression_length a step n : length (Py.progression a step n) = n.
Proof. unfold Py.progression. rewrite length_fmap, length_seq. reflexivity. Qed.

Lemma progression_lookup a step n (k : nat) :
  (k < n)%nat -> Py.progression a step n !! k = Some (a + step * Z.of_nat k).
Proof.
  intros Hk. unfold Py.progression. rewrite list_lookup_fmap.
  rewrite lookup_seq_lt by exact Hk. reflexivity.
Qed.

Lemma progression_app a step (m k : nat) :
  Py.progression a step (m + k)
  = Py.progression a step m ++ Py.progression (a + step * Z.of_nat m) step k.
Proof.
  unfold Py.progression. rewrite seq_app, fmap_app. f_equal.
  replace (seq (0 + m) k) with (Nat.add m <$> seq 0 k)
    by (rewrite fmap_add_seq; f_equal; lia).
  rewrite <- list_fmap_compose.
  apply list_fmap_ext. intros i x _. simpl. lia.
Qed.

Lemma elem_of_progression a step n x :
  x ∈ Py.progression a step n
  <-> exists k : nat, (k < n)%nat /\ x = a + step * Z.of_nat k.
Proof.
  unfold Py.progression. rewrite list_elem_of_fmap. split.
  - intros (k & -> & Hk). apply elem_of_seq in Hk. exists k. split; [lia|reflexivity].
  - intros (k & Hk & ->). exists k. split; [reflexivity|]. apply elem_of_seq. lia.
Qed.

Lemma NoDup_progression a step n : step <> 0 -> NoDup (Py.progression a step n).
Proof.
  intros Hstep. unfold Py.progression. apply NoDup_fmap_2; [|apply NoDup_seq].
  intros i j Hij. nia.
Qed.

Lemma getitem_ok {X} (l : list X) (i : Z) :
  0 <= i < Py.len l -> exists x, Py.getitem l i = Ok x /\ l !! Z.to_nat i = Some x.
Proof.
  intros Hi. unfold Py.getitem, Py.len in *.
  destruct (i <? 0) eqn:E1; [lia|].
  destruct (i <? 0) eqn:E2; [lia|].
  destruct (Z.of_nat (length l) <=? i) eqn:E3; [lia|]. simpl.
  destruct (l !! Z.to_nat i) as [x|] eqn:El; [eauto|].
  apply lookup_ge_None in El. lia.
Qed.

(** Negative indices count from the end. *)
Lemma getitem_total {X} (l : list X) (i : Z) :
  - Py.len l <= i < Py.len l -> exists x, Py.getitem l i = Ok x.
Proof.
  intros Hi. unfold Py.getitem, Py.len in *.
  destruct (i <? 0) eqn:E1.
  - destruct (i + Z.of_nat (length l) <? 0) eqn:E2; [lia|].
    destruct (Z.of_nat (length l) <=? i + Z.of_nat (length l)) eqn:E3; [lia|].
    simpl. destruct (l !! Z.to_nat (i + Z.of_nat (length l))) as [x|] eqn:El;
      [eauto|].
    apply lookup_ge_None in El. lia.
  - destruct (i <? 0) eqn:E2; [lia|].
    destruct (Z.of_nat (length l) <=? i) eqn:E3; [lia|]. simpl.
    destruct (l !! Z.to_nat i) as [x|] eqn:El; [eauto|].
    apply lookup_ge_None in El. lia.
Qed.

Lemma getitem_err {X} (l : list X) (i : Z) :
  Py.len l <= i -> is_ok (Py.getitem l i) = false.
Proof.
  intros Hi. unfold Py.getitem, Py.len in *.
  destruct (i <? 0) eqn:E1; [lia|].
  destruct (Z.of_nat (length l) <=? i) eqn:E3; [|lia].
  rewrite orb_true_r. reflexivity.
Qed.

Lemma slice_ok {X} (l : list X) start stop step :
  step <> 0 -> exists xs, Py.slice l start stop step = Ok xs.
Proof.
  intros Hstep. unfold Py.slice, Py.slice_indices.
  destruct (step =? 0) eqn:E; [lia|]. eauto.
Qed.

Lemma omap_total {X} (f : Z -> option X) (idxs : list Z) :
  (forall i, i ∈ idxs -> is_Some (f i)) ->
  Datatypes.length (omap f idxs) = Datatypes.length idxs
  /\ forall (j : nat) i, idxs !! j = Some i -> omap f idxs !! j = f i.
Proof.
  induction idxs as [|i idxs IH]; intros Hall.
  - split; [reflexivity|]. intros j i Hj. discriminate.
  - destruct (Hall i) as [x Hx]; [left|].
    destruct IH as [Hlen Hlook].
    { intros i1 Hi1. apply Hall. right. exact Hi1. }
    cbn [omap list_omap]. rewrite Hx. split; [simpl; rewrite Hlen; reflexivity|].
    intros [|j] i1 Hj; simpl in Hj.
    + injection Hj as <-. simpl. symmetry. exact Hx.
    + simpl. apply Hlook. exact Hj.
Qed.

(** [l[a:b:k]] inside the list, with a positive step: every [k]-th element
    from [a] on, [ceil((b - a) / k)] of them. *)
Lemma slice_strided {X} (l : list X) (a b k : Z) :
  0 <= a <= b -> b <= Py.len l -> 1 <= k ->
  exists w, Py.slice l (Some a) (Some b) k = Ok w
    /\ Datatypes.length w = Z.to_nat ((b - a + k - 1) / k)
    /\ forall j : nat, (j < Datatypes.length w)%nat ->
         w !! j = l !! Z.to_nat (a + k * Z.of_nat j).
Proof.
  intros Hab Hb Hk. unfold Py.slice, Py.slice_indices.
  destruct (Z.eqb_spec k 0) as [?|_]; [lia|].
  assert (Ha : Py.adjust_index (Py.len l) k a = a).
  { unfold Py.adjust_index. destruct (Z.ltb_spec a 0); [lia|].
    destruct (Z.leb_spec (Py.len l) a); [|reflexivity].
    destruct (Z.ltb_spec k 0); lia. }
  assert (Hb1 : Py.adjust_index (Py.len l) k b = b).
  { unfold Py.adjust_index. destruct (Z.ltb_spec b 0); [lia|].
    destruct (Z.leb_spec (Py.len l) b); [|reflexivity].
    destruct (Z.ltb_spec k 0); lia. }
  rewrite Ha, Hb1.
  assert (Hc : Py.progression_count a b k = (b - a + k - 1) / k).
  { unfold Py.progression_count. destruct (Z.ltb_spec 0 k); [|lia].
    destruct (Z.ltb_spec a b).
    - replace (b - a + k - 1) with (b - a - 1 + 1 * k) by lia.
      rewrite Z.div_add by lia. reflexivity.
    - replace (b - a + k - 1) with (k - 1) by lia.
      rewrite Z.div_small by lia. reflexivity. }
  rewrite Hc. set (n := Z.to_nat ((b - a + k - 1) / k)).
  assert (Hbound : forall j : nat, (j < n)%nat ->
            0 <= a + k * Z.of_nat j < b).
  { intros j Hj. subst n.
    assert (Hq : Z.of_nat j < (b - a + k - 1) / k) by lia.
    assert (Hq1 : Z.of_nat j + 1 <= (b - a + k - 1) / k) by lia.
    pose proof (Z.mul_div_le (b - a + k - 1) k ltac:(lia)) as Hm.
    nia. }
  destruct (omap_total (fun i : Z => l !! Z.to_nat i) (Py.progression a k n))
    as [Hlen Hlook].
  { intros i Hi. apply elem_of_progression in Hi as (j & Hj & ->).
    apply lookup_lt_is_Some. pose proof (Hbound j Hj). unfold Py.len in Hb.
    lia. }
  eexists. split; [reflexivity|]. rewrite Hlen, progression_length.
  split; [reflexivity|]. intros j Hj.
  apply Hlook. apply progression_lookup. exact Hj.
Qed.

(** [l[a:b:k]] with a negative step and [a <= b] is empty. *)
Lemma slice_backwards {X} (l : list X) (a b k : Z) :
  0 <= a <= b -> b <= Py.len l -> k < 0 ->
  Py.slice l (Some a) (Some b) k = Ok [].
Proof.
  intros Hab Hb Hk. unfold Py.slice, Py.slice_indices.
  destruct (Z.eqb_spec k 0) as [?|_]; [lia|].
  assert (Hcount : Py.progression_count
                     (Py.adjust_index (Py.len l) k a)
                     (Py.adjust_index (Py.len l) k b) k = 0).
  { unfold Py.progression_count, Py.adjust_index.
    destruct (Z.ltb_spec 0 k); [lia|].
    destruct (Z.ltb_spec k 0); [|lia].
    destruct (Z.ltb_spec a 0); [lia|]. destruct (Z.ltb_spec b 0); [lia|].
    destruct (Z.leb_spec (Py.len l) a), (Z.leb_spec (Py.len l) b);
      match goal with
      | |- (if ?x <? ?y then _ else _) = _ =>
          destruct (Z.ltb_spec x y); [lia|reflexivity]
      end. }
  rewrite Hcount. reflexivity.
Qed.

(** The number of elements of [l[a:b:k]], inside the list. *)
Lemma slice_window {X} (l : list X) (a b k : Z) :
  0 <= a <= b -> b <= Py.len l -> k <> 0 ->
  exists w, Py.slice l (Some a) (Some b) k = Ok w
    /\ length w = Z.to_nat (if 0 <? k then (b - a + k - 1) / k else 0).
Proof.
  intros Hab Hb Hk. destruct (Z.ltb_spec 0 k) as [Hpos|Hneg].
  - destruct (slice_strided l a b k Hab Hb ltac:(lia)) as (w & Hw & Hlen & _).
    exists w. split; assumption.
  - exists []. split; [apply slice_backwards; lia|reflexivity].
Qed.

End PyFacts.

(** ** [TimeseriesGenerator] *)

Section TimeseriesFacts.
Import TimeseriesGenerator.
Context `{RandomGen}.
Context {A B : Type}.
Local Open Scope Z_scope.

Lemma init_ok (data : list A) (targets : list B) L sr st s e sh rv bs g :
  __init__ data targets L sr st s e sh rv bs = Ok g ->
  g = mk data targets L sr st (s + L)
         (match e with None => Py.len data - 1 | Some e' => e' end) sh rv bs
  /\ Py.len data = Py.len targets
  /\ s + L <= match e with None => Py.len data - 1 | Some e' => e' end.
Proof.
  unfold __init__. destruct (Py.len data =? Py.len targets) eqn:El; simpl;
    [|discriminate].
  destruct (s + L >? _) eqn:Es; [discriminate|].
  intros [= <-]. split; [reflexivity|]. split; lia.
Qed.

(** Number of end-points of batch [b]: the stride-spaced end-points are
    numbered [0 .. K-1] and a batch takes the next [batch_size] of them. *)
Lemma batch_count (S E bs st b : Z) :
  1 <= bs -> 1 <= st -> S <= E -> 0 <= b ->
  let i := S + bs * st * b in
  Py.progression_count i (Z.min (i + bs * st) (E + 1)) st
  = Z.max 0 (Z.min bs ((E - S) / st + 1 - b * bs)).
Proof.
  intros Hbs Hst HSE Hb i. unfold Py.progression_count.
  destruct (0 <? st) eqn:E0; [|lia].
  pose proof (Z.div_mod (E - S) st ltac:(lia)) as Hdm.
  pose proof (Z.mod_pos_bound (E - S) st ltac:(lia)) as Hr.
  set (K1 := (E - S) / st) in *. set (r := (E - S) mod st) in *.
  assert (Hi : E - i = st * (K1 - b * bs) + r) by (subst i; nia).
  destruct (i <? Z.min (i + bs * st) (E + 1)) eqn:E1.
  - apply Z.ltb_lt in E1.
    assert (HK : 0 <= K1 - b * bs) by nia.
    destruct (Z.le_gt_cases (i + bs * st) (E + 1)) as [Hfull|Hpart].
    + rewrite Z.min_l by lia.
      replace (i + bs * st - i - 1) with (st * (bs - 1) + (st - 1)) by lia.
      rewrite <- (Z.div_unique (st * (bs - 1) + (st - 1)) st (bs - 1) (st - 1))
        by (try reflexivity; lia).
      assert (bs <= K1 + 1 - b * bs) by nia. lia.
    + rewrite Z.min_r by lia.
      replace (E + 1 - i - 1) with (st * (K1 - b * bs) + r) by lia.
      rewrite <- (Z.div_unique (st * (K1 - b * bs) + r) st (K1 - b * bs) r)
        by (try reflexivity; lia).
      assert (K1 + 1 - b * bs <= bs) by nia. lia.
  - apply Z.ltb_ge in E1.
    assert (Hlt : E + 1 <= i) by nia.
    assert (K1 - b * bs < 0) by nia. lia.
Qed.

Lemma len_spec (S E bs st : Z) :
  1 <= bs -> 1 <= st -> S <= E ->
  let n := (E - S + bs * st) / (bs * st) in
  1 <= n
  /\ (n - 1) * (bs * st) < E - S + 1 <= n * (bs * st)
  /\ (forall b, b < n <-> S + bs * st * b <= E)
  /\ (forall b, b < n <-> 1 <= (E - S) / st + 1 - b * bs).
Proof.
  intros Hbs Hst HSE n.
  assert (HW : 0 < bs * st) by nia.
  pose proof (Z.div_mod (E - S + bs * st) (bs * st) ltac:(lia)) as Hdm.
  pose proof (Z.mod_pos_bound (E - S + bs * st) (bs * st) HW) as Hr.
  fold n in Hdm.
  pose proof (Z.div_mod (E - S) st ltac:(lia)) as Hdm2.
  pose proof (Z.mod_pos_bound (E - S) st ltac:(lia)) as Hr2.
  split; [nia|]. split; [nia|]. split.
  - intros b. split; intros Hb; nia.
  - intros b. split; intros Hb; nia.
Qed.


Lemma rows_sequential (g : @t A B) (b : Z) (s0 : rng) :
  shuffle g = false -> 1 <= batch_size g -> 1 <= stride g ->
  start_index g <= end_index g -> 0 <= b ->
  rows g b s0
  = Ok (Py.progression (start_index g + batch_size g * stride g * b) (stride g)
          (Z.to_nat (Z.max 0 (Z.min (batch_size g)
             ((end_index g - start_index g) / stride g + 1 - b * batch_size g)))),
        s0).
Proof.
  intros Hsh Hbs Hst HSE Hb. unfold rows. rewrite Hsh. unfold lift, Py.arange.
  destruct (stride g =? 0) eqn:E0; [lia|].
  rewrite batch_count by assumption. reflexivity.
Qed.

Lemma rows_upto_spec (g : @t A B) (m : nat) (s0 : rng) :
  shuffle g = false -> 1 <= batch_size g -> 1 <= stride g ->
  start_index g <= end_index g ->
  rows_upto g m s0
  = Py.progression (start_index g) (stride g)
      (Z.to_nat (Z.min (Z.of_nat m * batch_size g)
                       ((end_index g - start_index g) / stride g + 1))).
Proof.
  intros Hsh Hbs Hst HSE.
  assert (HK : 1 <= (end_index g - start_index g) / stride g + 1).
  { pose proof (Z.div_pos (end_index g - start_index g) (stride g)). lia. }
  set (K := (end_index g - start_index g) / stride g + 1) in *.
  induction m as [|m IH].
  - simpl. rewrite Z.min_l by lia. reflexivity.
  - cbn [rows_upto]. rewrite IH.
    rewrite rows_sequential by (try assumption; lia). fold K.
    set (c := Z.max 0 (Z.min (batch_size g) (K - Z.of_nat m * batch_size g))).
    replace (Z.to_nat (Z.min (Z.of_nat (Datatypes.S m) * batch_size g) K))
      with (Z.to_nat (Z.min (Z.of_nat m * batch_size g) K) + Z.to_nat c)%nat
      by (subst c; nia).
    rewrite progression_app. f_equal.
    destruct (Z.le_gt_cases K (Z.of_nat m * batch_size g)) as [Hdone|Hmore].
    + replace (Z.to_nat c) with 0%nat by (subst c; lia). reflexivity.
    + f_equal. rewrite Z.min_l by lia. nia.
Qed.

Lemma for_rows_ok {C} (f : Z -> result C) (rs : list Z) :
  (forall r, r ∈ rs -> exists c, f r = Ok c) ->
  exists cs, for_rows f rs = Ok cs /\ Datatypes.length cs = Datatypes.length rs.
Proof.
  induction rs as [|r rs IH]; intros Hall.
  - exists []. split; reflexivity.
  - destruct (Hall r) as [c Hc]; [left|].
    destruct IH as (cs & Hcs & Hlen).
    { intros r' Hr'. apply Hall. right. exact Hr'. }
    exists (c :: cs). simpl. rewrite Hc. simpl. rewrite Hcs. simpl.
    split; [reflexivity|]. rewrite Hlen. reflexivity.
Qed.

Lemma for_rows_lookup {C} (f : Z -> result C) (rs : list Z) (cs : list C) :
  for_rows f rs = Ok cs ->
  Datatypes.length cs = Datatypes.length rs
  /\ forall k r, rs !! k = Some r ->
       exists c, cs !! k = Some c /\ f r = Ok c.
Proof.
  revert cs. induction rs as [|r rs IH]; intros cs.
  - intros [= <-]. split; [reflexivity|]. intros k r Hk. discriminate.
  - cbn [for_rows]. destruct (f r) as [c|] eqn:Hc; [|discriminate].
    unfold mbind at 1, result_bind at 1.
    destruct (for_rows f rs) as [cs1|]; [|discriminate].
    intros [= <-]. destruct (IH cs1 eq_refl) as [Hlen Hlook].
    split; [simpl; rewrite Hlen; reflexivity|].
    intros [|k] r1 Hk; simpl in Hk.
    + injection Hk as <-. exists c. split; [reflexivity|exact Hc].
    + exact (Hlook k r1 Hk).
Qed.

(** Rows of one length make an array of two dimensions. *)
Lemma uniform_lengths {X} (n : nat) (ws : list (list X)) :
  Forall (fun w => Datatypes.length w = n) ws -> uniform ws = true.
Proof.
  intros Hall. destruct Hall as [|w ws Hw Hall]; [reflexivity|].
  cbn [uniform]. apply forallb_forall. intros r Hr.
  apply Nat.eqb_eq. rewrite Hw.
  rewrite List.Forall_forall in Hall. exact (Hall r Hr).
Qed.

Lemma np_array_uniform {X} `{Numpy} (ws : list (list X)) :
  uniform ws = true -> np_array ws = Ok ws.
Proof. intros Hu. unfold np_array. rewrite Hu. reflexivity. Qed.

Lemma reverse_axis1_uniform {X} (ws : list (list X)) :
  uniform ws = true -> ws <> [] ->
  reverse_axis1 ws = Ok (@List.rev X <$> ws).
Proof.
  intros Hu Hne. unfold reverse_axis1. destruct ws as [|w ws]; [congruence|].
  rewrite Hu. reflexivity.
Qed.

Context `{np : Numpy}.

(** The windows of a batch whose end-points leave room for a whole window
    inside the data all have the same number of points. *)
Lemma windows_uniform (g : @t A B) (rs : list Z) :
  sampling_rate g <> 0 -> 0 <= length g ->
  (forall r, r ∈ rs -> length g <= r <= Py.len (data g)) ->
  exists ws,
    for_rows (fun row => Py.slice (data g) (Some (row - length g)) (Some row)
                                  (sampling_rate g)) rs = Ok ws
    /\ Datatypes.length ws = Datatypes.length rs
    /\ Forall (fun w => Datatypes.length w
                 = Z.to_nat (if 0 <? sampling_rate g
                             then (length g + sampling_rate g - 1)
                                  / sampling_rate g
                             else 0)) ws.
Proof.
  intros Hsr HL Hin.
  destruct (for_rows_ok
    (fun row => Py.slice (data g) (Some (row - length g)) (Some row)
                         (sampling_rate g)) rs) as (ws & Hws & Hlen).
  { intros r _. apply slice_ok. exact Hsr. }
  exists ws. split; [exact Hws|]. split; [exact Hlen|].
  apply for_rows_lookup in Hws as [_ Hlook].
  apply Forall_lookup. intros k w Hk.
  destruct (lookup_lt_is_Some_2 rs k) as [r Hr].
  { rewrite <- Hlen. apply lookup_lt_Some in Hk. exact Hk. }
  destruct (Hlook k r Hr) as (w1 & Hw1 & Hslice).
  assert (w1 = w) by congruence. subst w1.
  specialize (Hin r ltac:(apply list_elem_of_lookup; exists k; exact Hr)).
  destruct (slice_window (data g) (r - length g) r (sampling_rate g)
              ltac:(lia) ltac:(lia) Hsr) as (w2 & Hw2 & Hl2).
  assert (w2 = w) by congruence. subst w2. rewrite Hl2.
  replace (r - (r - length g) + sampling_rate g - 1)
    with (length g + sampling_rate g - 1) by lia.
  reflexivity.
Qed.

(** A batch of windows that all lie inside the data: [__getitem__] returns
    one sample and one target per end-point; with [reverse] the batch must
    not be empty. *)
Lemma getitem_batch (g : @t A B) (b : Z) (s0 s1 : rng) (rs : list Z) :
  rows g b s0 = Ok (rs, s1) ->
  sampling_rate g <> 0 -> 0 <= length g ->
  (forall r, r ∈ rs -> length g <= r < Py.len (data g)) ->
  Py.len (targets g) = Py.len (data g) ->
  (reverse g = true -> rs <> []) ->
  exists samples tgts,
    __getitem__ g b s0 = Ok ((samples, tgts), s1)
    /\ Datatypes.length samples = Datatypes.length rs
    /\ Datatypes.length tgts = Datatypes.length rs.
Proof.
  intros Hrows Hsr HL Hin Htg Hrev. unfold __getitem__, mbind, M_bind.
  rewrite Hrows.
  destruct (windows_uniform g rs Hsr HL) as (ws & Hws & Lws & Hall).
  { intros r Hr. specialize (Hin r Hr). lia. }
  destruct (for_rows_ok (fun row => Py.getitem (targets g) row) rs)
    as (tgts & Ht & Lt).
  { intros r Hr. apply getitem_total. specialize (Hin r Hr). lia. }
  pose proof (uniform_lengths _ ws Hall) as Hu.
  unfold lift. rewrite Hws, (np_array_uniform ws Hu), Ht.
  destruct (reverse g) eqn:Erev.
  - rewrite reverse_axis1_uniform.
    + exists (@List.rev A <$> ws), tgts. rewrite length_fmap. auto.
    + exact Hu.
    + intros ->. destruct rs; [exact (Hrev eq_refl eq_refl)|discriminate].
  - exists ws, tgts. auto.
Qed.

(** A batch without end-points is a batch without samples, which cannot be
    reversed along the axis of the window. *)
Lemma getitem_no_rows (g : @t A B) (b : Z) (s0 s1 : rng) :
  rows g b s0 = Ok ([], s1) ->
  (reverse g = false -> __getitem__ g b s0 = Ok (([], []), s1))
  /\ (reverse g = true ->
      exists msg, __getitem__ g b s0 = Err (IndexError msg)).
Proof.
  intros Hrows. unfold __getitem__, mbind, M_bind. rewrite Hrows.
  unfold lift. cbn [for_rows np_array uniform reverse_axis1].
  split; intros ->; [reflexivity|]. eexists. reflexivity.
Qed.

(** The batch count and the end-points, for every validly constructed
    generator: no bound on [end_index] or [sampling_rate] is needed as long
    as only the end-points are looked at. *)
Lemma batch_rows_enumeration (data : list A) (targets : list B)
    (L sr st s : Z) (e : option Z) (rv : bool) (bs : Z) (g : t) (s0 : rng) :
  __init__ data targets L sr st s e false rv bs = Ok g ->
  1 <= bs -> 1 <= st ->
  let n := (end_index g - s - L + bs * st) / (bs * st) in
  __len__ g = Ok n
  /\ 1 <= n
  /\ (n - 1) * (bs * st) < end_index g - start_index g + 1 <= n * (bs * st)
  /\ (forall b, 0 <= b < n ->
        exists rs, rows g b s0 = Ok (rs, s0) /\ rs <> []
                   /\ (forall r, r ∈ rs -> start_index g <= r <= end_index g))
  /\ (forall b, n <= b -> rows g b s0 = Ok ([], s0))
  /\ rows_upto g (Z.to_nat n) s0
     = Py.progression (start_index g) st
         (Z.to_nat ((end_index g - start_index g) / st + 1))
  /\ NoDup (rows_upto g (Z.to_nat n) s0)
  /\ (forall x, x ∈ rows_upto g (Z.to_nat n) s0
        <-> start_index g <= x <= end_index g
            /\ (x - start_index g) `mod` st = 0).
Proof.
  intros Hinit Hbs Hst n. apply init_ok in Hinit as (-> & Hlen & HSE).
  cbn [end_index start_index] in *.
  set (E := match e with None => Py.len data - 1 | Some e' => e' end) in *.
  set (g := mk data targets L sr st (s + L) E false rv bs).
  assert (Hn : n = (E - (s + L) + bs * st) / (bs * st)) by (subst n; f_equal; lia).
  destruct (len_spec (s + L) E bs st Hbs Hst HSE) as (Hn1 & Hceil & Hlt & HltK).
  rewrite <- Hn in Hn1, Hceil, Hlt, HltK.
  pose proof (Z.div_mod (E - (s + L)) st ltac:(lia)) as Hdm.
  pose proof (Z.mod_pos_bound (E - (s + L)) st ltac:(lia)) as Hr.
  assert (Hupto : rows_upto g (Z.to_nat n) s0
     = Py.progression (s + L) st (Z.to_nat ((E - (s + L)) / st + 1))).
  { rewrite rows_upto_spec by (simpl; (assumption || reflexivity)). simpl.
    f_equal. f_equal. rewrite Z2Nat.id by lia.
    apply Z.min_r. pose proof (proj1 (HltK (n - 1)) ltac:(lia)). nia. }
  split.
  { unfold __len__. simpl. destruct (bs * st =? 0) eqn:E0; [nia|].
    rewrite Hn. reflexivity. }
  split; [exact Hn1|]. split; [exact Hceil|]. split.
  { intros b [Hb0 Hbn].
    rewrite (rows_sequential g b s0) by (simpl; (assumption || reflexivity)).
    simpl. eexists. split; [reflexivity|].
    pose proof (proj1 (HltK b) Hbn) as HK.
    split.
    - intros Hnil. apply (f_equal Datatypes.length) in Hnil.
      rewrite progression_length in Hnil. simpl in Hnil. lia.
    - intros r Hr'. apply elem_of_progression in Hr' as (k & Hk & ->).
      assert (Z.of_nat k < bs) by lia.
      assert (Z.of_nat k < (E - (s + L)) / st + 1 - b * bs) by lia.
      nia. }
  split.
  { intros b Hb.
    rewrite (rows_sequential g b s0) by (simpl; (assumption || reflexivity || lia)).
    simpl. assert (~ b < n) as Hnb by lia. rewrite HltK in Hnb.
    replace (Z.to_nat _) with 0%nat by lia. reflexivity. }
  split; [exact Hupto|]. split.
  { rewrite Hupto. apply NoDup_progression. lia. }
  intros x. rewrite Hupto, elem_of_progression. split.
  - intros (k & Hk & ->).
    assert (Z.of_nat k <= (E - (s + L)) / st) by lia.
    split; [nia|].
    replace (s + L + st * Z.of_nat k - (s + L)) with (Z.of_nat k * st) by lia.
    apply Z.mod_mul. lia.
  - intros ([Hx1 Hx2] & Hmod).
    pose proof (Z.div_mod (x - (s + L)) st ltac:(lia)) as Hx.
    rewrite Hmod in Hx.
    assert (0 <= (x - (s + L)) / st) by (apply Z.div_pos; lia).
    exists (Z.to_nat ((x - (s + L)) / st)). rewrite Z2Nat.id by lia.
    split; [|lia].
    assert ((x - (s + L)) / st <= (E - (s + L)) / st)
      by (apply Z.div_le_mono; lia).
    lia.
Qed.

(** C8, amended.  For a generator constructed without shuffling from data and
    targets of equal length, with [start_index + length <= end_index],
    [batch_size >= 1] and [stride >= 1], and moreover [start_index >= 0],
    [length >= 0], [end_index < len(data)] (every window lies inside the
    data and every end-point indexes [targets]) and [sampling_rate <> 0]:
    [len] is [(end_index - start_index - length + batch_size*stride) //
     (batch_size*stride)], the ceiling of
    [(usable_range + 1) / (batch_size*stride)]; every batch index below it
    yields a non-empty batch; every index from it on has no end-point and
    yields an empty batch, or, with [reverse], raises [IndexError]; and
    the batches together enumerate each stride-spaced end-point of
    [[start, end]] exactly once. *)
Theorem C8_batch_count_matches_batches (data : list A) (targets : list B)
    (L sr st s : Z) (e : option Z) (rv : bool) (bs : Z) (g : t) (s0 : rng) :
  __init__ data targets L sr st s e false rv bs = Ok g ->
  1 <= bs -> 1 <= st ->
  0 <= s -> 0 <= L -> end_index g < Py.len data -> sr <> 0 ->
  let n := (end_index g - s - L + bs * st) / (bs * st) in
  __len__ g = Ok n
  /\ (n - 1) * (bs * st) < end_index g - start_index g + 1 <= n * (bs * st)
  /\ (forall b, 0 <= b < n ->
        exists samples tgts rs,
          __getitem__ g b s0 = Ok ((samples, tgts), s0)
          /\ rows g b s0 = Ok (rs, s0)
          /\ tgts <> [] /\ samples <> []
          /\ Datatypes.length samples = Datatypes.length rs
          /\ Datatypes.length tgts = Datatypes.length rs)
  /\ (forall b, n <= b ->
        rows g b s0 = Ok ([], s0)
        /\ (rv = false -> __getitem__ g b s0 = Ok (([], []), s0))
        /\ (rv = true ->
            exists msg, __getitem__ g b s0 = Err (IndexError msg)))
  /\ rows_upto g (Z.to_nat n) s0
     = Py.progression (start_index g) st
         (Z.to_nat ((end_index g - start_index g) / st + 1))
  /\ NoDup (rows_upto g (Z.to_nat n) s0)
  /\ (forall x, x ∈ rows_upto g (Z.to_nat n) s0
        <-> start_index g <= x <= end_index g
            /\ (x - start_index g) `mod` st = 0).
Proof.
  intros Hinit Hbs Hst Hs0 HL Hend Hsr n.
  destruct (batch_rows_enumeration data targets L sr st s e rv bs g s0
              Hinit Hbs Hst)
    as (Hlen & Hn1 & Hceil & Hrows & Hempty & Hupto & Hnd & Hmem).
  fold n in Hlen, Hn1, Hceil, Hrows, Hempty, Hupto, Hnd, Hmem.
  apply init_ok in Hinit as (Hg & Hlendt & HSE).
  assert (Hsrg : sampling_rate g <> 0) by (subst g; exact Hsr).
  assert (HLg : length g = L) by (subst g; reflexivity).
  assert (Hstart : start_index g = s + L) by (subst g; reflexivity).
  assert (Hdg : TimeseriesGenerator.data g = data) by (subst g; reflexivity).
  assert (Hrg : reverse g = rv) by (subst g; reflexivity).
  assert (Htg : Py.len (TimeseriesGenerator.targets g)
                = Py.len (TimeseriesGenerator.data g))
    by (subst g; simpl; lia).
  split; [exact Hlen|]. split; [exact Hceil|]. split.
  { intros b Hb. destruct (Hrows b Hb) as (rs & Hrs & Hne & Hin).
    destruct (getitem_batch g b s0 s0 rs Hrs Hsrg ltac:(lia))
      as (samples & tgts & Hget & Ls & Lt).
    { intros r Hr. specialize (Hin r Hr). rewrite Hdg. lia. }
    { exact Htg. }
    { intros _. exact Hne. }
    exists samples, tgts, rs. split; [exact Hget|]. split; [exact Hrs|].
    repeat split; try assumption.
    - intros ->. destruct rs; [congruence|discriminate].
    - intros ->. destruct rs; [congruence|discriminate]. }
  split.
  { intros b Hb. split; [exact (Hempty b Hb)|].
    destruct (getitem_no_rows g b s0 s0 (Hempty b Hb)) as [Hf Ht].
    rewrite Hrg in Hf, Ht. split; assumption. }
  split; [exact Hupto|]. split; [exact Hnd|exact Hmem].
Qed.
End TimeseriesFacts.

(** C8 on five data points, two end-points per batch: two batches, the
    second of them not empty. *)
Lemma C8_batch_count_matches_batches_witness :
  TimeseriesGenerator.__len__ example_generator
    = Ok ((4 - 0 - 1 + 2 * 1) / (2 * 1))%Z
  /\ (exists samples tgts rs,
        TimeseriesGenerator.__getitem__ (H := LCG.gen) (np := numpy_strict)
                                        example_generator 1 0%Z
          = Ok ((samples, tgts), 0%Z)
        /\ TimeseriesGenerator.rows (H := LCG.gen) example_generator 1 0%Z
           = Ok (rs, 0%Z)
        /\ tgts <> [] /\ samples <> []
        /\ length samples = length rs /\ length tgts = length rs).
Proof.
  destruct (C8_batch_count_matches_batches (H := LCG.gen)
    (np := numpy_strict)
    [10; 20; 30; 40; 50]%Z [1; 2; 3; 4; 5]%Z 1 1 1 0 None false 2
    example_generator 0%Z
    ltac:(vm_compute; reflexivity) ltac:(lia) ltac:(lia) ltac:(lia)
    ltac:(lia) ltac:(vm_compute; reflexivity) ltac:(lia))
    as (Hlen & _ & Hbatch & _).
  split; [exact Hlen|]. apply Hbatch. vm_compute.
  split; [discriminate|reflexivity].
Defined.

(** [end_index] beyond the data ([data] of length 3, [end_index = 5],
    [length = 1], [batch_size = 2], [stride = 1]): the constructor accepts
    it, the count is 3, and batch 1, whose end-points are [3; 4], raises
    [IndexError] on [targets[3]] (whatever numpy does with ragged rows: the
    windows of this batch are [data[2:3]] and [data[3:4]], and the error is
    the same with [numpy_strict], where [np.array] raises first). *)
Lemma C8_counterexample :
  ~ (forall (data targets : list Z) (L sr st s : Z) (e : option Z) (rv : bool)
            (bs : Z) (g : TimeseriesGenerator.t) (n b : Z),
       TimeseriesGenerator.__init__ data targets L sr st s e false rv bs = Ok g ->
       1 <= bs -> 1 <= st ->
       TimeseriesGenerator.__len__ g = Ok n -> 0 <= b < n ->
       exists samples tgts,
         TimeseriesGenerator.__getitem__ (H := LCG.gen) (np := numpy_legacy)
                                         g b 0
           = Ok ((samples, tgts), 0)
         /\ tgts <> [])%Z.
Proof.
  intros Hall.
  destruct (Hall [10; 20; 30]%Z [1; 2; 3]%Z 1 1 1 0 (Some 5) false 2
              (TimeseriesGenerator.mk [10; 20; 30] [1; 2; 3] 1 1 1 1 5
                                      false false 2) 3 1)%Z
    as (samples & tgts & Hget & _).
  - vm_compute. reflexivity.
  - lia.
  - lia.
  - vm_compute. reflexivity.
  - lia.
  - vm_compute in Hget. discriminate.
Qed.

Section ConfigFacts.
Import TimeseriesGenerator.
Context {A B : Type}.
Context (dumps_data : list A -> option string).
Context (dumps_targets : list B -> option string).
Local Open Scope Z_scope.

(** C10.  For a generator constructed with [start_index = s] and
    [length = L], [get_config] reports ['start_index'] as [s + L]; passing
    the reported values back to the constructor therefore yields a generator
    whose first end-point is shifted by a further [L]. *)
Theorem C10_get_config_reports_shifted_start
    (data : list A) (targets : list B) (L sr st s : Z) (e : option Z)
    (sh rv : bool) (bs : Z) (g : t) (cfg : gmap string config_value) :
  __init__ data targets L sr st s e sh rv bs = Ok g ->
  get_config dumps_data dumps_targets g = Ok cfg ->
  cfg !! "start_index" = Some (CInt (s + L))
  /\ cfg !! "length" = Some (CInt L)
  /\ reconstruct data targets cfg
     = Some (__init__ data targets L sr st (s + L) (Some (end_index g))
                      sh rv bs)
  /\ (forall g2, reconstruct data targets cfg = Some (Ok g2) ->
        start_index g2 = start_index g + L /\ start_index g2 = s + L + L).
Proof.
  intros Hinit Hcfg. apply init_ok in Hinit as (-> & Hlen & Hle).
  unfold get_config in Hcfg. simpl in Hcfg.
  destruct (dumps_data data) as [jd|]; [|discriminate].
  destruct (dumps_targets targets) as [jt|]; [|discriminate].
  injection Hcfg as <-.
  assert (Hrec : reconstruct data targets
            (<["data":=CStr jd]> (<["targets":=CStr jt]> (<["length":=CInt L]>
             (<["sampling_rate":=CInt sr]> (<["stride":=CInt st]>
             (<["start_index":=CInt (s + L)]>
             (<["end_index":=CInt match e with None => Py.len data - 1 | Some e' => e' end]>
             (<["shuffle":=CBool sh]> (<["reverse":=CBool rv]>
             (<["batch_size":=CInt bs]> ∅))))))))))
          = Some (__init__ data targets L sr st (s + L)
                    (Some match e with None => Py.len data - 1 | Some e' => e' end)
                    sh rv bs)).
  { unfold reconstruct. by simplify_map_eq. }
  split; [by simplify_map_eq|]. split; [by simplify_map_eq|].
  split; [exact Hrec|].
  intros g2 Hg2. rewrite Hrec in Hg2. injection Hg2 as Hg2.
  apply init_ok in Hg2 as (-> & _). simpl. split; reflexivity.
Qed.

End ConfigFacts.

(** C10 on five data points: constructed with [start_index = 0] and
    [length = 2], the configuration says [2]. *)
Lemma C10_get_config_reports_shifted_start_witness :
  example_config !! "start_index" = Some (TimeseriesGenerator.CInt (0 + 2)).
Proof.
  refine (proj1 (C10_get_config_reports_shifted_start dumps_stub dumps_stub
     [10; 20; 30; 40; 50]%Z [1; 2; 3; 4; 5]%Z 2 1 1 0 None false false 1
     (TimeseriesGenerator.mk [10; 20; 30; 40; 50]%Z [1; 2; 3; 4; 5]%Z
        2 1 1 2 4 false false 1)
     example_config _ _)).
  - vm_compute. reflexivity.
  - vm_compute. reflexivity.
Defined.

(** The example of the class docstring: 50 data points, [length = 10],
    [sampling_rate = 2], [batch_size = 2]. *)
Example timeseries_docstring :
  exists g,
    TimeseriesGenerator.__init__ (Py.range 0 50) (Py.range 0 50) 10 2 1 0 None
                                 false false 2 = Ok g
    /\ TimeseriesGenerator.__len__ g = Ok 20%Z
    /\ TimeseriesGenerator.__getitem__ (H := LCG.gen) (np := numpy_strict)
                                       g 0 0%Z
       = Ok (([[0; 2; 4; 6; 8]; [1; 3; 5; 7; 9]]%Z, [10; 11]%Z), 0%Z).
Proof.
  eexists. split; [vm_compute; reflexivity|].
  split; vm_compute; reflexivity.
Qed.

(** A zero [sampling_rate] passes the constructor and makes every batch
    raise ("slice step cannot be zero"). *)
Example timeseries_zero_sampling_rate :
  exists g,
    TimeseriesGenerator.__init__ [10; 20; 30]%Z [1; 2; 3]%Z 1 0 1 0 None
                                 false false 2 = Ok g
    /\ TimeseriesGenerator.__len__ g = Ok 1%Z
    /\ TimeseriesGenerator.__getitem__ (H := LCG.gen) (np := numpy_strict)
                                       g 0 0%Z
       = Err (ValueError "slice step cannot be zero").
Proof.
  eexists. split; [vm_compute; reflexivity|].
  split; vm_compute; reflexivity.
Qed.

(** Past the last batch there is no end-point: the batch is empty, and a
    reversing generator raises when it indexes the second axis of an array
    that has only one. *)
Example timeseries_reverse_past_end :
  let g rv := TimeseriesGenerator.mk [10; 20; 30; 40; 50]%Z [1; 2; 3; 4; 5]%Z
                                     1 1 1 1 4 false rv 2 in
  TimeseriesGenerator.__len__ (g true) = Ok 2%Z
  /\ TimeseriesGenerator.__getitem__ (H := LCG.gen) (np := numpy_strict)
                                     (g false) 2 0%Z
     = Ok (([], []), 0%Z)
  /\ TimeseriesGenerator.__getitem__ (H := LCG.gen) (np := numpy_strict)
                                     (g true) 2 0%Z
     = Err (IndexError "too many indices for array").
Proof. repeat split; vm_compute; reflexivity. Qed.

(** A negative [start_index] makes the first window wrap around: the
    windows [data[-1:1]] and [data[0:2]] have zero and two points.  What
    comes of such ragged rows depends on numpy; reversing them fails in any
    case. *)
Example timeseries_ragged_windows :
  let g rv := TimeseriesGenerator.mk [10; 20; 30; 40; 50]%Z [1; 2; 3; 4; 5]%Z
                                     2 1 1 1 4 false rv 2 in
  TimeseriesGenerator.__getitem__ (H := LCG.gen) (np := numpy_legacy)
                                  (g false) 0 0%Z
    = Ok (([[]; [10; 20]]%Z, [2; 3]%Z), 0%Z)
  /\ is_value_error
       (TimeseriesGenerator.__getitem__ (H := LCG.gen) (np := numpy_strict)
                                        (g false) 0 0%Z) = true
  /\ is_ok (TimeseriesGenerator.__getitem__ (H := LCG.gen)
              (np := numpy_legacy) (g true) 0 0%Z) = false
  /\ is_ok (TimeseriesGenerator.__getitem__ (H := LCG.gen)
              (np := numpy_strict) (g true) 0 0%Z) = false.
Proof. repeat split; vm_compute; reflexivity. Qed.

(** ** [pad_sequences] *)

Section PadFacts.
Import Pad.
Local Open Scope Z_scope.

(** C7.  The worked examples: [[[1], [2, 3], [4, 5, 6]]] padded with the
    defaults, with [value = -1], with [padding = 'post'] and with
    [maxlen = 2] (truncation keeps the last two elements of [[4, 5, 6]]). *)
Theorem C7_pad_sequences_examples :
  let sequence := [[1]; [2; 3]; [4; 5; 6]] in
  pad_sequences sequence None "pre" "pre" 0
    = Ok [[0; 0; 1]; [0; 2; 3]; [4; 5; 6]]
  /\ pad_sequences sequence None "pre" "pre" (-1)
    = Ok [[-1; -1; 1]; [-1; 2; 3]; [4; 5; 6]]
  /\ pad_sequences sequence None "post" "pre" 0
    = Ok [[1; 0; 0]; [2; 3; 0]; [4; 5; 6]]
  /\ pad_sequences sequence (Some 2) "pre" "pre" 0
    = Ok [[0; 1]; [2; 3]; [5; 6]]
  /\ Py.slice [4; 5; 6] (Some (-2)) None 1 = Ok [5; 6].
Proof. repeat split; vm_compute; reflexivity. Qed.

End PadFacts.

(** ** [make_sampling_table] *)

Section SamplingTableFacts.
Import SamplingTable.
Local Open Scope R_scope.

Lemma ranks_spec (size : Z) :
  (1 <= size)%Z ->
  exists rs, ranks size = Ok rs
    /\ length rs = Z.to_nat size
    /\ forall r : Z, (0 <= r < size)%Z -> rs !! Z.to_nat r = Some (Z.max 1 r).
Proof.
  intros Hsize. unfold ranks, Py.range.
  replace (Z.to_nat (size - 0)) with (S (Z.to_nat (size - 1))) by lia.
  unfold Py.progression. cbn [seq]. rewrite fmap_cons.
  eexists. split; [reflexivity|]. split.
  - cbn [length]. rewrite length_fmap, length_seq. lia.
  - intros r Hr. destruct (Z.eq_dec r 0%Z) as [->|Hr0]; [reflexivity|].
    replace (Z.to_nat r) with (S (Z.to_nat (r - 1))) by lia.
    rewrite lookup_cons_ne_0 by lia. cbn [Nat.pred]. rewrite list_lookup_fmap.
    rewrite lookup_seq_lt by lia. simpl. f_equal. lia.
Qed.

Lemma inv_fq_pos (r : Z) : (1 <= r)%Z -> 9 / 10 < inv_fq r.
Proof.
  intros Hr. unfold inv_fq, gamma.
  assert (H1 : 1 <= IZR r) by (apply IZR_le in Hr; exact Hr).
  assert (Hln : 0 <= ln (IZR r)).
  { rewrite <- ln_1. destruct H1 as [H1|<-]; [left; apply ln_increasing; lra|right; reflexivity]. }
  assert (Hprod : 577 / 1000 <= IZR r * (ln (IZR r) + 577 / 1000)) by nra.
  assert (Hinv : 1 / (12 * IZR r) <= 1 / 12).
  { unfold Rdiv. rewrite !Rmult_1_l. apply Rinv_le_contravar; lra. }
  lra.
Qed.

Lemma inv_fq_mono (a b : Z) : (1 <= a <= b)%Z -> inv_fq a <= inv_fq b.
Proof.
  intros [Ha Hab]. unfold inv_fq, gamma.
  assert (H1 : 1 <= IZR a) by (apply IZR_le in Ha; exact Ha).
  assert (H2 : IZR a <= IZR b) by (apply IZR_le; exact Hab).
  assert (Hlna : 0 <= ln (IZR a)).
  { rewrite <- ln_1. destruct H1 as [H1|<-]; [left; apply ln_increasing; lra|right; reflexivity]. }
  assert (Hln : ln (IZR a) <= ln (IZR b)).
  { destruct H2 as [H2|<-]; [left; apply ln_increasing; lra|right; reflexivity]. }
  assert (Hprod : IZR a * (ln (IZR a) + 577 / 1000)
                  <= IZR b * (ln (IZR b) + 577 / 1000)).
  { apply Rmult_le_compat; lra. }
  assert (Hinv : 1 / (12 * IZR b) <= 1 / (12 * IZR a)).
  { unfold Rdiv. rewrite !Rmult_1_l. apply Rinv_le_contravar; lra. }
  lra.
Qed.

Lemma probability_sqrt (factor : R) (r : Z) :
  0 < factor -> (1 <= r)%Z ->
  probability factor r = Rmin 1 (sqrt (factor * inv_fq r)).
Proof.
  intros Hf Hr. unfold probability. f_equal.
  pose proof (inv_fq_pos r Hr) as Hpos.
  assert (Hx : 0 < factor * inv_fq r) by nra.
  pose proof (sqrt_lt_R0 _ Hx) as Hs.
  rewrite <- (sqrt_def (factor * inv_fq r)) at 1 by lra.
  field. lra.
Qed.

Lemma probability_mono (factor : R) (a b : Z) :
  0 < factor -> (1 <= a <= b)%Z ->
  probability factor a <= probability factor b.
Proof.
  intros Hf Hab. rewrite !probability_sqrt by (try assumption; lia).
  apply Rle_min_compat_l. apply sqrt_le_1_alt.
  pose proof (inv_fq_mono a b Hab). nra.
Qed.

(** C9.  For [size >= 2] and [sampling_factor > 0] the table has [size]
    entries; entry [r] is [min(1, (factor*f) / sqrt(factor*f))] with
    [f = rank*(ln rank + 0.577) + 0.5 - 1/(12*rank)] and [rank = max 1 r]
    (rank 0 is treated as rank 1); and a more frequent rank (a smaller [r])
    never gets a larger probability than a rarer one. *)
Theorem C9_sampling_table (size : Z) (factor : R) :
  (2 <= size)%Z -> 0 < factor ->
  exists table,
    make_sampling_table size factor = Ok table
    /\ length table = Z.to_nat size
    /\ (forall r : Z, (0 <= r < size)%Z ->
          let rank := Z.max 1 r in
          let f := IZR rank * (ln (IZR rank) + 577 / 1000) + 5 / 10
                   - 1 / (12 * IZR rank) in
          table !! Z.to_nat r
            = Some (Rmin 1 ((factor * f) / sqrt (factor * f))))
    /\ (forall (r1 r2 : Z) (p1 p2 : R),
          (0 <= r1 <= r2)%Z ->
          table !! Z.to_nat r1 = Some p1 -> table !! Z.to_nat r2 = Some p2 ->
          p1 <= p2).
Proof.
  intros Hsize Hf.
  destruct (ranks_spec size ltac:(lia)) as (rs & Hrs & Hlen & Hlook).
  unfold make_sampling_table. rewrite Hrs.
  eexists. split; [reflexivity|].
  assert (Hentry : forall r : Z, (0 <= r < size)%Z ->
            map (probability factor) rs !! Z.to_nat r
            = Some (probability factor (Z.max 1 r))).
  { intros r Hr. change (map (probability factor) rs)
      with (probability factor <$> rs).
    rewrite list_lookup_fmap, (Hlook r Hr). reflexivity. }
  split; [rewrite length_map; exact Hlen|]. split.
  - intros r Hr. rewrite (Hentry r Hr). reflexivity.
  - intros r1 r2 p1 p2 H12 H1 H2.
    assert (Hr2 : (r2 < size)%Z).
    { apply lookup_lt_Some in H2. rewrite length_map, Hlen in H2. lia. }
    rewrite Hentry in H1 by lia. rewrite Hentry in H2 by lia.
    injection H1 as <-. injection H2 as <-.
    apply probability_mono; [exact Hf|lia].
Qed.

(** C9 at [size = 2] and the default factor [1e-5]. *)
Lemma C9_sampling_table_witness :
  exists table, make_sampling_table 2 (1 / 100000) = Ok table
                /\ length table = Z.to_nat 2.
Proof.
  destruct (C9_sampling_table 2 (1 / 100000)) as (table & Ht & Hl & _).
  - lia.
  - lra.
  - exists table. split; assumption.
Defined.

End SamplingTableFacts.

(** ** Reasoning about [M] *)

Section MonadFacts.
Context `{RandomGen}.

Lemma returns_ret {A} (a : A) s (P : A -> rng -> Prop) :
  P a s -> returns (mret a) s P.
Proof. intros HP. exists a, s. split; [reflexivity|exact HP]. Qed.

Lemma returns_bind {A B} (m : M A) (f : A -> M B) s (Q : B -> rng -> Prop) :
  returns m s (fun a s1 => returns (f a) s1 Q) -> returns (m ≫= f) s Q.
Proof.
  intros (a & s1 & Hm & b & s2 & Hf & HQ). exists b, s2.
  split; [|exact HQ]. unfold mbind, M_bind. rewrite Hm. exact Hf.
Qed.

Lemma returns_lift {A} (r : result A) (a : A) s (P : A -> rng -> Prop) :
  r = Ok a -> P a s -> returns (lift r) s P.
Proof. intros -> HP. exists a, s. split; [reflexivity|exact HP]. Qed.

Lemma returns_mono {A} (m : M A) s (P Q : A -> rng -> Prop) :
  returns m s P -> (forall a s1, P a s1 -> Q a s1) -> returns m s Q.
Proof. intros (a & s1 & Hm & HP) HPQ. exists a, s1. split; auto. Qed.

Lemma returns_inv {A} (m : M A) s (P : A -> rng -> Prop) a s1 :
  returns m s P -> m s = Ok (a, s1) -> P a s1.
Proof. intros (a' & s' & Hm & HP) E. rewrite E in Hm. injection Hm as <- <-. exact HP. Qed.

Lemma bind_Ok {A B} (m : M A) (f : A -> M B) s a s1 :
  m s = Ok (a, s1) -> (m ≫= f) s = f a s1.
Proof. intros E. unfold mbind, M_bind. rewrite E. reflexivity. Qed.

Lemma bind_inv {A B} (m : M A) (f : A -> M B) s b s2 :
  (m ≫= f) s = Ok (b, s2) ->
  exists a s1, m s = Ok (a, s1) /\ f a s1 = Ok (b, s2).
Proof.
  unfold mbind, M_bind. destruct (m s) as [[a s1]|e]; [|discriminate].
  intros E. exists a, s1. split; [reflexivity|exact E].
Qed.

End MonadFacts.

(** ** [random.shuffle] *)

Section ShuffleFacts.
Context `{RandomGen}.
Import Random.

Lemma insert_head_Permutation {A} (l : list A) k y a :
  l !! k = Some y -> y :: <[k := a]> l ≡ₚ a :: l.
Proof.
  revert k. induction l as [|b l IH]; intros [|k] Hk; simpl in *; try discriminate.
  - injection Hk as ->. apply Permutation_swap.
  - rewrite (Permutation_swap b y). rewrite (IH k Hk). apply Permutation_swap.
Qed.

Lemma swap_Permutation {A} (x : list A) i j xi xj :
  x !! i = Some xi -> x !! j = Some xj -> <[j := xi]> (<[i := xj]> x) ≡ₚ x.
Proof.
  revert i j. induction x as [|a x IH]; intros [|i] [|j] Hi Hj; simpl in *;
    try discriminate.
  - injection Hi as ->. reflexivity.
  - injection Hi as ->. apply insert_head_Permutation. exact Hj.
  - injection Hj as ->. apply insert_head_Permutation. exact Hi.
  - rewrite (IH i j Hi Hj). reflexivity.
Qed.

Lemma swap_ok {A} (x : list A) i j :
  (i < length x)%nat -> (j < length x)%nat ->
  exists x1, swap x i j = Ok x1 /\ x1 ≡ₚ x.
Proof.
  intros Hi Hj. unfold swap.
  destruct (lookup_lt_is_Some_2 x i Hi) as [xi Exi].
  destruct (lookup_lt_is_Some_2 x j Hj) as [xj Exj].
  rewrite Exi, Exj. eexists. split; [reflexivity|].
  apply swap_Permutation; assumption.
Qed.

Lemma swap_fmap {A B} (f : A -> B) (x : list A) i j :
  swap (f <$> x) i j
  = match swap x i j with Ok x1 => Ok (f <$> x1) | Err e => Err e end.
Proof.
  unfold swap. rewrite !list_lookup_fmap.
  destruct (x !! j) as [xj|]; simpl; [|reflexivity].
  destruct (x !! i) as [xi|]; simpl; [|reflexivity].
  rewrite !list_fmap_insert. reflexivity.
Qed.

Lemma shuffle_loop_ok {A} (i : nat) (x : list A) s :
  (i < length x)%nat \/ i = 0%nat ->
  returns (shuffle_loop i x) s (fun x1 _ => x1 ≡ₚ x).
Proof.
  revert x s. induction i as [|i IH]; intros x s Hi.
  - apply returns_ret. reflexivity.
  - destruct Hi as [Hi|Hi]; [|discriminate].
    cbn [shuffle_loop]. apply returns_bind.
    pose proof (rng_randbelow_range (Z.of_nat (S i) + 1) s ltac:(lia)) as Hj.
    exists (rng_randbelow (Z.of_nat (S i) + 1) s).1,
           (rng_randbelow (Z.of_nat (S i) + 1) s).2.
    split; [unfold randbelow; destruct (rng_randbelow _ s); reflexivity|].
    destruct (swap_ok x (S i) (Z.to_nat (rng_randbelow (Z.of_nat (S i) + 1) s).1))
      as (x1 & Hsw & Hperm); [lia|lia|].
    apply returns_bind. eapply returns_lift; [exact Hsw|].
    eapply returns_mono.
    + apply IH. left. rewrite (Permutation_length Hperm). lia.
    + intros x2 s2 Hx2. simpl in Hx2. rewrite Hx2. exact Hperm.
Qed.

Lemma shuffle_ok {A} (x : list A) s :
  returns (shuffle x) s (fun x1 _ => x1 ≡ₚ x).
Proof. unfold shuffle. apply shuffle_loop_ok. destruct x; simpl; lia. Qed.

(** The permutation applied by a shuffle depends on the generator state and
    on the length of the list only: shuffling commutes with [fmap]. *)
Lemma shuffle_loop_fmap {A B} (f : A -> B) (i : nat) (x : list A) s :
  shuffle_loop i (f <$> x) s
  = match shuffle_loop i x s with
    | Ok (x1, s1) => Ok (f <$> x1, s1)
    | Err e => Err e
    end.
Proof.
  revert x s. induction i as [|i IH]; intros x s; [reflexivity|].
  cbn [shuffle_loop]. unfold mbind, M_bind, randbelow.
  destruct (rng_randbelow (Z.of_nat (S i) + 1) s) as [j s1].
  unfold lift. rewrite swap_fmap.
  destruct (swap x (S i) (Z.to_nat j)) as [x1|e]; [|reflexivity].
  apply IH.
Qed.

Lemma shuffle_fmap {A B} (f : A -> B) (x : list A) s :
  shuffle (f <$> x) s
  = match shuffle x s with
    | Ok (x1, s1) => Ok (f <$> x1, s1)
    | Err e => Err e
    end.
Proof. unfold shuffle. rewrite length_fmap. apply shuffle_loop_fmap. Qed.

End ShuffleFacts.

(** ** [skipgrams] *)

Section SkipgramFacts.
Context `{RandomGen}.
Import Skipgrams.
Local Open Scope Z_scope.

Lemma elem_of_range a b x : x ∈ Py.range a b <-> a <= x < b.
Proof.
  unfold Py.range. rewrite elem_of_progression. split.
  - intros (k & Hk & ->). lia.
  - intros Hx. exists (Z.to_nat (x - a)). lia.
Qed.

Lemma NoDup_range a b : NoDup (Py.range a b).
Proof. apply NoDup_progression. lia. Qed.

Lemma range_cons a b : a < b -> Py.range a b = a :: Py.range (a + 1) b.
Proof.
  intros Hab. unfold Py.range.
  replace (Z.to_nat (b - a)) with (1 + Z.to_nat (b - (a + 1)))%nat by lia.
  rewrite progression_app. unfold Py.progression at 1. cbn [seq fmap list_fmap app].
  replace (a + 1 * Z.of_nat 0) with a by lia.
  replace (a + 1 * Z.of_nat 1) with (a + 1) by lia. reflexivity.
Qed.

Lemma range_nil a b : b <= a -> Py.range a b = [].
Proof.
  intros Hab. unfold Py.range. replace (Z.to_nat (b - a)) with 0%nat by lia.
  reflexivity.
Qed.

Lemma elem_of_window sequence w i j :
  j ∈ window sequence w i -> 0 <= j < Py.len sequence.
Proof. unfold window. rewrite elem_of_range. lia. Qed.

Lemma getitem_token (sequence : list Z) j :
  0 <= j < Py.len sequence -> Py.getitem sequence j = Ok (token sequence j).
Proof.
  intros Hj. destruct (getitem_ok sequence j Hj) as (x & Hx & Hl).
  rewrite Hx. unfold token. rewrite Hl. reflexivity.
Qed.

Lemma for_each_cons {S X} (f : S -> X -> result S) x xs s :
  for_each f (x :: xs) s
  = match f s x with Ok s1 => for_each f xs s1 | Err e => Err e end.
Proof. reflexivity. Qed.

Lemma inner_in_range sequence cat i wi (acc : list couple * list label) j :
  0 <= j < Py.len sequence ->
  inner sequence cat i wi acc j
  = Ok (acc.1 ++ inner_pairs sequence i wi j,
        acc.2 ++ replicate (length (inner_pairs sequence i wi j))
                           (positive_label cat)).
Proof.
  intros Hj. unfold inner, inner_pairs. destruct acc as [cs ls].
  destruct (j =? i); [simpl; rewrite !app_nil_r; reflexivity|].
  rewrite getitem_token by exact Hj. unfold mbind, result_bind.
  destruct (token sequence j =? 0); simpl; rewrite ?app_nil_r; reflexivity.
Qed.

Lemma for_each_inner sequence cat i wi js (acc : list couple * list label) :
  (forall j, j ∈ js -> 0 <= j < Py.len sequence) ->
  for_each (inner sequence cat i wi) js acc
  = Ok (acc.1 ++ flat_map (inner_pairs sequence i wi) js,
        acc.2 ++ replicate (length (flat_map (inner_pairs sequence i wi) js))
                           (positive_label cat)).
Proof.
  revert acc. induction js as [|j js IH]; intros acc Hin.
  - simpl. rewrite !app_nil_r. destruct acc; reflexivity.
  - rewrite for_each_cons, inner_in_range
      by (apply (Hin j), list_elem_of_here).
    rewrite IH by (intros j' Hj'; apply (Hin j'), list_elem_of_further, Hj').
    cbn [flat_map fst snd]. rewrite length_app, replicate_add, <- !app_assoc.
    reflexivity.
Qed.

Lemma outer_no_table sequence w cat i rest (acc : list couple * list label) s :
  outer sequence w cat None i rest acc s
  = Ok ((acc.1 ++ outer_pairs sequence w i rest,
         acc.2 ++ replicate (length (outer_pairs sequence w i rest))
                            (positive_label cat)), s).
Proof.
  revert i acc. induction rest as [|wi rest IH]; intros i [cs ls].
  - simpl. rewrite !app_nil_r. reflexivity.
  - cbn [outer outer_pairs]. destruct (wi =? 0).
    + rewrite IH. reflexivity.
    + unfold mbind at 1, M_bind at 1. unfold mret at 1, M_ret at 1.
      unfold mbind at 1, M_bind at 1, lift.
      rewrite for_each_inner by apply elem_of_window.
      rewrite IH. simpl. rewrite length_app, replicate_add, <- !app_assoc.
      reflexivity.
Qed.

Lemma inner_pairs_no_zero sequence i wi j :
  wi <> 0 -> Forall no_zero_token (inner_pairs sequence i wi j).
Proof.
  intros Hwi. unfold inner_pairs. destruct (j =? i); [constructor|].
  destruct (token sequence j =? 0) eqn:E; [constructor|].
  repeat constructor; simpl; [exact Hwi|lia].
Qed.

Lemma outer_pairs_no_zero sequence w i rest :
  Forall no_zero_token (outer_pairs sequence w i rest).
Proof.
  revert i. induction rest as [|wi rest IH]; intros i; [constructor|].
  cbn [outer_pairs]. apply Forall_app. split; [|apply IH].
  destruct (wi =? 0) eqn:E; [constructor|].
  apply Forall_flat_map. apply Forall_forall. intros j _.
  apply inner_pairs_no_zero. lia.
Qed.


(** *** Counting the positive pairs *)

Lemma filter_pair_length {X Y} (P : X * Y -> bool) (a : X) (l : list Y) :
  length (List.filter P (map (fun y => (a, y)) l))
  = length (List.filter (fun y => P (a, y)) l).
Proof.
  induction l as [|y l IH]; [reflexivity|]. simpl.
  destruct (P (a, y)); simpl; rewrite IH; reflexivity.
Qed.

Lemma filter_list_prod_length {X Y} (P : X * Y -> bool) (l1 : list X)
    (l2 : list Y) :
  length (List.filter P (list_prod l1 l2))
  = sum_list ((fun i => length (List.filter (fun j => P (i, j)) l2)) <$> l1).
Proof.
  induction l1 as [|a l1 IH]; [reflexivity|].
  cbn [list_prod]. rewrite List.filter_app, length_app, filter_pair_length, IH.
  reflexivity.
Qed.

Lemma inner_pairs_length sequence i wi js :
  length (flat_map (inner_pairs sequence i wi) js)
  = length (List.filter
              (fun j => negb (j =? i) && negb (token sequence j =? 0)) js).
Proof.
  induction js as [|j js IH]; [reflexivity|].
  cbn [flat_map List.filter]. rewrite length_app, IH. unfold inner_pairs.
  destruct (j =? i); [reflexivity|].
  destruct (token sequence j =? 0); reflexivity.
Qed.

Lemma filter_length_ext (l1 l2 : list Z) (P Q : Z -> bool) :
  NoDup l1 -> NoDup l2 ->
  (forall x, (x ∈ l1 /\ P x = true) <-> (x ∈ l2 /\ Q x = true)) ->
  length (List.filter P l1) = length (List.filter Q l2).
Proof.
  intros N1 N2 Hiff. apply Permutation_length.
  apply NoDup_Permutation.
  - apply NoDup_ListNoDup, List.NoDup_filter, NoDup_ListNoDup, N1.
  - apply NoDup_ListNoDup, List.NoDup_filter, NoDup_ListNoDup, N2.
  - intros x. rewrite !list_elem_of_In, !List.filter_In, <- !list_elem_of_In.
    apply Hiff.
Qed.

(** The pairs emitted for the centre at position [k], a non-zero token. *)
Lemma window_row_count sequence w k wi :
  token sequence k = wi -> wi <> 0 ->
  length (flat_map (inner_pairs sequence k wi) (window sequence w k))
  = length (List.filter (fun j => cooccurs sequence w (k, j))
                        (positions sequence)).
Proof.
  intros Htok Hwi. rewrite inner_pairs_length.
  apply filter_length_ext; [apply NoDup_range|apply NoDup_range|].
  intros j. unfold window, positions, cooccurs. rewrite !elem_of_range.
  cbn [fst snd]. rewrite Htok.
  rewrite !andb_true_iff, !negb_true_iff, !Z.eqb_neq, Z.leb_le, Z.ltb_lt.
  lia.
Qed.

Lemma zero_row_count sequence w k :
  token sequence k = 0 ->
  length (List.filter (fun j => cooccurs sequence w (k, j))
                      (positions sequence)) = 0%nat.
Proof.
  intros Htok. induction (positions sequence) as [|j js IH]; [reflexivity|].
  simpl. unfold cooccurs at 1. cbn [fst snd]. rewrite Htok. simpl.
  rewrite andb_false_r. simpl. exact IH.
Qed.

Lemma outer_pairs_count sequence w (pre rest : list Z) :
  sequence = pre ++ rest ->
  length (outer_pairs sequence w (Py.len pre) rest)
  = sum_list ((fun i => length (List.filter
                                  (fun j => cooccurs sequence w (i, j))
                                  (positions sequence)))
              <$> Py.range (Py.len pre) (Py.len sequence)).
Proof.
  revert pre. induction rest as [|wi rest IH]; intros pre Hseq.
  - rewrite range_nil; [reflexivity|]. subst. rewrite app_nil_r. lia.
  - assert (Htok : token sequence (Py.len pre) = wi).
    { unfold token, Py.len. rewrite Nat2Z.id. subst sequence.
      rewrite lookup_app_r by lia. replace (_ - _)%nat with 0%nat by lia.
      reflexivity. }
    rewrite range_cons
      by (subst sequence; unfold Py.len; rewrite length_app; simpl; lia).
    cbn [outer_pairs]. rewrite length_app, fmap_cons. cbn [sum_list].
    replace (Py.len pre + 1) with (Py.len (pre ++ [wi]))
      by (unfold Py.len; rewrite length_app; simpl; lia).
    rewrite (IH (pre ++ [wi])) by (rewrite <- app_assoc; exact Hseq).
    f_equal. destruct (wi =? 0) eqn:E.
    + rewrite zero_row_count; [reflexivity|]. rewrite Htok. lia.
    + apply window_row_count; [exact Htok|lia].
Qed.

Lemma positives_count sequence w :
  length (outer_pairs sequence w 0 sequence) = cooccurrence_count sequence w.
Proof.
  unfold cooccurrence_count. rewrite filter_list_prod_length.
  apply (outer_pairs_count sequence w [] sequence). reflexivity.
Qed.


(** *** Negative samples *)

Lemma randint_ok a b s :
  a <= b ->
  returns (Random.randint a b) s (fun r _ => a <= r <= b).
Proof.
  intros Hab. unfold Random.randint.
  destruct (b + 1 - a <=? 0) eqn:E; [lia|].
  apply returns_bind.
  pose proof (rng_randbelow_range (b + 1 - a) s ltac:(lia)) as Hj.
  exists (rng_randbelow (b + 1 - a) s).1, (rng_randbelow (b + 1 - a) s).2.
  split; [unfold Random.randbelow; destruct (rng_randbelow _ s); reflexivity|].
  apply returns_ret. lia.
Qed.

Lemma negatives_ok words vs ks s :
  ks = [] \/ (words <> [] /\ 2 <= vs) ->
  Forall (fun w => w <> 0) words ->
  returns (negatives words vs ks) s
          (fun negs _ => length negs = length ks /\ Forall no_zero_token negs).
Proof.
  intros Hks Hwords. revert s.
  induction ks as [|i ks IH]; intros s.
  - apply returns_ret. split; [reflexivity|constructor].
  - destruct Hks as [Hks|[Hne Hvs]]; [discriminate|].
    cbn [negatives].
    assert (Hlen : 0 < Py.len words)
      by (unfold Py.len; destruct words; [congruence|simpl; lia]).
    destruct (Py.len words =? 0) eqn:E; [lia|].
    destruct (getitem_ok words (i `mod` Py.len words)) as (x & Hx & Hl);
      [apply Z.mod_pos_bound; exact Hlen|].
    apply returns_bind. eapply returns_lift; [exact Hx|].
    apply returns_bind. eapply returns_mono; [apply (randint_ok 1 (vs - 1)); lia|].
    intros r s1 Hr. simpl in Hr.
    apply returns_bind. eapply returns_mono; [apply IH; right; auto|].
    intros negs s2 [Hn Hf]. simpl in Hn, Hf.
    apply returns_ret. split; [simpl; rewrite Hn; reflexivity|].
    constructor; [|exact Hf]. split; simpl; [|lia].
    rewrite Forall_lookup in Hwords. exact (Hwords _ _ Hl).
Qed.

Lemma negatives_length words vs ks s negs s1 :
  negatives words vs ks s = Ok (negs, s1) -> length negs = length ks.
Proof.
  revert s negs s1. induction ks as [|i ks IH]; intros s negs s1.
  - intros [= <- _]. reflexivity.
  - cbn [negatives]. intros E.
    apply bind_inv in E as (x & s2 & _ & E).
    apply bind_inv in E as (r & s3 & _ & E).
    apply bind_inv in E as (rest & s4 & Hrest & E).
    injection E as <- _. simpl. rewrite (IH _ _ _ Hrest). reflexivity.
Qed.

(** *** The loops keep [couples] and [labels] aligned *)

Lemma for_each_aligned sequence cat i wi js acc acc1 :
  for_each (inner sequence cat i wi) js acc = Ok acc1 ->
  aligned acc -> aligned acc1.
Proof.
  revert acc. induction js as [|j js IH]; intros acc.
  - intros [= <-]. auto.
  - rewrite for_each_cons.
    destruct (inner sequence cat i wi acc j) as [acc2|e] eqn:E; [|discriminate].
    intros Hrest Hacc. apply (IH acc2 Hrest).
    unfold inner in E. destruct (j =? i); [injection E as <-; exact Hacc|].
    destruct (Py.getitem sequence j) as [wj|]; [|discriminate].
    unfold mbind, result_bind in E.
    destruct (wj =? 0); injection E as <-; [exact Hacc|].
    unfold aligned in *. simpl. rewrite !length_app, Hacc. reflexivity.
Qed.

Lemma outer_aligned sequence w cat table i rest acc s acc1 s1 :
  outer sequence w cat table i rest acc s = Ok (acc1, s1) ->
  aligned acc -> aligned acc1.
Proof.
  revert i acc s. induction rest as [|wi rest IH]; intros i acc s.
  - intros [= <- _]. auto.
  - cbn [outer]. destruct (wi =? 0); [apply IH|].
    intros E Hacc. apply bind_inv in E as (skip & s2 & _ & E).
    destruct skip; [exact (IH _ _ _ E Hacc)|].
    apply bind_inv in E as (acc2 & s3 & Hfe & E).
    apply (IH _ _ _ E). unfold lift in Hfe.
    destruct (for_each _ _ acc) as [acc3|] eqn:Efe; [|discriminate].
    injection Hfe as <- _. exact (for_each_aligned _ _ _ _ _ _ _ Efe Hacc).
Qed.

Lemma collect_aligned sequence vs w ns cat table s cl s1 :
  collect sequence vs w ns cat table s = Ok (cl, s1) -> aligned cl.
Proof.
  unfold collect. intros E. apply bind_inv in E as (cl0 & s2 & Hout & E).
  assert (H0 : aligned cl0) by (apply (outer_aligned _ _ _ _ _ _ _ _ _ _ Hout); reflexivity).
  cbv zeta in E.
  destruct (negb (Qle_bool (Float64.round ns) 0));
    [|injection E as <- _; exact H0].
  apply bind_inv in E as (words & s3 & _ & E).
  apply bind_inv in E as (negs & s4 & Hneg & E).
  injection E as <- _. apply negatives_length in Hneg.
  unfold aligned in *. cbn [fst snd].
  rewrite !length_app, length_replicate, Hneg, H0.
  unfold Py.range. rewrite progression_length. lia.
Qed.


(** *** Everything before the final shuffle, without a sampling table *)

(** *** Floats *)

Lemma round_half_even_nonneg (n d : Z) :
  0 <= n -> 0 < d -> 0 <= Float64.round_half_even n d.
Proof.
  intros Hn Hd. unfold Float64.round_half_even.
  pose proof (Z.div_pos n d Hn Hd) as Hq.
  destruct (2 * (n `mod` d) ?= d); [destruct (Z.even (n / d))| |]; lia.
Qed.

Lemma nearest_nonneg (n d : Z) :
  0 < n -> 0 < d -> (0 <= Float64.value (Float64.nearest n d))%Q.
Proof.
  intros Hn Hd. unfold Float64.nearest, Float64.value. cbn [fst snd].
  set (e := Z.max _ Float64.emin).
  destruct (Z.leb_spec 0 e) as [He|He].
  - pose proof (round_half_even_nonneg n (d * 2 ^ e) ltac:(lia)
                  ltac:(pose proof (Z.pow_pos_nonneg 2 e); nia)) as Hm.
    pose proof (Z.pow_nonneg 2 e ltac:(lia)) as Hp.
    unfold Qle, inject_Z. simpl. nia.
  - pose proof (round_half_even_nonneg (n * 2 ^ (- e)) d
                  ltac:(pose proof (Z.pow_nonneg 2 (- e)); nia) Hd) as Hm.
    unfold Qle. simpl. lia.
Qed.

(** Rounding keeps the sign: a positive float stands for a positive
    number. *)
Lemma round_positive (x : Q) :
  Qle_bool (Float64.round x) 0 = false -> (0 < x)%Q.
Proof.
  destruct x as [[|n|n] d]; unfold Float64.round; cbn [Qnum Qden].
  - discriminate.
  - intros _. reflexivity.
  - intros Hle. exfalso.
    pose proof (nearest_nonneg (Z.pos n) (Z.pos d) ltac:(lia) ltac:(lia))
      as Hv.
    assert (Hneg : (- Float64.value (Float64.nearest (Z.pos n) (Z.pos d))
                    <= 0)%Q).
    { apply (Qopp_le_compat 0) in Hv. exact Hv. }
    apply Qle_bool_iff in Hneg. congruence.
Qed.

Lemma int_of_zero (x : Q) :
  Py.int (Float64.mul (Float64.of_int 0) x) = 0.
Proof. destruct x as [n d]. reflexivity. Qed.

Lemma count_positive_app l1 l2 :
  count_positive (l1 ++ l2) = (count_positive l1 + count_positive l2)%nat.
Proof. unfold count_positive. rewrite List.filter_app, length_app. reflexivity. Qed.

Lemma count_positive_positives cat n :
  count_positive (replicate n (positive_label cat)) = n.
Proof.
  unfold count_positive. induction n as [|n IH]; [reflexivity|].
  cbn [replicate List.filter].
  replace (is_positive (positive_label cat)) with true
    by (destruct cat; reflexivity).
  cbn [length]. rewrite IH. reflexivity.
Qed.

Lemma count_positive_negatives cat n :
  count_positive (replicate n (negative_label cat)) = 0%nat.
Proof.
  unfold count_positive. induction n as [|n IH]; [reflexivity|].
  cbn [replicate List.filter].
  replace (is_positive (negative_label cat)) with false
    by (destruct cat; reflexivity).
  exact IH.
Qed.

Lemma count_positive_Permutation l1 l2 :
  l1 ≡ₚ l2 -> count_positive l1 = count_positive l2.
Proof.
  unfold count_positive. induction 1 as [|x l1 l2 _ IH|x y l|l1 l2 l3 _ IH1 _ IH2];
    simpl.
  - reflexivity.
  - destruct (is_positive x); simpl; rewrite IH; reflexivity.
  - destruct (is_positive x), (is_positive y); reflexivity.
  - rewrite IH1. exact IH2.
Qed.

Lemma collect_no_table sequence (vs w : Z) (ns : Q) cat s :
  ((0 < ns)%Q -> 2 <= vs) ->
  returns (collect sequence vs w ns cat None) s
    (fun cl _ => Forall no_zero_token cl.1
                 /\ count_positive cl.2 = cooccurrence_count sequence w
                 /\ aligned cl).
Proof.
  intros Hvs. unfold collect. apply returns_bind.
  eexists _, s. split; [apply outer_no_table|]. cbn [fst snd app].
  set (pos := outer_pairs sequence w 0 sequence).
  assert (Hpos : Forall no_zero_token pos) by apply outer_pairs_no_zero.
  assert (Hcnt : length pos = cooccurrence_count sequence w)
    by apply positives_count.
  cbv zeta. destruct (negb (Qle_bool (Float64.round ns) 0)) eqn:Ens.
  - assert (Hns : (0 < ns)%Q).
    { apply negb_true_iff in Ens. apply round_positive. exact Ens. }
    specialize (Hvs Hns).
    apply returns_bind. eapply returns_mono; [apply shuffle_ok|].
    intros words s1 Hwords. simpl in Hwords.
    replace (Py.len (replicate (length pos) (positive_label cat)))
      with (Py.len pos) by (unfold Py.len; rewrite length_replicate; reflexivity).
    set (num := Py.int (Float64.mul (Float64.of_int (Py.len pos))
                                    (Float64.round ns))).
    apply returns_bind. eapply returns_mono.
    + apply (negatives_ok words vs (Py.range 0 num) s1).
      * destruct pos as [|c pos'] eqn:Epos.
        -- left. subst num. unfold Py.len. simpl length.
           change (Z.of_nat 0) with 0. rewrite int_of_zero. reflexivity.
        -- right. split; [|exact Hvs]. intros ->.
           apply Permutation_nil_l in Hwords. discriminate.
      * rewrite Hwords. apply Forall_fmap. eapply Forall_impl; [exact Hpos|].
        intros c [Hc _]. exact Hc.
    + intros negs s2 [Hlen Hnz]. simpl in Hlen, Hnz. apply returns_ret.
      cbn [fst snd]. split; [apply Forall_app; split; assumption|].
      split.
      * rewrite count_positive_app, count_positive_positives,
          count_positive_negatives. lia.
      * unfold aligned. cbn [fst snd].
        rewrite !length_app, !length_replicate, Hlen.
        unfold Py.range. rewrite progression_length. lia.
  - apply returns_ret. cbn [fst snd]. split; [exact Hpos|]. split.
    + rewrite count_positive_positives. exact Hcnt.
    + unfold aligned. cbn [fst snd]. rewrite length_replicate. reflexivity.
Qed.

(** *** The final shuffle *)

Lemma final_shuffle_spec seed (cs : list couple) (ls : list label) s :
  length cs = length ls ->
  exists z s2,
    Random.shuffle (zip cs ls) (rng_seed (seed_used seed s)) = Ok (z, s2)
    /\ Random.shuffle cs (rng_seed (seed_used seed s)) = Ok (z.*1, s2)
    /\ Random.shuffle ls (rng_seed (seed_used seed s)) = Ok (z.*2, s2)
    /\ final_shuffle seed (cs, ls) s = Ok ((z.*1, z.*2), s2)
    /\ z ≡ₚ zip cs ls.
Proof.
  intros Hlen.
  destruct (shuffle_ok (zip cs ls) (rng_seed (seed_used seed s)))
    as (z & s2 & Hz & Hperm).
  assert (Hcs : Random.shuffle cs (rng_seed (seed_used seed s)) = Ok (z.*1, s2)).
  { rewrite <- (fst_zip cs ls) at 1 by lia. rewrite shuffle_fmap, Hz. reflexivity. }
  assert (Hls : Random.shuffle ls (rng_seed (seed_used seed s)) = Ok (z.*2, s2)).
  { rewrite <- (snd_zip cs ls) at 1 by lia. rewrite shuffle_fmap, Hz. reflexivity. }
  exists z, s2. split; [exact Hz|]. split; [exact Hcs|]. split; [exact Hls|].
  split; [|exact Hperm].
  unfold final_shuffle. cbn [fst snd].
  assert (Hseed : exists s1,
    match seed with
    | Some sd => mret sd
    | None => Random.randint 0 10000000
    end s = Ok (seed_used seed s, s1)).
  { destruct seed as [sd|]; [exists s; reflexivity|].
    unfold Random.randint, seed_used.
    destruct (10000000 + 1 - 0 <=? 0) eqn:E; [discriminate|].
    unfold mbind, M_bind, Random.randbelow.
    destruct (rng_randbelow (10000000 + 1 - 0) s) as [j s1]. eexists. reflexivity. }
  destruct Hseed as [s1 Hseed].
  rewrite (bind_Ok _ _ _ _ _ Hseed).
  unfold mbind at 1, M_bind at 1, Random.seed at 1.
  rewrite (bind_Ok _ _ _ _ _ Hcs).
  unfold mbind at 1, M_bind at 1, Random.seed at 1.
  rewrite (bind_Ok _ _ _ _ _ Hls). reflexivity.
Qed.


(** C5.  Without a sampling table, and with [vocabulary_size >= 2] whenever
    negative samples are requested, [skipgrams] returns; no couple it
    returns, positive or negative, contains token 0; and the number of
    positive labels is the number of position pairs [(i, j)] with [j] in
    [[max(0, i - window_size), min(len, i + window_size + 1))], [j <> i],
    [sequence[i] <> 0] and [sequence[j] <> 0]. *)
Theorem C5_skipgrams_no_zero_and_count (sequence : list Z) (vs w : Z) (ns : Q)
    (shuffle cat : bool) (seed : option Z) (s : rng) :
  ((0 < ns)%Q -> 2 <= vs) ->
  exists couples labels s1,
    skipgrams sequence vs w ns shuffle cat None seed s
      = Ok ((couples, labels), s1)
    /\ Forall no_zero_token couples
    /\ count_positive labels = cooccurrence_count sequence w
    /\ length couples = length labels.
Proof.
  intros Hvs.
  destruct (collect_no_table sequence vs w ns cat s Hvs)
    as ([cs ls] & s1 & Hcol & Hnz & Hcnt & Hal).
  unfold aligned in Hal. cbn [fst snd] in Hnz, Hcnt, Hal.
  unfold skipgrams. rewrite (bind_Ok _ _ _ _ _ Hcol). destruct shuffle.
  - destruct (final_shuffle_spec seed cs ls s1 Hal)
      as (z & s2 & _ & _ & _ & Hfin & Hperm).
    exists z.*1, z.*2, s2. split; [exact Hfin|].
    assert (H1 : z.*1 ≡ₚ cs) by (rewrite Hperm, fst_zip by lia; reflexivity).
    assert (H2 : z.*2 ≡ₚ ls) by (rewrite Hperm, snd_zip by lia; reflexivity).
    split; [rewrite H1; exact Hnz|]. split.
    + rewrite (count_positive_Permutation _ _ H2). exact Hcnt.
    + rewrite !length_fmap. reflexivity.
  - exists cs, ls, s1. split; [reflexivity|]. auto.
Qed.

(** C6.  With [shuffle = True] the generator is seeded with the same seed
    before the shuffle of [couples] and again before the shuffle of
    [labels]; both lists have the same length, so both shuffles apply one
    permutation: the result is the pair of projections of one shuffle [z] of
    the zipped list, a permutation of the (couple, label) associations before
    the shuffle. *)
Theorem C6_shuffle_keeps_pairs_aligned (sequence : list Z) (vs w : Z) (ns : Q)
    (cat : bool) (table : option (list Q)) (seed : option Z) (s s1 : rng)
    (cs0 : list couple) (ls0 : list label) :
  collect sequence vs w ns cat table s = Ok ((cs0, ls0), s1) ->
  let seeded := rng_seed (seed_used seed s1) in
  skipgrams sequence vs w ns false cat table seed s = Ok ((cs0, ls0), s1)
  /\ length cs0 = length ls0
  /\ exists z s2,
       skipgrams sequence vs w ns true cat table seed s
         = Ok ((z.*1, z.*2), s2)
       /\ Random.shuffle cs0 seeded = Ok (z.*1, s2)
       /\ Random.shuffle ls0 seeded = Ok (z.*2, s2)
       /\ Random.shuffle (zip cs0 ls0) seeded = Ok (z, s2)
       /\ zip z.*1 z.*2 = z
       /\ z ≡ₚ zip cs0 ls0.
Proof.
  intros Hcol seeded.
  pose proof (collect_aligned _ _ _ _ _ _ _ _ _ Hcol) as Hal.
  unfold aligned in Hal. cbn [fst snd] in Hal.
  split; [unfold skipgrams; rewrite (bind_Ok _ _ _ _ _ Hcol); reflexivity|].
  split; [exact Hal|].
  destruct (final_shuffle_spec seed cs0 ls0 s1 Hal)
    as (z & s2 & Hz & Hcs & Hls & Hfin & Hperm).
  exists z, s2.
  split; [unfold skipgrams; rewrite (bind_Ok _ _ _ _ _ Hcol); exact Hfin|].
  split; [exact Hcs|]. split; [exact Hls|]. split; [exact Hz|].
  split; [apply zip_fst_snd|exact Hperm].
Qed.

(** When the part before the shuffle raises, so does [skipgrams], with the
    same error. *)
Lemma skipgrams_raises_with_collect (sequence : list Z) (vs w : Z) (ns : Q)
    (shuffle cat : bool) (table : option (list Q)) (seed : option Z)
    (s : rng) (e : error) :
  collect sequence vs w ns cat table s = Err e ->
  skipgrams sequence vs w ns shuffle cat table seed s = Err e.
Proof.
  intros Hcol. unfold skipgrams, mbind, M_bind. rewrite Hcol. reflexivity.
Qed.

End SkipgramFacts.

(** C5 on [[1, 0, 2, 3]] with one negative sample per positive one. *)
Lemma C5_skipgrams_no_zero_and_count_witness :
  exists couples labels s1,
    Skipgrams.skipgrams (H := LCG.gen) [1; 0; 2; 3]%Z 4 1 1 true false None
                        (Some 42%Z) 0%Z
      = Ok ((couples, labels), s1)
    /\ Forall Skipgrams.no_zero_token couples
    /\ Skipgrams.count_positive labels
       = Skipgrams.cooccurrence_count [1; 0; 2; 3]%Z 1
    /\ length couples = length labels.
Proof.
  apply (C5_skipgrams_no_zero_and_count (H := LCG.gen)).
  intros _. lia.
Defined.

(** C6 on [[1, 2]] without negative samples. *)
Lemma C6_shuffle_keeps_pairs_aligned_witness :
  length [(1, 2); (2, 1)]%Z
  = length [Skipgrams.LInt 1; Skipgrams.LInt 1].
Proof.
  refine (proj1 (proj2 (C6_shuffle_keeps_pairs_aligned (H := LCG.gen)
    [1; 2]%Z 3 1 0 false None (Some 7%Z) 0%Z 0%Z
    [(1, 2); (2, 1)]%Z [Skipgrams.LInt 1; Skipgrams.LInt 1] _))).
  vm_compute. reflexivity.
Defined.

(** The side condition of C5 is needed: with [vocabulary_size = 1] and
    negative samples requested, [random.randint(1, 0)] raises. *)
Example skipgrams_small_vocabulary :
  Skipgrams.skipgrams (H := LCG.gen) [1; 1]%Z 1 1 1 false false None None 0%Z
  = Err (ValueError "empty range for randrange()").
Proof. vm_compute. reflexivity. Qed.

(** * Further properties of the code *)

(** ** More on slices *)

Section SliceFacts.
Local Open Scope Z_scope.

Lemma progression_S a step (n : nat) :
  Py.progression a step (S n) = a :: Py.progression (a + step) step n.
Proof.
  change (S n) with (1 + n)%nat. rewrite progression_app.
  unfold Py.progression at 1. cbn [seq fmap list_fmap app].
  f_equal; [lia|]. f_equal. lia.
Qed.

Lemma progression_count_unit lo hi :
  Py.progression_count lo hi 1 = Z.max 0 (hi - lo).
Proof.
  unfold Py.progression_count. cbn [Z.ltb Z.compare].
  destruct (lo <? hi) eqn:E; [|lia].
  rewrite Z.div_1_r. lia.
Qed.

(** Reading a contiguous run of positions. *)
Lemma omap_contiguous {X} (l : list X) (lo k : nat) :
  (lo + k <= length l)%nat ->
  omap (fun i : Z => l !! Z.to_nat i) (Py.progression (Z.of_nat lo) 1 k)
  = take k (drop lo l).
Proof.
  revert lo. induction k as [|k IH]; intros lo Hle; [reflexivity|].
  rewrite progression_S. cbn [omap list_omap]. rewrite Nat2Z.id.
  destruct (lookup_lt_is_Some_2 l lo ltac:(lia)) as [x Hx]. rewrite Hx.
  replace (Z.of_nat lo + 1) with (Z.of_nat (S lo)) by lia.
  rewrite (IH (S lo)) by lia.
  rewrite (drop_S l x lo Hx). reflexivity.
Qed.

Lemma omap_run {X} (l : list X) (lo hi : Z) :
  0 <= lo <= Py.len l -> hi <= Py.len l ->
  omap (fun i : Z => l !! Z.to_nat i)
       (Py.progression lo 1 (Z.to_nat (Z.max 0 (hi - lo))))
  = take (Z.to_nat (hi - lo)) (drop (Z.to_nat lo) l).
Proof.
  unfold Py.len. intros Hlo Hhi.
  rewrite <- (Z2Nat.id lo) at 1 by lia.
  rewrite omap_contiguous by lia. f_equal. lia.
Qed.

(** [s[:m]] *)
Lemma slice_prefix {X} (s : list X) (m : Z) :
  0 <= m -> Py.slice s None (Some m) 1 = Ok (take (Z.to_nat m) s).
Proof.
  intros Hm. unfold Py.slice, Py.slice_indices. cbn [Z.eqb Z.ltb Z.compare].
  rewrite progression_count_unit. unfold Py.adjust_index.
  change (1 <? 0) with false. cbv iota.
  destruct (m <? 0) eqn:E1; [lia|]. f_equal.
  destruct (Py.len s <=? m) eqn:E2.
  - rewrite omap_run by (unfold Py.len in *; lia). rewrite drop_0.
    unfold Py.len in *. rewrite !take_ge by lia. reflexivity.
  - rewrite omap_run by (unfold Py.len in *; lia). rewrite drop_0. f_equal. lia.
Qed.

(** [s[-m:]] for [m >= 1] *)
Lemma slice_suffix {X} (s : list X) (m : Z) :
  1 <= m ->
  Py.slice s (Some (- m)) None 1 = Ok (drop (length s - Z.to_nat m) s).
Proof.
  intros Hm. unfold Py.slice, Py.slice_indices. cbn [Z.eqb Z.ltb Z.compare].
  rewrite progression_count_unit. unfold Py.adjust_index.
  change (1 <? 0) with false. cbv iota.
  destruct (- m <? 0) eqn:E1; [|lia]. f_equal.
  destruct (- m + Py.len s <? 0) eqn:E2.
  - rewrite omap_run by (unfold Py.len in *; lia). unfold Py.len in *.
    rewrite drop_0. replace (length s - Z.to_nat m)%nat with 0%nat by lia.
    rewrite drop_0. apply take_ge. lia.
  - rewrite omap_run by (unfold Py.len in *; lia). unfold Py.len in *.
    replace (Z.to_nat (- m + Z.of_nat (length s)))
      with (length s - Z.to_nat m)%nat by lia.
    apply take_ge. rewrite length_drop. lia.
Qed.

(** [s[-0:]] is the whole of [s]. *)
Lemma slice_suffix_zero {X} (s : list X) :
  Py.slice s (Some (- 0)) None 1 = Ok s.
Proof.
  change (- 0) with 0.
  unfold Py.slice, Py.slice_indices. cbn [Z.eqb Z.ltb Z.compare Z.opp].
  rewrite progression_count_unit. unfold Py.adjust_index.
  change (1 <? 0) with false. cbv iota.
  cbn [Z.ltb Z.compare]. f_equal.
  destruct (Py.len s <=? 0) eqn:E.
  - apply Z.leb_le in E. unfold Py.len in *.
    destruct s; [reflexivity|simpl length in E; lia].
  - rewrite omap_run by (unfold Py.len in *; lia). unfold Py.len.
    change (Z.to_nat 0) with 0%nat. rewrite drop_0. apply take_ge. lia.
Qed.

End SliceFacts.

(** ** More on [pad_sequences] *)

Section PadMoreFacts.
Import Pad PadSpec.
Local Open Scope Z_scope.

Lemma foldr_insert_length (row : list Z) (ivs : list (Z * Z)) :
  length (foldr (fun (iv : Z * Z) r => <[Z.to_nat iv.1 := iv.2]> r) row ivs)
  = length row.
Proof.
  induction ivs as [|iv ivs IH]; [reflexivity|]. simpl.
  rewrite length_insert. exact IH.
Qed.

Lemma foldr_fill_length (row : list Z) (v : Z) (idxs : list Z) :
  length (foldr (fun (i : Z) r => <[Z.to_nat i := v]> r) row idxs)
  = length row.
Proof.
  induction idxs as [|i idxs IH]; [reflexivity|]. simpl.
  rewrite length_insert. exact IH.
Qed.

Lemma assign_slice_length row start stop vals row1 :
  assign_slice row start stop vals = Ok row1 -> length row1 = length row.
Proof.
  unfold assign_slice.
  destruct (Py.slice_indices (Py.len row) start stop 1) as [idxs|]; [|discriminate].
  unfold mbind, result_bind.
  destruct (Py.len vals =? Py.len idxs).
  - intros [= <-]. apply foldr_insert_length.
  - destruct vals as [|v [|? ?]]; try discriminate.
    intros [= <-]. apply foldr_fill_length.
Qed.

(** Writing [vals] over the positions [lo, lo+1, ...]. *)
Lemma foldr_insert_run (row vals : list Z) (lo : nat) :
  (lo + length vals <= length row)%nat ->
  foldr (fun (iv : Z * Z) r => <[Z.to_nat iv.1 := iv.2]> r) row
        (zip (Py.progression (Z.of_nat lo) 1 (length vals)) vals)
  = take lo row ++ vals ++ drop (lo + length vals) row.
Proof.
  revert lo. induction vals as [|v vals IH]; intros lo Hle.
  - simpl. rewrite Nat.add_0_r, take_drop. reflexivity.
  - cbn [length]. rewrite progression_S. cbn [zip zip_with foldr fst snd].
    replace (Z.of_nat lo + 1) with (Z.of_nat (S lo)) by lia.
    rewrite (IH (S lo)) by (simpl in Hle; lia). rewrite Nat2Z.id.
    destruct (lookup_lt_is_Some_2 row lo ltac:(simpl in Hle; lia)) as [x Hx].
    rewrite (take_S_r row lo x Hx), <- app_assoc.
    rewrite insert_app_r_alt by (rewrite length_take; lia).
    rewrite length_take. replace (lo - lo `min` length row)%nat with 0%nat by lia.
    cbn [app]. simpl. replace (lo + S (length vals))%nat
      with (S lo + length vals)%nat by lia. reflexivity.
Qed.

(** [row[:len(vals)] = vals] *)
Lemma assign_prefix (row vals : list Z) :
  (length vals <= length row)%nat ->
  assign_slice row None (Some (Py.len vals)) vals
  = Ok (vals ++ drop (length vals) row).
Proof.
  intros Hle. unfold assign_slice, Py.slice_indices.
  cbn [Z.eqb Z.ltb Z.compare]. rewrite progression_count_unit.
  unfold Py.adjust_index, Py.len. change (1 <? 0) with false. cbv iota.
  destruct (Z.of_nat (length vals) <? 0) eqn:E1; [lia|].
  assert (Hk : Z.to_nat (Z.max 0
     ((if Z.of_nat (length row) <=? Z.of_nat (length vals)
       then Z.of_nat (length row) else Z.of_nat (length vals)) - 0))
     = length vals).
  { destruct (Z.of_nat (length row) <=? Z.of_nat (length vals)) eqn:E2; lia. }
  rewrite Hk. unfold mbind, result_bind.
  rewrite progression_length, Z.eqb_refl. f_equal.
  change 0 with (Z.of_nat 0). rewrite foldr_insert_run by lia.
  reflexivity.
Qed.

(** [row[-len(vals):] = vals], for a non-empty [vals] *)
Lemma assign_suffix (row vals : list Z) :
  (1 <= length vals <= length row)%nat ->
  assign_slice row (Some (- Py.len vals)) None vals
  = Ok (take (length row - length vals) row ++ vals).
Proof.
  intros Hle. unfold assign_slice, Py.slice_indices.
  cbn [Z.eqb Z.ltb Z.compare]. rewrite progression_count_unit.
  unfold Py.adjust_index, Py.len. change (1 <? 0) with false. cbv iota.
  destruct (- Z.of_nat (length vals) <? 0) eqn:E1; [|lia].
  destruct (- Z.of_nat (length vals) + Z.of_nat (length row) <? 0) eqn:E2; [lia|].
  replace (- Z.of_nat (length vals) + Z.of_nat (length row))
    with (Z.of_nat (length row - length vals)) by lia.
  replace (Z.to_nat (Z.max 0 (Z.of_nat (length row)
             - Z.of_nat (length row - length vals))))
    with (length vals) by lia.
  unfold mbind, result_bind. rewrite progression_length, Z.eqb_refl. f_equal.
  rewrite foldr_insert_run by lia.
  rewrite drop_ge by lia. rewrite app_nil_r. reflexivity.
Qed.

Lemma truncate_length truncating m s :
  length (truncate truncating m s) = Nat.min m (length s).
Proof.
  unfold truncate. destruct (String.eqb truncating "pre").
  - rewrite length_drop. lia.
  - rewrite length_take. lia.
Qed.

Lemma pad_row_length padding truncating m value s :
  length (pad_row padding truncating m value s) = m.
Proof.
  unfold pad_row. destruct (String.eqb padding "pre");
    rewrite length_app, length_replicate, truncate_length; lia.
Qed.

Lemma pad_row_nil padding truncating m value :
  pad_row padding truncating m value [] = replicate m value.
Proof.
  unfold pad_row, truncate.
  destruct (String.eqb truncating "pre"), (String.eqb padding "pre"); simpl;
    rewrite ?drop_nil, ?take_nil, ?app_nil_r, ?Nat.sub_0_r; reflexivity.
Qed.

Lemma truncate_fmap (f : Z -> Z) truncating m (s : list Z) :
  truncate truncating m (f <$> s) = f <$> truncate truncating m s.
Proof.
  unfold truncate. rewrite length_fmap.
  destruct (String.eqb truncating "pre"); symmetry;
    [apply fmap_drop|apply fmap_take].
Qed.

(** The conversion to [int32] lands in the 32-bit range and leaves what is
    in it unchanged. *)
Lemma int32_range (z : Z) : in_int32 (int32 z).
Proof.
  unfold in_int32, int32.
  pose proof (Z.mod_pos_bound (z + 2 ^ 31) (2 ^ 32) ltac:(lia)). lia.
Qed.

Lemma int32_id (z : Z) : in_int32 z -> int32 z = z.
Proof.
  unfold in_int32, int32. intros Hz.
  rewrite Z.mod_small by lia. lia.
Qed.

Lemma asarray_id (s : list Z) : Forall in_int32 s -> np_asarray s = s.
Proof.
  intros Hs. unfold np_asarray. rewrite <- (list_fmap_id s) at 2.
  apply Forall_fmap_ext. eapply Forall_impl; [exact Hs|].
  intros z Hz. apply int32_id. exact Hz.
Qed.

Lemma asarray_range (s : list Z) : Forall in_int32 (np_asarray s).
Proof.
  unfold np_asarray. apply Forall_fmap, Forall_forall. intros z _.
  apply int32_range.
Qed.

(** The kept part, as the two slices compute it. *)
Lemma truncate_slice truncating (m : nat) (s : list Z) :
  valid_mode truncating -> (1 <= m)%nat ->
  (if String.eqb truncating "pre"
   then Py.slice s (Some (- Z.of_nat m)) None 1
   else if String.eqb truncating "post"
   then Py.slice s None (Some (Z.of_nat m)) 1
   else Err (ValueError "Truncating type not understood"))
  = Ok (truncate truncating m s).
Proof.
  intros [-> | ->] Hm; unfold truncate; simpl.
  - rewrite slice_suffix by lia. rewrite Nat2Z.id. reflexivity.
  - rewrite slice_prefix by lia. rewrite Nat2Z.id. reflexivity.
Qed.

Lemma set_row_fill padding truncating (m : nat) value (s : list Z)
    (done rest : list (list Z)) :
  valid_mode padding -> (1 <= m)%nat -> s <> [] ->
  let trunc := truncate truncating m s in
  (if String.eqb padding "post"
   then set_row (done ++ replicate m value :: rest) (length done) None
                (Some (Py.len trunc)) trunc
   else if String.eqb padding "pre"
   then set_row (done ++ replicate m value :: rest) (length done)
                (Some (- Py.len trunc)) None trunc
   else Err (ValueError "Padding type not understood"))
  = Ok (done ++ pad_row padding truncating m value s :: rest).
Proof.
  intros Hp Hm Hs trunc.
  assert (Hk : (1 <= length trunc <= m)%nat).
  { subst trunc. rewrite truncate_length. destruct s; [congruence|simpl; lia]. }
  assert (Hrow : (done ++ replicate m value :: rest) !! length done
                 = Some (replicate m value)).
  { rewrite lookup_app_r by lia. rewrite Nat.sub_diag. reflexivity. }
  assert (Hins : forall r, <[length done := r]> (done ++ replicate m value :: rest)
                           = done ++ r :: rest).
  { intros r. rewrite insert_app_r_alt by lia. rewrite Nat.sub_diag. reflexivity. }
  unfold set_row, pad_row. fold trunc. rewrite Hrow.
  destruct Hp as [-> | ->]; simpl.
  - rewrite assign_suffix by (rewrite length_replicate; lia).
    unfold mbind, result_bind, mret, result_ret. rewrite Hins.
    rewrite length_replicate, take_replicate.
    replace ((m - length trunc) `min` m)%nat with (m - length trunc)%nat by lia.
    reflexivity.
  - rewrite assign_prefix by (rewrite length_replicate; lia).
    unfold mbind, result_bind, mret, result_ret. rewrite Hins.
    rewrite drop_replicate. reflexivity.
Qed.

Lemma pad_loop_rows padding truncating (m : nat) value
    (sequences done rest : list (list Z)) :
  valid_mode padding -> valid_mode truncating -> (1 <= m)%nat ->
  pad_loop (Z.of_nat m) padding truncating (length done) sequences
    (done ++ replicate (length sequences) (replicate m value) ++ rest)
  = Ok (done
        ++ (pad_row padding truncating m value <$> (np_asarray <$> sequences))
        ++ rest).
Proof.
  intros Hp Ht Hm. revert done.
  induction sequences as [|s sequences IH]; intros done; [reflexivity|].
  cbn [pad_loop length replicate fmap list_fmap app].
  set (fill := replicate (length sequences) (replicate m value)).
  assert (Hstep : forall r,
    pad_loop (Z.of_nat m) padding truncating (S (length done)) sequences
             (done ++ r :: fill ++ rest)
    = Ok (done ++ r :: (pad_row padding truncating m value
                          <$> (np_asarray <$> sequences)) ++ rest)).
  { intros r.
    replace (S (length done)) with (length (done ++ [r]))
      by (rewrite length_app; simpl; lia).
    replace (done ++ r :: fill ++ rest) with ((done ++ [r]) ++ fill ++ rest)
      by (rewrite <- app_assoc; reflexivity).
    subst fill. rewrite IH. rewrite <- app_assoc. reflexivity. }
  destruct (Py.len s =? 0) eqn:Es.
  - assert (s = []) as ->
      by (unfold Py.len in Es; destruct s; [reflexivity|simpl in Es; lia]).
    change (np_asarray []) with (@nil Z).
    rewrite pad_row_nil. apply Hstep.
  - assert (Hs : np_asarray s <> []).
    { intros Hnil. apply fmap_nil_inv in Hnil. subst s. discriminate. }
    rewrite truncate_slice by assumption. unfold mbind at 1, result_bind at 1.
    cbv zeta. unfold np_asarray at 1 2 3 4.
    rewrite <- (truncate_fmap int32).
    rewrite (set_row_fill padding truncating m value (int32 <$> s) done)
      by assumption.
    unfold mbind, result_bind. apply Hstep.
Qed.


Lemma foldr_max_lengths (a : Z) (sequences : list (list Z)) :
  0 <= a ->
  foldr Z.max a (Py.len <$> sequences)
  = Z.max a (Z.of_nat (max_len sequences)).
Proof.
  intros Ha. induction sequences as [|s sequences IH].
  - simpl. unfold max_len. simpl. lia.
  - cbn [fmap list_fmap foldr]. rewrite IH. unfold max_len, Py.len.
    cbn [fmap list_fmap foldr]. lia.
Qed.

Lemma np_max_lengths (s : list Z) (sequences : list (list Z)) :
  np_max (Py.len <$> (s :: sequences))
  = Ok (Z.of_nat (max_len (s :: sequences))).
Proof.
  cbn [fmap list_fmap np_max]. f_equal.
  rewrite foldr_max_lengths by (unfold Py.len; lia).
  unfold max_len, Py.len. cbn [fmap list_fmap foldr]. lia.
Qed.

Lemma np_full_width (n : nat) (m value : Z) :
  0 <= m ->
  np_full n m value
  = Ok (replicate n (replicate (Z.to_nat m) (int32 value))).
Proof. intros Hm. unfold np_full. destruct (m <? 0) eqn:E; [lia|reflexivity]. Qed.

(** The part of [pad_sequences] before the loop: the width is [maxlen] or
    the longest length, and the array starts out filled with [value]. *)
Lemma pad_sequences_header (sequences : list (list Z)) (maxlen : option Z)
    (padding truncating : string) (value : Z) :
  (maxlen = None -> sequences <> []) ->
  0 <= width maxlen sequences ->
  pad_sequences sequences maxlen padding truncating value
  = pad_loop (width maxlen sequences) padding truncating 0 sequences
      (replicate (length sequences)
                 (replicate (Z.to_nat (width maxlen sequences))
                            (int32 value))).
Proof.
  intros Hne Hw. unfold pad_sequences.
  assert (Hmax : match maxlen with
                 | Some m => Ok m
                 | None => np_max (Py.len <$> sequences)
                 end = Ok (width maxlen sequences)).
  { destruct maxlen as [m|]; [reflexivity|]. destruct sequences as [|s sequences].
    - exfalso. apply Hne; reflexivity.
    - apply np_max_lengths. }
  rewrite Hmax. unfold mbind, result_bind. rewrite np_full_width by exact Hw.
  reflexivity.
Qed.

Lemma pad_sequences_header_inv (sequences : list (list Z))
    (maxlen : option Z) (padding truncating : string) (value : Z)
    (x : list (list Z)) :
  pad_sequences sequences maxlen padding truncating value = Ok x ->
  (maxlen = None -> sequences <> []) /\ 0 <= width maxlen sequences.
Proof.
  unfold pad_sequences. intros Hpad. split.
  - intros -> ->. discriminate.
  - destruct maxlen as [m|]; [|unfold width; lia].
    unfold mbind at 1, result_bind at 1, np_full in Hpad.
    destruct (Z.ltb_spec m 0); [discriminate|exact H].
Qed.

(** The array [pad_sequences] returns, row by row, for valid modes, a width
    of at least one column, and a fill value and timesteps that [int32]
    holds: each sequence is first cut to the width (from the front with
    [truncating='pre'], from the back with ['post']) and then filled up with
    [value] (in front with [padding='pre'], behind with ['post']). *)
Theorem pad_sequences_rows (sequences : list (list Z)) (maxlen : option Z)
    (padding truncating : string) (value : Z) :
  valid_mode padding -> valid_mode truncating ->
  1 <= width maxlen sequences ->
  in_int32 value -> Forall (Forall in_int32) sequences ->
  pad_sequences sequences maxlen padding truncating value
  = Ok (pad_row padding truncating (Z.to_nat (width maxlen sequences)) value
          <$> sequences).
Proof.
  intros Hp Ht Hw Hv Hs. rewrite pad_sequences_header; [| |lia].
  - set (m := Z.to_nat (width maxlen sequences)).
    replace (width maxlen sequences) with (Z.of_nat m) by (subst m; lia).
    pose proof (pad_loop_rows padding truncating m (int32 value) sequences
                  [] [] Hp Ht ltac:(subst m; lia)) as Hloop.
    rewrite !app_nil_r in Hloop. cbn [app length] in Hloop.
    rewrite Hloop, (int32_id value Hv). f_equal. f_equal.
    rewrite <- (list_fmap_id sequences) at 2.
    apply Forall_fmap_ext. eapply Forall_impl; [exact Hs|].
    intros s Hin. apply asarray_id. exact Hin.
  - intros -> ->. apply Hw. reflexivity.
Qed.

Lemma pad_sequences_rows_witness :
  pad_sequences [[1]; [2; 3]; [4; 5; 6]] (Some 2) "post" "post" 9
  = Ok (pad_row "post" "post" (Z.to_nat (width (Some 2) [[1]; [2; 3]; [4; 5; 6]])) 9
          <$> [[1]; [2; 3]; [4; 5; 6]]).
Proof.
  apply pad_sequences_rows.
  - right. reflexivity.
  - right. reflexivity.
  - simpl. lia.
  - unfold in_int32. lia.
  - repeat constructor; unfold in_int32; lia.
Defined.

(** Outside that range the array holds the 32-bit conversion of what was
    passed: [2**31] is stored as [-2**31]. *)
Example pad_sequences_wraps :
  pad_sequences [[2 ^ 31; 1]; [5]] None "pre" "pre" 0
  = Ok [[- 2 ^ 31; 1]; [0; 5]].
Proof. vm_compute. reflexivity. Qed.


(** *** Shape of the result, whatever the arguments *)

Lemma set_row_shape x idx start stop vals x1 :
  set_row x idx start stop vals = Ok x1 -> shape x1 = shape x.
Proof.
  unfold set_row. destruct (x !! idx) as [row|] eqn:Hrow; [|discriminate].
  destruct (assign_slice row start stop vals) as [row1|] eqn:Ha; [|discriminate].
  intros [= <-]. apply assign_slice_length in Ha.
  unfold shape. rewrite list_fmap_insert, Ha.
  apply list_insert_id. rewrite list_lookup_fmap, Hrow. reflexivity.
Qed.

Lemma pad_loop_shape maxlen padding truncating idx sequences x x1 :
  pad_loop maxlen padding truncating idx sequences x = Ok x1 ->
  shape x1 = shape x.
Proof.
  revert idx x. induction sequences as [|s sequences IH]; intros idx x.
  - intros [= <-]. reflexivity.
  - cbn [pad_loop]. destruct (Py.len s =? 0); [apply IH|].
    destruct (if String.eqb truncating "pre" then _ else _) as [trunc|];
      [|discriminate].
    unfold mbind at 1, result_bind at 1.
    destruct (if String.eqb padding "post" then _ else _) as [x2|] eqn:Hset;
      [|discriminate].
    unfold mbind, result_bind. intros Hrest.
    rewrite (IH _ _ Hrest).
    destruct (String.eqb padding "post");
      [exact (set_row_shape _ _ _ _ _ _ Hset)|].
    destruct (String.eqb padding "pre"); [|discriminate].
    exact (set_row_shape _ _ _ _ _ _ Hset).
Qed.

Lemma pad_loop_uniform maxlen padding truncating idx sequences (n : nat)
    (row0 : list Z) x :
  pad_loop maxlen padding truncating idx sequences (replicate n row0) = Ok x ->
  length x = n /\ Forall (fun r : list Z => length r = length row0) x.
Proof.
  intros Hloop. apply pad_loop_shape in Hloop.
  unfold shape in Hloop. rewrite fmap_replicate in Hloop. split.
  - apply (f_equal length) in Hloop.
    rewrite length_fmap, length_replicate in Hloop. exact Hloop.
  - apply Forall_forall. intros r Hr.
    apply (list_elem_of_fmap_2 length) in Hr. rewrite Hloop in Hr.
    apply elem_of_replicate in Hr as [Hr _]. exact Hr.
Qed.

(** Whenever [pad_sequences] returns, the array has one row per sequence
    and every row has the requested width ([maxlen], or the length of the
    longest sequence). *)
Theorem pad_sequences_shape (sequences : list (list Z)) (maxlen : option Z)
    (padding truncating : string) (value : Z) (x : list (list Z)) :
  pad_sequences sequences maxlen padding truncating value = Ok x ->
  length x = length sequences
  /\ 0 <= width maxlen sequences
  /\ Forall (fun r : list Z => Py.len r = width maxlen sequences) x.
Proof.
  intros Hpad.
  destruct (pad_sequences_header_inv _ _ _ _ _ _ Hpad) as [Hne Hw].
  rewrite pad_sequences_header in Hpad by assumption.
  apply pad_loop_uniform in Hpad as [Hlen Hrows].
  split; [exact Hlen|]. split; [exact Hw|].
  eapply Forall_impl; [exact Hrows|]. intros r Hr.
  unfold Py.len. rewrite Hr, length_replicate. lia.
Qed.

Lemma pad_sequences_shape_witness :
  length [[0; 1]; [2; 3]; [5; 6]] = length [[1]; [2; 3]; [4; 5; 6]].
Proof.
  refine (proj1 (pad_sequences_shape [[1]; [2; 3]; [4; 5; 6]] (Some 2)
                   "pre" "pre" 0 [[0; 1]; [2; 3]; [5; 6]] _)).
  vm_compute. reflexivity.
Defined.

(** *** Empty sequences *)

Lemma pad_loop_all_empty maxlen padding truncating idx sequences x :
  Forall (fun s : list Z => s = []) sequences ->
  pad_loop maxlen padding truncating idx sequences x = Ok x.
Proof.
  intros Hall. revert idx. induction Hall as [|s sequences -> _ IH]; intros idx;
    [reflexivity|]. cbn [pad_loop]. exact (IH (S idx)).
Qed.

(** When every sequence is empty the two modes are never looked at: the
    result is all fill values, even for mode strings that are not valid
    (for a fill value that [int32] holds). *)
Theorem pad_sequences_all_empty (sequences : list (list Z))
    (maxlen : option Z) (padding truncating : string) (value : Z) :
  Forall (fun s : list Z => s = []) sequences ->
  (maxlen = None -> sequences <> []) ->
  0 <= width maxlen sequences ->
  in_int32 value ->
  pad_sequences sequences maxlen padding truncating value
  = Ok (replicate (length sequences)
                  (replicate (Z.to_nat (width maxlen sequences)) value)).
Proof.
  intros Hall Hne Hw Hv. rewrite pad_sequences_header by assumption.
  rewrite (int32_id value Hv).
  apply pad_loop_all_empty. exact Hall.
Qed.

Lemma pad_sequences_all_empty_witness :
  pad_sequences [[]; []] (Some 3) "middle" "nowhere" 7
  = Ok (replicate (length ([[]; []] : list (list Z)))
                  (replicate (Z.to_nat (width (Some 3) [[]; []])) 7)).
Proof.
  apply pad_sequences_all_empty.
  - repeat constructor.
  - discriminate.
  - simpl. lia.
  - unfold in_int32. lia.
Defined.

(** *** Errors *)

Lemma pad_loop_invalid_mode maxlen padding truncating idx sequences x :
  Exists (fun s : list Z => s <> []) sequences ->
  ~ valid_mode truncating \/ ~ valid_mode padding ->
  is_value_error (pad_loop maxlen padding truncating idx sequences x) = true.
Proof.
  intros Hex Hbad. revert idx.
  induction sequences as [|s sequences IH]; intros idx.
  - inversion Hex.
  - cbn [pad_loop]. destruct (Py.len s =? 0) eqn:Es.
    + apply IH. inversion Hex as [? ? Hs|? ? Hrest]; subst; [|exact Hrest].
      exfalso. apply Hs. unfold Py.len in Es.
      destruct s; [reflexivity|simpl in Es; lia].
    + destruct (String.eqb truncating "pre") eqn:E1.
      * apply String.eqb_eq in E1. subst truncating.
        destruct (slice_ok s (Some (- maxlen)) None 1 ltac:(lia)) as [t ->].
        unfold mbind at 1, result_bind at 1.
        destruct Hbad as [Hbad|Hbad]; [exfalso; apply Hbad; left; reflexivity|].
        destruct (String.eqb padding "post") eqn:E3;
          [apply String.eqb_eq in E3; exfalso; apply Hbad; right; exact E3|].
        destruct (String.eqb padding "pre") eqn:E4;
          [apply String.eqb_eq in E4; exfalso; apply Hbad; left; exact E4|].
        reflexivity.
      * destruct (String.eqb truncating "post") eqn:E2; [|reflexivity].
        apply String.eqb_eq in E2. subst truncating.
        destruct (slice_ok s None (Some maxlen) 1 ltac:(lia)) as [t ->].
        unfold mbind at 1, result_bind at 1.
        destruct Hbad as [Hbad|Hbad]; [exfalso; apply Hbad; right; reflexivity|].
        destruct (String.eqb padding "post") eqn:E3;
          [apply String.eqb_eq in E3; exfalso; apply Hbad; right; exact E3|].
        destruct (String.eqb padding "pre") eqn:E4;
          [apply String.eqb_eq in E4; exfalso; apply Hbad; left; exact E4|].
        reflexivity.
Qed.

(** [pad_sequences] raises [ValueError] on an empty list without [maxlen],
    on a negative [maxlen], and on an unknown padding or truncating mode as
    soon as one sequence is not empty. *)
Theorem pad_sequences_errors (sequences : list (list Z)) (maxlen : option Z)
    (padding truncating : string) (value : Z) :
  (sequences = [] /\ maxlen = None)
  \/ (exists m, maxlen = Some m /\ m < 0)
  \/ (Exists (fun s : list Z => s <> []) sequences
      /\ (~ valid_mode truncating \/ ~ valid_mode padding)) ->
  is_value_error (pad_sequences sequences maxlen padding truncating value)
  = true.
Proof.
  intros [[-> ->]|[(m & -> & Hm)|[Hex Hbad]]].
  - reflexivity.
  - unfold pad_sequences, mbind, result_bind, np_full.
    destruct (m <? 0) eqn:E; [reflexivity|lia].
  - unfold pad_sequences.
    destruct (match maxlen with
              | Some m => Ok m
              | None => np_max (Py.len <$> sequences)
              end) as [m|e] eqn:Hmax.
    + unfold mbind at 1, result_bind at 1. unfold np_full.
      destruct (m <? 0); [reflexivity|]. unfold mbind, result_bind.
      apply pad_loop_invalid_mode; assumption.
    + destruct maxlen; [discriminate|].
      destruct sequences; [inversion Hex|discriminate].
Qed.

Lemma pad_sequences_errors_witness :
  is_value_error (pad_sequences [[]; [1; 2]] None "pre" "both" 0) = true.
Proof.
  apply pad_sequences_errors. right. right. split.
  - right. left. discriminate.
  - left. intros [E|E]; discriminate.
Defined.

(** *** Padding twice *)

Lemma pad_row_full padding truncating m value (r : list Z) :
  length r = m -> pad_row padding truncating m value r = r.
Proof.
  intros Hr. unfold pad_row, truncate.
  destruct (String.eqb truncating "pre"), (String.eqb padding "pre");
    rewrite ?length_drop, ?length_take, Hr;
    replace (m - m)%nat with 0%nat by lia; rewrite ?drop_0;
    rewrite <- ?Hr, ?firstn_all; subst m;
    rewrite ?Nat.min_id, ?Nat.sub_0_r, ?Nat.sub_diag; simpl;
    rewrite ?app_nil_r; reflexivity.
Qed.

Lemma max_len_uniform (m : nat) (x : list (list Z)) :
  x <> [] -> Forall (fun r : list Z => length r = m) x -> max_len x = m.
Proof.
  intros Hne Hall. unfold max_len. induction Hall as [|r x Hr Hall IH];
    [congruence|]. cbn [fmap list_fmap foldr]. rewrite Hr.
  destruct x as [|r1 x]; [simpl; lia|]. rewrite IH by discriminate. lia.
Qed.

Lemma foldr_insert_Forall (P : Z -> Prop) (row : list Z)
    (ivs : list (Z * Z)) :
  Forall P row -> Forall (fun iv => P iv.2) ivs ->
  Forall P (foldr (fun (iv : Z * Z) r => <[Z.to_nat iv.1 := iv.2]> r)
                  row ivs).
Proof.
  intros Hrow Hivs. induction Hivs as [|iv ivs Hiv Hivs IH]; [exact Hrow|].
  cbn [foldr]. apply Forall_insert; assumption.
Qed.

Lemma foldr_fill_Forall (P : Z -> Prop) (row : list Z) (v : Z)
    (idxs : list Z) :
  Forall P row -> P v ->
  Forall P (foldr (fun (i : Z) r => <[Z.to_nat i := v]> r) row idxs).
Proof.
  intros Hrow Hv. induction idxs as [|i idxs IH]; [exact Hrow|].
  cbn [foldr]. apply Forall_insert; assumption.
Qed.

Lemma assign_slice_Forall (P : Z -> Prop) row start stop vals row1 :
  assign_slice row start stop vals = Ok row1 ->
  Forall P row -> Forall P vals -> Forall P row1.
Proof.
  unfold assign_slice.
  destruct (Py.slice_indices (Py.len row) start stop 1) as [idxs|];
    [|discriminate].
  unfold mbind, result_bind. intros Hassign Hrow Hvals.
  destruct (Py.len vals =? Py.len idxs).
  - injection Hassign as <-. apply foldr_insert_Forall; [exact Hrow|].
    apply Forall_forall. intros [i v] Hin. apply elem_of_zip_r in Hin.
    rewrite Forall_forall in Hvals. exact (Hvals v Hin).
  - destruct vals as [|v [|? ?]]; try discriminate.
    injection Hassign as <-. apply foldr_fill_Forall; [exact Hrow|].
    apply Forall_inv in Hvals. exact Hvals.
Qed.

Lemma set_row_Forall (P : Z -> Prop) x idx start stop vals x1 :
  set_row x idx start stop vals = Ok x1 ->
  Forall (Forall P) x -> Forall P vals -> Forall (Forall P) x1.
Proof.
  unfold set_row. destruct (x !! idx) as [row|] eqn:Hrow; [|discriminate].
  destruct (assign_slice row start stop vals) as [row1|] eqn:Ha;
    [|discriminate].
  intros [= <-] Hx Hvals. apply Forall_insert; [exact Hx|].
  apply (assign_slice_Forall P _ _ _ _ _ Ha); [|exact Hvals].
  rewrite Forall_lookup in Hx. exact (Hx _ _ Hrow).
Qed.

(** Whatever the loop writes has gone through the conversion. *)
Lemma pad_loop_int32 maxlen padding truncating idx sequences x x1 :
  pad_loop maxlen padding truncating idx sequences x = Ok x1 ->
  Forall (Forall in_int32) x -> Forall (Forall in_int32) x1.
Proof.
  revert idx x. induction sequences as [|s sequences IH]; intros idx x.
  - intros [= <-] Hx. exact Hx.
  - cbn [pad_loop]. destruct (Py.len s =? 0); [apply IH|].
    destruct (if String.eqb truncating "pre" then _ else _) as [trunc|];
      [|discriminate].
    unfold mbind at 1, result_bind at 1. cbv zeta.
    destruct (if String.eqb padding "post" then _ else _) as [x2|] eqn:Hset;
      [|discriminate].
    unfold mbind, result_bind. intros Hrest Hx.
    apply (IH _ _ Hrest).
    destruct (String.eqb padding "post").
    { exact (set_row_Forall _ _ _ _ _ _ _ Hset Hx (asarray_range trunc)). }
    destruct (String.eqb padding "pre"); [|discriminate].
    exact (set_row_Forall _ _ _ _ _ _ _ Hset Hx (asarray_range trunc)).
Qed.

(** An array of [int32] without ragged rows is left as it is. *)
Lemma pad_uniform_fixed (m : nat) (x : list (list Z))
    (padding truncating : string) (value : Z) :
  valid_mode padding -> valid_mode truncating ->
  x <> [] -> (1 <= m)%nat -> Forall (fun r : list Z => length r = m) x ->
  Forall (Forall in_int32) x ->
  pad_sequences x None padding truncating value = Ok x.
Proof.
  intros Hp Ht Hx Hm Hall Hrange.
  assert (Hwx : width None x = Z.of_nat m).
  { unfold width. rewrite (max_len_uniform m x Hx Hall). reflexivity. }
  rewrite pad_sequences_header by (first [intros _; exact Hx | lia]).
  rewrite Hwx, Nat2Z.id.
  pose proof (pad_loop_rows padding truncating m (int32 value) x [] [] Hp Ht
                Hm) as Hloop.
  rewrite !app_nil_r in Hloop. cbn [app length] in Hloop. rewrite Hloop.
  f_equal. rewrite <- list_fmap_compose.
  rewrite <- (list_fmap_id x) at 2.
  apply Forall_fmap_ext. apply Forall_forall. intros r Hr. cbn.
  rewrite Forall_forall in Hall, Hrange.
  rewrite (asarray_id r (Hrange r Hr)).
  apply pad_row_full. exact (Hall r Hr).
Qed.

(** A padded array is a fixed point: padding it again, with any valid modes
    and any fill value, returns it unchanged. *)
Theorem pad_sequences_idempotent (sequences : list (list Z))
    (maxlen : option Z) (padding truncating padding1 truncating1 : string)
    (value value1 : Z) (x : list (list Z)) :
  valid_mode padding1 -> valid_mode truncating1 ->
  sequences <> [] -> 1 <= width maxlen sequences ->
  pad_sequences sequences maxlen padding truncating value = Ok x ->
  pad_sequences x None padding1 truncating1 value1 = Ok x.
Proof.
  intros Hp Ht Hne Hw Hpad.
  rewrite pad_sequences_header in Hpad by (first [intros _; exact Hne | lia]).
  pose proof (pad_loop_int32 _ _ _ _ _ _ _ Hpad) as Hrange.
  apply pad_loop_uniform in Hpad as [Hlen Hrows].
  rewrite length_replicate in Hrows.
  apply (pad_uniform_fixed (Z.to_nat (width maxlen sequences)));
    [exact Hp|exact Ht| |lia|exact Hrows|].
  - intros ->. destruct sequences; [congruence|discriminate].
  - apply Hrange. apply Forall_replicate, Forall_replicate, int32_range.
Qed.

Lemma pad_sequences_idempotent_witness :
  pad_sequences [[0; 0; 1]; [0; 2; 3]; [4; 5; 6]] None "post" "post" 8
  = Ok [[0; 0; 1]; [0; 2; 3]; [4; 5; 6]].
Proof.
  apply (pad_sequences_idempotent [[1]; [2; 3]; [4; 5; 6]] None "pre" "pre"
                                  "post" "post" 0 8).
  - right. reflexivity.
  - right. reflexivity.
  - discriminate.
  - vm_compute. discriminate.
  - vm_compute. reflexivity.
Defined.

End PadMoreFacts.

Section PadZeroFacts.
Import Pad PadSpec.
Local Open Scope Z_scope.

(** Assigning into a row without columns: one value broadcasts to nothing,
    two or more do not fit. *)
Lemma assign_slice_empty_row (start stop : option Z) (vals : list Z) :
  (start = None /\ stop = Some (Py.len vals))
  \/ (start = Some (- Py.len vals) /\ stop = None) ->
  assign_slice [] start stop vals
  = if decide (length vals <= 1)%nat then Ok []
    else Err (ValueError "could not broadcast input array").
Proof.
  intros Hss. unfold assign_slice.
  assert (Hidx : Py.slice_indices (Py.len (@nil Z)) start stop 1 = Ok []).
  { assert (Hn : 0 <= Py.len vals) by (unfold Py.len; lia).
    change (Py.len (@nil Z)) with 0.
    unfold Py.slice_indices, Py.adjust_index.
    change (1 =? 0) with false. change (1 <? 0) with false. cbv iota.
    destruct Hss as [[-> ->]|[-> ->]].
    - destruct (Z.ltb_spec (Py.len vals) 0); [lia|].
      destruct (Z.leb_spec 0 (Py.len vals)); [|lia].
      reflexivity.
    - destruct (Z.ltb_spec (- Py.len vals) 0).
      + destruct (Z.ltb_spec (- Py.len vals + 0) 0); [|lia].
        reflexivity.
      + destruct (Z.leb_spec 0 (- Py.len vals)); [|lia].
        reflexivity. }
  rewrite Hidx. unfold mbind, result_bind.
  destruct vals as [|v [|v1 vals]]; reflexivity.
Qed.

Lemma set_row_empty (n idx : nat) (start stop : option Z) (vals : list Z) :
  (idx < n)%nat ->
  (start = None /\ stop = Some (Py.len vals))
  \/ (start = Some (- Py.len vals) /\ stop = None) ->
  set_row (replicate n []) idx start stop vals
  = if decide (length vals <= 1)%nat then Ok (replicate n [])
    else Err (ValueError "could not broadcast input array").
Proof.
  intros Hidx Hss. unfold set_row.
  rewrite lookup_replicate_2 by exact Hidx.
  rewrite assign_slice_empty_row by exact Hss.
  destruct (decide (length vals <= 1)%nat); [|reflexivity].
  unfold mbind, result_bind, mret, result_ret. f_equal.
  apply list_insert_id, lookup_replicate_2. exact Hidx.
Qed.

Lemma pad_loop_zero_post padding (n idx : nat) (sequences : list (list Z)) :
  valid_mode padding -> (idx + length sequences <= n)%nat ->
  pad_loop 0 padding "post" idx sequences (replicate n [])
  = Ok (replicate n []).
Proof.
  intros Hp. revert idx.
  induction sequences as [|s rest IH]; intros idx Hn; [reflexivity|].
  simpl length in Hn. cbn [pad_loop].
  destruct (Py.len s =? 0); [apply IH; lia|].
  change (String.eqb "post" "pre") with false.
  change (String.eqb "post" "post") with true. cbv iota.
  rewrite slice_prefix by lia. change (Z.to_nat 0) with 0%nat.
  rewrite take_0. unfold mbind at 1, result_bind at 1.
  destruct Hp as [->| ->].
  - change (String.eqb "pre" "post") with false.
    change (String.eqb "pre" "pre") with true. cbv iota.
    rewrite set_row_empty by (first [lia | right; split; reflexivity]).
    simpl. apply IH. lia.
  - change (String.eqb "post" "post") with true. cbv iota.
    rewrite set_row_empty by (first [lia | left; split; reflexivity]).
    simpl. apply IH. lia.
Qed.

Lemma pad_loop_zero_pre padding (n idx : nat) (sequences : list (list Z)) :
  (idx + length sequences <= n)%nat ->
  Exists (fun s => (2 <= length s)%nat) sequences ->
  is_value_error (pad_loop 0 padding "pre" idx sequences (replicate n []))
  = true.
Proof.
  revert idx. induction sequences as [|s rest IH]; intros idx Hn Hex.
  - inversion Hex.
  - simpl length in Hn. cbn [pad_loop].
    destruct (Z.eqb_spec (Py.len s) 0) as [Hs|Hs].
    + apply IH; [lia|]. apply Exists_cons in Hex as [Hex|Hex]; [|exact Hex].
      unfold Py.len in Hs. lia.
    + change (String.eqb "pre" "pre") with true. cbv iota.
      rewrite slice_suffix_zero. unfold mbind at 1, result_bind at 1.
      cbv zeta.
      assert (Hlen : length (np_asarray s) = length s)
        by (unfold np_asarray; apply length_fmap).
      destruct (String.eqb padding "post").
      * rewrite set_row_empty by (first [lia | left; split; reflexivity]).
        rewrite Hlen.
        destruct (decide (length s <= 1)%nat) as [Hle|Hgt]; [|reflexivity].
        simpl. apply IH; [lia|].
        apply Exists_cons in Hex as [Hex|Hex]; [lia|exact Hex].
      * destruct (String.eqb padding "pre"); [|reflexivity].
        rewrite set_row_empty by (first [lia | right; split; reflexivity]).
        rewrite Hlen.
        destruct (decide (length s <= 1)%nat) as [Hle|Hgt]; [|reflexivity].
        simpl. apply IH; [lia|].
        apply Exists_cons in Hex as [Hex|Hex]; [lia|exact Hex].
Qed.

(** [maxlen=0].  With [truncating='post'] every sequence is cut to nothing
    and the result has one empty row per sequence.  With the default
    [truncating='pre'] nothing is cut ([s[-0:]] is the whole of [s]), and a
    sequence of two or more timesteps cannot be stored in a row without
    columns: [ValueError]. *)
Theorem pad_sequences_zero_maxlen (sequences : list (list Z))
    (padding : string) (value : Z) :
  (valid_mode padding ->
   pad_sequences sequences (Some 0) padding "post" value
   = Ok (replicate (length sequences) []))
  /\ (Exists (fun s => (2 <= length s)%nat) sequences ->
      is_value_error (pad_sequences sequences (Some 0) padding "pre" value)
      = true).
Proof.
  unfold pad_sequences, np_full. change (0 <? 0) with false. cbv iota.
  unfold mbind, result_bind. change (Z.to_nat 0) with 0%nat.
  change (replicate 0 value) with (@nil Z). split.
  - intros Hp. apply pad_loop_zero_post; [exact Hp|lia].
  - intros Hex. apply pad_loop_zero_pre; [lia|exact Hex].
Qed.

End PadZeroFacts.

(** [pad_sequences([[1, 2]], maxlen=0)] raises with the default modes. *)
Lemma pad_sequences_zero_maxlen_witness :
  is_value_error (Pad.pad_sequences [[1; 2]]%Z (Some 0%Z) "pre" "pre" 0%Z)
  = true.
Proof.
  apply (proj2 (pad_sequences_zero_maxlen [[1; 2]]%Z "pre" 0%Z)).
  apply Exists_cons_hd. simpl. lia.
Defined.

(** ** [_remove_long_seq] *)

Section RemoveLongSeqFacts.
Import RemoveLongSeq.
Context {X Y : Type}.
Local Open Scope Z_scope.

Lemma remove_loop_spec (maxlen : Z) (pairs : list (list X * Y))
    (new_seq : list (list X)) (new_label : list Y) :
  remove_loop maxlen pairs new_seq new_label
  = (new_seq ++ (filter (fun xy => Py.len xy.1 < maxlen) pairs).*1,
     new_label ++ (filter (fun xy => Py.len xy.1 < maxlen) pairs).*2).
Proof.
  revert new_seq new_label.
  induction pairs as [|xy pairs IH]; intros new_seq new_label.
  - simpl. rewrite !app_nil_r. reflexivity.
  - cbn [remove_loop]. destruct (Z.ltb_spec (Py.len xy.1) maxlen) as [Hlt|Hge].
    + rewrite IH, filter_cons_True by exact Hlt.
      rewrite !fmap_cons, <- !app_assoc. reflexivity.
    + rewrite IH, filter_cons_False by lia. reflexivity.
Qed.

(** [_remove_long_seq] keeps, in order, exactly the (sequence, label) pairs
    whose sequence is strictly shorter than [maxlen]: a sequence of length
    [maxlen] is removed.  The two results have the same length, also when
    the inputs have not (the longer input is cut by [zip]). *)
Theorem remove_long_seq_spec (maxlen : Z) (seq : list (list X))
    (label : list Y) :
  let kept := filter (fun xy : list X * Y => Py.len xy.1 < maxlen)
                     (zip seq label) in
  _remove_long_seq maxlen seq label = (kept.*1, kept.*2)
  /\ zip (_remove_long_seq maxlen seq label).1
         (_remove_long_seq maxlen seq label).2 = kept
  /\ length (_remove_long_seq maxlen seq label).1
     = length (_remove_long_seq maxlen seq label).2
  /\ Forall (fun x => Py.len x < maxlen) (_remove_long_seq maxlen seq label).1.
Proof.
  intros kept. unfold _remove_long_seq. rewrite remove_loop_spec. fold kept.
  simpl. split; [reflexivity|]. split; [apply zip_fst_snd|].
  split; [rewrite !length_fmap; reflexivity|].
  apply Forall_fmap, Forall_forall. intros xy Hxy.
  apply list_elem_of_filter in Hxy as [Hlt _]. exact Hlt.
Qed.

(** Filtering again with the same or a larger bound changes nothing, and
    nothing is removed from inputs of equal length whose sequences are all
    short enough. *)
Theorem remove_long_seq_idempotent (maxlen maxlen1 : Z)
    (seq : list (list X)) (label : list Y) :
  (maxlen <= maxlen1 ->
   _remove_long_seq maxlen1 (_remove_long_seq maxlen seq label).1
                            (_remove_long_seq maxlen seq label).2
   = _remove_long_seq maxlen seq label)
  /\ (length seq = length label ->
      Forall (fun x => Py.len x < maxlen) seq ->
      _remove_long_seq maxlen seq label = (seq, label)).
Proof.
  assert (Hkeep : forall m (l : list (list X * Y)),
            Forall (fun xy => Py.len xy.1 < m) l ->
            filter (fun xy : list X * Y => Py.len xy.1 < m) l = l).
  { intros m l Hl. induction Hl as [|xy l Hxy Hl IH]; [reflexivity|].
    rewrite filter_cons_True by exact Hxy. rewrite IH. reflexivity. }
  split.
  - intros Hle. unfold _remove_long_seq. rewrite !remove_loop_spec.
    cbn [fst snd app]. rewrite zip_fst_snd, Hkeep; [reflexivity|].
    apply Forall_forall. intros xy Hxy.
    apply list_elem_of_filter in Hxy as [Hlt _]. lia.
  - intros Hlen Hall. unfold _remove_long_seq. rewrite remove_loop_spec.
    cbn [app]. rewrite Hkeep.
    + rewrite fst_zip, snd_zip by lia. reflexivity.
    + apply Forall_forall. intros [x y] Hxy. simpl.
      apply elem_of_zip_l in Hxy.
      rewrite Forall_forall in Hall. apply Hall. exact Hxy.
Qed.

End RemoveLongSeqFacts.

(** Bound 3 after bound 2 on three labelled sequences. *)
Lemma remove_long_seq_idempotent_witness :
  RemoveLongSeq._remove_long_seq 3
    (RemoveLongSeq._remove_long_seq 2 [[1]; [1; 2]; []]%Z [7; 8; 9]%Z).1
    (RemoveLongSeq._remove_long_seq 2 [[1]; [1; 2]; []]%Z [7; 8; 9]%Z).2
  = RemoveLongSeq._remove_long_seq 2 [[1]; [1; 2]; []]%Z [7; 8; 9]%Z.
Proof.
  apply (proj1 (remove_long_seq_idempotent 2 3 [[1]; [1; 2]; []]%Z
                  [7; 8; 9]%Z)).
  lia.
Defined.

(** ** More on [TimeseriesGenerator] *)

Section TimeseriesMoreFacts.
Import TimeseriesGenerator TimeseriesSpec.
Context `{RandomGen}.
Context `{np : Numpy}.
Context {A B : Type}.
Local Open Scope Z_scope.

(** Construction fails exactly when data and targets differ in length or the
    first end-point lies beyond [end_index] (by default the last index of
    the data); the error is a [ValueError]. *)
Lemma init_succeeds_iff (data : list A) (targets : list B)
    (L sr st s : Z) (e : option Z) (sh rv : bool) (bs : Z) :
  let last := match e with None => Py.len data - 1 | Some e1 => e1 end in
  (is_ok (__init__ data targets L sr st s e sh rv bs) = true
     <-> Datatypes.length data = Datatypes.length targets /\ s + L <= last)
  /\ (is_ok (__init__ data targets L sr st s e sh rv bs) = false
     -> is_value_error (__init__ data targets L sr st s e sh rv bs) = true).
Proof.
  intros last. unfold __init__. fold last. unfold Py.len.
  destruct (Z.eqb_spec (Z.of_nat (Datatypes.length data))
                       (Z.of_nat (Datatypes.length targets))) as [El|El];
    simpl.
  - rewrite Z.gtb_ltb. destruct (Z.ltb_spec last (s + L)) as [Es|Es]; simpl.
    + split; [split; [discriminate|lia]|reflexivity].
    + split; [split; [lia|reflexivity]|discriminate].
  - split; [split; [discriminate|lia]|reflexivity].
Qed.

(** Every end-point of a batch lies between [start_index] and [end_index]
    (sequential batches: for a positive stride and a batch at or after the
    first). *)
Lemma rows_in_range (g : @t A B) (index : Z) (s0 s1 : rng) (rs : list Z) :
  rows g index s0 = Ok (rs, s1) ->
  (shuffle g = false -> 1 <= stride g /\ 0 <= batch_size g * index) ->
  forall r, r ∈ rs -> start_index g <= r <= end_index g.
Proof.
  unfold rows. destruct (shuffle g).
  - intros Hrows _. unfold Random.np_randint in Hrows.
    destruct (Z.leb_spec (end_index g + 1) (start_index g)) as [?|Hlt];
      [discriminate|].
    destruct (batch_size g <? 0); [discriminate|].
    revert rs s0 Hrows.
    induction (Z.to_nat (batch_size g)) as [|n IH]; intros rs s0 Hrows.
    + injection Hrows as <- <-. intros r Hr. inversion Hr.
    + cbn [Random.draws] in Hrows.
      apply bind_inv in Hrows as (j & s2 & Hj & Hrows).
      apply bind_inv in Hrows as (rest & s3 & Hrest & Hrows).
      injection Hrows as <- <-.
      unfold Random.randbelow in Hj. injection Hj as Hj.
      pose proof (rng_randbelow_range (end_index g + 1 - start_index g) s0
                    ltac:(lia)) as Hrange.
      rewrite Hj in Hrange. simpl in Hrange.
      intros r Hr. apply elem_of_cons in Hr as [->|Hr]; [lia|].
      exact (IH rest s2 Hrest r Hr).
  - intros Hrows Hseq. destruct (Hseq eq_refl) as [Hst Hb].
    unfold lift, Py.arange in Hrows.
    destruct (Z.eqb_spec (stride g) 0) as [?|_]; [lia|].
    injection Hrows as <- <-. intros r Hr.
    apply elem_of_progression in Hr as (k & Hk & ->).
    unfold Py.progression_count in Hk.
    destruct (Z.ltb_spec 0 (stride g)); [|lia].
    set (i := start_index g + batch_size g * stride g * index) in *.
    set (stop := Z.min (i + batch_size g * stride g) (end_index g + 1)) in *.
    destruct (Z.ltb_spec i stop) as [Hi|Hi]; [|simpl in Hk; lia].
    assert (Hq : Z.of_nat k <= (stop - i - 1) / stride g) by lia.
    pose proof (Z.mul_div_le (stop - i - 1) (stride g) ltac:(lia)) as Hm.
    assert (0 <= batch_size g * stride g * index) by nia.
    subst stop i. nia.
Qed.

(** [__getitem__] once the end-points, the windows and the targets of the
    batch are known, for windows of one length. *)
Lemma getitem_uniform (g : @t A B) (index : Z) (s0 s1 : rng) (rs : list Z)
    (ws : list (list A)) (tgts : list B) :
  rows g index s0 = Ok (rs, s1) ->
  for_rows (fun row => Py.slice (data g) (Some (row - length g)) (Some row)
                                (sampling_rate g)) rs = Ok ws ->
  uniform ws = true ->
  for_rows (fun row => Py.getitem (targets g) row) rs = Ok tgts ->
  __getitem__ g index s0
  = if reverse g then
      match ws with
      | [] => Err (IndexError "too many indices for array")
      | _ :: _ => Ok ((@List.rev A <$> ws, tgts), s1)
      end
    else Ok ((ws, tgts), s1).
Proof.
  intros Hrows Hws Hu Ht. unfold __getitem__, mbind, M_bind.
  rewrite Hrows. unfold lift. rewrite Hws, (np_array_uniform ws Hu), Ht.
  destruct (reverse g); [|reflexivity].
  unfold reverse_axis1. destruct ws as [|w ws]; [reflexivity|].
  rewrite Hu. reflexivity.
Qed.

(** What a batch holds.  For a generator whose windows lie inside the data
    ([0 <= length <= start_index] and [end_index < len(data)]), with a
    positive sampling rate: the batch has one sample and one target per
    end-point [r]; the target is [targets[r]], and the sample is every
    [sampling_rate]-th data point of [data[r - length : r]] (so the point at
    [r] itself is never part of it), reversed when [reverse] is set.  With
    [reverse] a batch without end-points raises [IndexError] instead (an
    array without rows has no second axis to reverse). *)
Theorem getitem_windows (g : @t A B) (index : Z) (s0 s1 : rng)
    (rs : list Z) :
  rows g index s0 = Ok (rs, s1) ->
  (shuffle g = false -> 1 <= stride g /\ 0 <= batch_size g * index) ->
  0 <= length g <= start_index g ->
  end_index g < Py.len (data g) ->
  Py.len (data g) = Py.len (targets g) ->
  1 <= sampling_rate g ->
  ((reverse g = true -> rs <> []) ->
   exists samples tgts,
     __getitem__ g index s0 = Ok ((samples, tgts), s1)
     /\ Datatypes.length samples = Datatypes.length rs
     /\ Datatypes.length tgts = Datatypes.length rs
     /\ forall (k : nat) r, rs !! k = Some r ->
          start_index g <= r <= end_index g
          /\ tgts !! k = targets g !! Z.to_nat r
          /\ exists w,
               samples !! k = Some (if reverse g then List.rev w else w)
               /\ Datatypes.length w
                  = Z.to_nat ((length g + sampling_rate g - 1)
                              / sampling_rate g)
               /\ forall j : nat, (j < Datatypes.length w)%nat ->
                    w !! j = data g !! Z.to_nat
                               (r - length g + sampling_rate g * Z.of_nat j))
  /\ (reverse g = true -> rs = [] ->
      exists msg, __getitem__ g index s0 = Err (IndexError msg)).
Proof.
  intros Hrows Hseq HL HE Hlen Hsr.
  pose proof (rows_in_range g index s0 s1 rs Hrows Hseq) as Hrange.
  destruct (windows_uniform g rs ltac:(lia) ltac:(lia))
    as (ws & Hws & Lws & Hall).
  { intros r Hr. apply Hrange in Hr. lia. }
  destruct (for_rows_ok (fun row => Py.getitem (targets g) row) rs)
    as (tgts & Ht & Lt).
  { intros r Hr. apply Hrange in Hr.
    destruct (getitem_ok (targets g) r ltac:(lia)) as (x & Hx & _). eauto. }
  pose proof (getitem_uniform g index s0 s1 rs ws tgts Hrows Hws
                (uniform_lengths _ ws Hall) Ht) as Hget.
  split.
  - intros Hne.
    apply for_rows_lookup in Hws as [_ Hs].
    apply for_rows_lookup in Ht as [_ Ht].
    assert (Hmain : forall (k : nat) r, rs !! k = Some r ->
      start_index g <= r <= end_index g
      /\ tgts !! k = targets g !! Z.to_nat r
      /\ exists w, ws !! k = Some w
           /\ Datatypes.length w
              = Z.to_nat ((length g + sampling_rate g - 1) / sampling_rate g)
           /\ forall j : nat, (j < Datatypes.length w)%nat ->
                w !! j = data g !! Z.to_nat
                           (r - length g + sampling_rate g * Z.of_nat j)).
    { intros k r Hk.
      assert (Hr : start_index g <= r <= end_index g).
      { apply Hrange. apply list_elem_of_lookup. exists k. exact Hk. }
      split; [exact Hr|]. split.
      - destruct (Ht k r Hk) as (c & Hc & Hgetk). rewrite Hc.
        destruct (getitem_ok (targets g) r ltac:(lia)) as (x & Hx & Hlook).
        rewrite Hlook. congruence.
      - destruct (Hs k r Hk) as (w & Hw & Hslice).
        destruct (slice_strided (data g) (r - length g) r (sampling_rate g)
                    ltac:(lia) ltac:(lia) Hsr) as (w1 & Hw1 & Hl1 & Hj1).
        assert (w1 = w) by congruence. subst w1.
        exists w. split; [exact Hw|]. split; [|exact Hj1].
        rewrite Hl1. f_equal. f_equal. lia. }
    destruct (reverse g).
    + assert (Hws_ne : ws <> []).
      { intros ->. destruct rs; [exact (Hne eq_refl eq_refl)|discriminate Lws]. }
      exists (@List.rev A <$> ws), tgts.
      split; [rewrite Hget; destruct ws; [congruence|reflexivity]|].
      split; [rewrite length_fmap; exact Lws|]. split; [exact Lt|].
      intros k r Hk. destruct (Hmain k r Hk) as (Hr & Htg & w & Hw & Hlw & Hj).
      split; [exact Hr|]. split; [exact Htg|]. exists w.
      split; [rewrite list_lookup_fmap, Hw; reflexivity|]. split; assumption.
    + exists ws, tgts. split; [exact Hget|]. split; [exact Lws|].
      split; [exact Lt|]. exact Hmain.
  - intros Hrev ->. destruct ws; [|discriminate Lws].
    rewrite Hget, Hrev. eexists. reflexivity.
Qed.

Lemma draws_length low high (n : nat) (s0 : rng) :
  exists rs s1, Random.draws low high n s0 = Ok (rs, s1)
                /\ Datatypes.length rs = n.
Proof.
  revert s0. induction n as [|n IH]; intros s0.
  - exists [], s0. split; reflexivity.
  - cbn [Random.draws]. unfold mbind, M_bind, Random.randbelow.
    destruct (rng_randbelow (high - low) s0) as [j s2].
    destruct (IH s2) as (rest & s3 & Hrest & Hlen). rewrite Hrest.
    exists ((low + j) :: rest), s3. split; [reflexivity|].
    simpl. rewrite Hlen. reflexivity.
Qed.

(** With [shuffle=True] the batch index plays no part.  For a generator
    whose windows lie inside the data ([0 <= length <= start_index <=
    end_index < len(data)]) and [sampling_rate <> 0]: every batch, at any
    index, holds exactly [batch_size >= 1] samples whose end-points are
    drawn from [[start_index, end_index]]; [batch_size = 0] gives an empty
    batch, or [IndexError] with [reverse]; a negative [batch_size] raises
    [ValueError]. *)
Theorem shuffled_batch (g : @t A B) (index : Z) (s0 : rng) :
  shuffle g = true ->
  0 <= length g <= start_index g ->
  start_index g <= end_index g ->
  end_index g < Py.len (data g) ->
  Py.len (targets g) = Py.len (data g) ->
  sampling_rate g <> 0 ->
  (1 <= batch_size g ->
   exists rs samples tgts s1,
     rows g index s0 = Ok (rs, s1)
     /\ __getitem__ g index s0 = Ok ((samples, tgts), s1)
     /\ Datatypes.length rs = Z.to_nat (batch_size g)
     /\ Datatypes.length samples = Z.to_nat (batch_size g)
     /\ Datatypes.length tgts = Z.to_nat (batch_size g)
     /\ forall r, r ∈ rs -> start_index g <= r <= end_index g)
  /\ (batch_size g = 0 ->
      (reverse g = false -> __getitem__ g index s0 = Ok (([], []), s0))
      /\ (reverse g = true ->
          exists msg, __getitem__ g index s0 = Err (IndexError msg)))
  /\ (batch_size g < 0 ->
      exists e, __getitem__ g index s0 = Err e
                /\ is_value_error (__getitem__ g index s0) = true).
Proof.
  intros Hsh HL HSE Hhi Htg Hsr.
  assert (Hrows_eq : 0 <= batch_size g ->
            rows g index s0
            = Random.draws (start_index g) (end_index g + 1)
                           (Z.to_nat (batch_size g)) s0).
  { intros Hbs. unfold rows, Random.np_randint. rewrite Hsh.
    destruct (Z.leb_spec (end_index g + 1) (start_index g)); [lia|].
    destruct (Z.ltb_spec (batch_size g) 0); [lia|]. reflexivity. }
  split; [|split].
  - intros Hbs.
    destruct (draws_length (start_index g) (end_index g + 1)
                (Z.to_nat (batch_size g)) s0) as (rs & s1 & Hd & Hlen).
    assert (Hrows : rows g index s0 = Ok (rs, s1))
      by (rewrite Hrows_eq by lia; exact Hd).
    pose proof (rows_in_range g index s0 s1 rs Hrows
                  ltac:(rewrite Hsh; discriminate)) as Hrange.
    destruct (getitem_batch g index s0 s1 rs Hrows Hsr ltac:(lia))
      as (samples & tgts & Hget & Ls & Lt).
    { intros r Hr. apply Hrange in Hr. lia. }
    { exact Htg. }
    { intros _ ->. simpl in Hlen. lia. }
    exists rs, samples, tgts, s1.
    split; [exact Hrows|]. split; [exact Hget|]. split; [exact Hlen|].
    split; [congruence|]. split; [congruence|exact Hrange].
  - intros Hbs.
    assert (Hrows : rows g index s0 = Ok ([], s0)).
    { rewrite Hrows_eq by lia. rewrite Hbs. reflexivity. }
    exact (getitem_no_rows g index s0 s0 Hrows).
  - intros Hbs. unfold __getitem__, mbind, M_bind, rows, Random.np_randint.
    rewrite Hsh.
    destruct (Z.leb_spec (end_index g + 1) (start_index g)); [lia|].
    destruct (Z.ltb_spec (batch_size g) 0); [|lia].
    unfold raise. eexists. split; reflexivity.
Qed.

End TimeseriesMoreFacts.

(** The windows of six data points: end-points 4 and 5, two points each. *)
Lemma getitem_windows_witness :
  exists samples tgts,
    TimeseriesGenerator.__getitem__ (H := LCG.gen) (np := numpy_strict)
                                    example_windows 0 0%Z
      = Ok ((samples, tgts), 0%Z)
    /\ length samples = 2%nat /\ length tgts = 2%nat.
Proof.
  destruct (proj1 (getitem_windows (H := LCG.gen) (np := numpy_strict)
              example_windows 0 0%Z 0%Z [4; 5]%Z
              ltac:(vm_compute; reflexivity)
              ltac:(intros _; simpl; lia)
              ltac:(simpl; lia)
              ltac:(vm_compute; reflexivity)
              ltac:(vm_compute; reflexivity)
              ltac:(simpl; lia)))
    as (samples & tgts & Hget & Ls & Lt & _).
  - intros _. discriminate.
  - exists samples, tgts. split; [exact Hget|]. split; assumption.
Defined.

(** The reversed windows themselves: points 0 and 2 before end-point 4,
    points 1 and 3 before end-point 5, last point first. *)
Example example_windows_batch :
  TimeseriesGenerator.__getitem__ (H := LCG.gen) (np := numpy_strict)
                                  example_windows 0 0%Z
  = Ok (([[30; 10]; [40; 20]]%Z, [5; 6]%Z), 0%Z)
  /\ TimeseriesGenerator.__getitem__ (H := LCG.gen) (np := numpy_strict)
                                     example_windows 1 0%Z
     = Err (IndexError "too many indices for array").
Proof. split; vm_compute; reflexivity. Qed.

(** A shuffled batch of three out of the end-points 2, 3 and 4, asked for
    at an index far beyond the number of batches. *)
Lemma shuffled_batch_witness :
  exists rs samples tgts s1,
    TimeseriesGenerator.rows (H := LCG.gen) example_shuffled 7 0%Z
      = Ok (rs, s1)
    /\ TimeseriesGenerator.__getitem__ (H := LCG.gen) (np := numpy_strict)
                                       example_shuffled 7 0%Z
       = Ok ((samples, tgts), s1)
    /\ length rs = 3%nat /\ length samples = 3%nat /\ length tgts = 3%nat
    /\ forall r, r ∈ rs -> (2 <= r <= 4)%Z.
Proof.
  refine (proj1 (shuffled_batch (H := LCG.gen) (np := numpy_strict)
                   example_shuffled 7 0%Z _ _ _ _ _ _) _).
  - reflexivity.
  - simpl. lia.
  - simpl. lia.
  - vm_compute. reflexivity.
  - vm_compute. reflexivity.
  - simpl. lia.
  - simpl. lia.
Defined.

Section ConfigMoreFacts.
Import TimeseriesGenerator TimeseriesSpec.
Context {A B : Type}.
Context (dumps_data : list A -> option string).
Context (dumps_targets : list B -> option string).
Local Open Scope Z_scope.


End ConfigMoreFacts.


(** ** More on [skipgrams] *)

Section SkipgramMoreFacts.
Import Skipgrams SkipgramSpec.
Context `{RandomGen}.
Local Open Scope Z_scope.

Lemma getitem_inv {X} (l : list X) (i : Z) (x : X) :
  Py.getitem l i = Ok x -> - Py.len l <= i < Py.len l.
Proof.
  unfold Py.getitem.
  destruct (Z.ltb_spec i 0);
    [destruct (Z.ltb_spec (i + Py.len l) 0); [discriminate|]
    |destruct (Z.ltb_spec i 0); [lia|]]; simpl.
  - destruct (Z.leb_spec (Py.len l) (i + Py.len l)); [discriminate|]. lia.
  - destruct (Z.leb_spec (Py.len l) i); [discriminate|]. lia.
Qed.

Lemma getitem_elem_of {X} (l : list X) (i : Z) (x : X) :
  Py.getitem l i = Ok x -> x ∈ l.
Proof.
  unfold Py.getitem. destruct (_ || _); [discriminate|].
  destruct (l !! _) as [y|] eqn:E; [|discriminate].
  intros [= <-]. eapply list_elem_of_lookup_2. exact E.
Qed.

(** The outer loop with a sampling table whose indices are all in range:
    it returns, and what it adds is a selection, in order, of what it adds
    without a table. *)
Lemma outer_table_ok sequence w cat table i rest
    (acc : list couple * list label) s :
  Forall (fun wi => wi = 0 \/ - Py.len table <= wi < Py.len table) rest ->
  exists ps s1,
    outer sequence w cat (Some table) i rest acc s
    = Ok ((acc.1 ++ ps, acc.2 ++ replicate (length ps) (positive_label cat)),
          s1)
    /\ ps `sublist_of` outer_pairs sequence w i rest.
Proof.
  revert i acc s. induction rest as [|wi rest IH]; intros i acc s Hall.
  - exists [], s. simpl. rewrite !app_nil_r. destruct acc.
    split; [reflexivity|constructor].
  - apply Forall_cons in Hall as [Hwi Hall]. cbn [outer outer_pairs].
    destruct (Z.eqb_spec wi 0) as [Hz|Hz]; [apply IH; exact Hall|].
    destruct Hwi as [?|Hwi]; [contradiction|].
    destruct (getitem_total table wi Hwi) as [p Hp].
    unfold mbind at 1, M_bind at 1. unfold mbind at 1, M_bind at 1.
    unfold lift at 1. rewrite Hp. unfold mbind at 1, M_bind at 1.
    unfold Random.random. destruct (rng_random s) as [u s2].
    cbn [mret M_ret].
    destruct (negb (Qle_bool u p)).
    + destruct (IH (i + 1) acc s2 Hall) as (ps & s1 & Hout & Hsub).
      exists ps, s1. split; [exact Hout|].
      apply sublist_inserts_l. exact Hsub.
    + unfold mbind at 1, M_bind at 1. unfold lift.
      rewrite for_each_inner by (intros j Hj; eapply elem_of_window; exact Hj).
      set (fm := flat_map (inner_pairs sequence i wi) (window sequence w i)).
      destruct (IH (i + 1)
                  (acc.1 ++ fm,
                   acc.2 ++ replicate (length fm) (positive_label cat))
                  s2 Hall) as (ps & s1 & Hout & Hsub).
      exists (fm ++ ps), s1. split.
      * rewrite Hout. cbn [fst snd]. rewrite length_app, replicate_add.
        rewrite <- !app_assoc. reflexivity.
      * apply sublist_app; [reflexivity|exact Hsub].
Qed.

Lemma outer_layout sequence w cat table i rest
    (acc : list couple * list label) s :
  table_covers table rest ->
  exists ps s1,
    outer sequence w cat table i rest acc s
    = Ok ((acc.1 ++ ps, acc.2 ++ replicate (length ps) (positive_label cat)),
          s1)
    /\ ps `sublist_of` outer_pairs sequence w i rest
    /\ (table = None -> ps = outer_pairs sequence w i rest /\ s1 = s).
Proof.
  intros Hcov. destruct table as [table|].
  - destruct (outer_table_ok sequence w cat table i rest acc s Hcov)
      as (ps & s1 & Hout & Hsub).
    exists ps, s1. split; [exact Hout|]. split; [exact Hsub|discriminate].
  - exists (outer_pairs sequence w i rest), s.
    split; [apply outer_no_table|]. split; [reflexivity|]. intros _.
    split; reflexivity.
Qed.

(** The negative samples pair a word of [words] with a draw from
    [[1, vocabulary_size - 1]]. *)
Lemma negatives_range words vs ks s negs s1 :
  negatives words vs ks s = Ok (negs, s1) ->
  Forall (fun c : couple => c.1 ∈ words /\ 1 <= c.2 <= vs - 1) negs.
Proof.
  revert s negs s1. induction ks as [|i ks IH]; intros s negs s1.
  - intros [= <- _]. constructor.
  - cbn [negatives]. intros E.
    apply bind_inv in E as (x & s2 & Hx & E).
    apply bind_inv in E as (r & s3 & Hr & E).
    apply bind_inv in E as (rest & s4 & Hrest & E).
    injection E as <- _. constructor; [|exact (IH _ _ _ Hrest)].
    cbn [fst snd]. split.
    + unfold lift in Hx. destruct (Py.len words =? 0); [discriminate|].
      destruct (Py.getitem words _) as [x1|] eqn:Eg; [|discriminate].
      injection Hx as <- _. eapply getitem_elem_of. exact Eg.
    + unfold Random.randint in Hr.
      destruct (Z.leb_spec (vs - 1 + 1 - 1) 0) as [|Hpos]; [discriminate|].
      apply bind_inv in Hr as (j & s5 & Hj & Hr). assert (Hrj : r = 1 + j) by (injection Hr; congruence).
      assert (Hj1 : (rng_randbelow (vs - 1 + 1 - 1) s2).1 = j)
        by (unfold Random.randbelow in Hj; injection Hj; intros E;
            rewrite E; reflexivity).
      pose proof (rng_randbelow_range (vs - 1 + 1 - 1) s2 Hpos) as Hrange.
      rewrite Hj1 in Hrange. lia.
Qed.

(** Everything before the final shuffle: the positive couples first, then
    the negative ones, with as many labels of each kind. *)
Lemma collect_layout sequence (vs w : Z) (ns : Q) cat table s :
  table_covers table sequence ->
  ((0 < ns)%Q -> 2 <= vs) ->
  exists ps negs s1,
    collect sequence vs w ns cat table s
    = Ok ((ps ++ negs,
           replicate (length ps) (positive_label cat)
           ++ replicate (length negs) (negative_label cat)), s1)
    /\ ps `sublist_of` outer_pairs sequence w 0 sequence
    /\ (table = None -> ps = outer_pairs sequence w 0 sequence)
    /\ length negs = num_negative_samples (length ps) ns
    /\ Forall (fun c : couple => c.1 ∈ ps.*1 /\ 1 <= c.2 <= vs - 1) negs.
Proof.
  intros Hcov Hvs.
  destruct (outer_layout sequence w cat table 0 sequence ([], []) s Hcov)
    as (ps & s1 & Hout & Hsub & Hnone).
  cbn [fst snd app] in Hout.
  assert (Hpos : Forall no_zero_token ps).
  { apply Forall_forall. intros c Hc.
    pose proof (outer_pairs_no_zero sequence w 0 sequence) as Hall.
    rewrite Forall_forall in Hall. apply Hall.
    eapply sublist_subseteq; [exact Hsub|exact Hc]. }
  unfold collect. rewrite (bind_Ok _ _ _ _ _ Hout). cbn [fst snd].
  unfold num_negative_samples. cbv zeta.
  destruct (Qle_bool (Float64.round ns) 0) eqn:Ens; cbn [negb].
  - exists ps, [], s1. cbn [length replicate]. rewrite !app_nil_r.
    split; [reflexivity|]. split; [exact Hsub|].
    split; [intros Ht; apply Hnone; exact Ht|]. split; [reflexivity|constructor].
  - assert (Hns : (0 < ns)%Q) by (apply round_positive; exact Ens).
    specialize (Hvs Hns).
    destruct (shuffle_ok (fst <$> ps) s1) as (words & s2 & Hsh & Hperm).
    rewrite (bind_Ok _ _ _ _ _ Hsh).
    replace (Py.len (replicate (length ps) (positive_label cat)))
      with (Z.of_nat (length ps))
      by (unfold Py.len; rewrite length_replicate; reflexivity).
    set (num := Py.int (Float64.mul (Float64.of_int (Z.of_nat (length ps)))
                                    (Float64.round ns))).
    destruct (negatives_ok words vs (Py.range 0 num) s2)
      as (negs & s3 & Hneg & Hlen & _).
    { destruct ps as [|c ps'] eqn:Eps.
      - left. subst num. simpl length. change (Z.of_nat 0) with 0.
        rewrite int_of_zero. reflexivity.
      - right. split; [|exact Hvs]. intros ->.
        apply Permutation_nil_l in Hperm. discriminate. }
    { rewrite Hperm. apply Forall_fmap. eapply Forall_impl; [exact Hpos|].
      intros c [Hc _]. exact Hc. }
    rewrite (bind_Ok _ _ _ _ _ Hneg).
    assert (Hlen1 : length negs = Z.to_nat num).
    { rewrite Hlen. unfold Py.range. rewrite progression_length. f_equal. lia. }
    exists ps, negs, s3. split.
    { cbn [mret M_ret fst snd]. rewrite Hlen1. reflexivity. }
    split; [exact Hsub|]. split; [intros Ht; apply Hnone; exact Ht|].
    split; [exact Hlen1|].
    eapply Forall_impl; [exact (negatives_range _ _ _ _ _ _ Hneg)|].
    intros c [Hc Hr]. split; [|exact Hr]. rewrite <- Hperm. exact Hc.
Qed.

(** Without shuffling and without a sampling table the result is laid out
    as the code builds it: first the positive couples, in the order of the
    two loops, then [int(P * negative_samples)] negative couples ([P] the
    number of positive ones, the product computed in floating point:
    [num_negative_samples]), each made of the first word of some positive
    couple and a random word in [[1, vocabulary_size - 1]]: a "negative"
    couple may therefore repeat a positive one.  The labels follow the same
    layout. *)
Theorem skipgrams_unshuffled_layout (sequence : list Z) (vs w : Z) (ns : Q)
    (cat : bool) (seed : option Z) (s : rng) :
  ((0 < ns)%Q -> 2 <= vs) ->
  let pos := outer_pairs sequence w 0 sequence in
  exists negs s1,
    skipgrams sequence vs w ns false cat None seed s
    = Ok ((pos ++ negs,
           replicate (length pos) (positive_label cat)
           ++ replicate (length negs) (negative_label cat)), s1)
    /\ length pos = cooccurrence_count sequence w
    /\ length negs = num_negative_samples (length pos) ns
    /\ Forall (fun c : couple => c.1 ∈ pos.*1 /\ 1 <= c.2 <= vs - 1) negs.
Proof.
  intros Hvs pos.
  destruct (collect_layout sequence vs w ns cat None s I Hvs)
    as (ps & negs & s1 & Hcol & _ & Hps & Hlen & Hneg).
  specialize (Hps eq_refl). subst ps. fold pos in Hcol, Hlen, Hneg.
  exists negs, s1. unfold skipgrams. rewrite (bind_Ok _ _ _ _ _ Hcol).
  split; [reflexivity|]. split; [apply positives_count|].
  split; assumption.
Qed.

Lemma count_positive_layout cat (n m : nat) :
  count_positive (replicate n (positive_label cat)
                  ++ replicate m (negative_label cat)) = n.
Proof.
  rewrite count_positive_app, count_positive_positives,
    count_positive_negatives. lia.
Qed.

(** With or without a sampling table (whose indices must cover the tokens)
    and with or without shuffling, [skipgrams] returns; no couple contains
    token 0; there is one label per couple, each the positive or the
    negative label; subsampling only removes positive couples; and for [p]
    positive labels there are [int(p * negative_samples)] negative ones,
    the product computed in floating point ([num_negative_samples]). *)
Theorem skipgrams_sample_count (sequence : list Z) (vs w : Z) (ns : Q)
    (shuffle cat : bool) (table : option (list Q)) (seed : option Z)
    (s : rng) :
  table_covers table sequence ->
  ((0 < ns)%Q -> 2 <= vs) ->
  exists couples labels s1,
    skipgrams sequence vs w ns shuffle cat table seed s
    = Ok ((couples, labels), s1)
    /\ Forall no_zero_token couples
    /\ length couples = length labels
    /\ Forall (fun l => l = positive_label cat \/ l = negative_label cat)
              labels
    /\ (count_positive labels <= cooccurrence_count sequence w)%nat
    /\ length labels
       = (count_positive labels
          + num_negative_samples (count_positive labels) ns)%nat.
Proof.
  intros Hcov Hvs.
  destruct (collect_layout sequence vs w ns cat table s Hcov Hvs)
    as (ps & negs & s1 & Hcol & Hsub & _ & Hlen & Hneg).
  set (cs := ps ++ negs) in *.
  set (ls := replicate (length ps) (positive_label cat)
             ++ replicate (length negs) (negative_label cat)) in *.
  assert (Hal : length cs = length ls).
  { subst cs ls. rewrite !length_app, !length_replicate. reflexivity. }
  assert (Hnz : Forall no_zero_token cs).
  { subst cs. apply Forall_app. split.
    - apply Forall_forall. intros c Hc.
      pose proof (outer_pairs_no_zero sequence w 0 sequence) as Hall.
      rewrite Forall_forall in Hall. apply Hall.
      eapply sublist_subseteq; [exact Hsub|exact Hc].
    - assert (Hps : Forall (fun c : couple => c.1 <> 0) ps).
      { apply Forall_forall. intros c Hc.
        pose proof (outer_pairs_no_zero sequence w 0 sequence) as Hall.
        rewrite Forall_forall in Hall.
        apply (Hall c). eapply sublist_subseteq; [exact Hsub|exact Hc]. }
      eapply Forall_impl; [exact Hneg|]. intros c [Hc Hr].
      split; [|lia]. apply list_elem_of_fmap in Hc as (c1 & -> & Hc1).
      rewrite Forall_forall in Hps. exact (Hps c1 Hc1). }
  assert (Hkind : Forall (fun l => l = positive_label cat
                                   \/ l = negative_label cat) ls).
  { subst ls. apply Forall_app. split; apply Forall_replicate; auto. }
  assert (Hcnt : count_positive ls = length ps).
  { subst ls. apply count_positive_layout. }
  assert (Hle : (length ps <= cooccurrence_count sequence w)%nat).
  { rewrite <- positives_count. apply sublist_length. exact Hsub. }
  assert (Htot : length ls
                 = (length ps + num_negative_samples (length ps) ns)%nat).
  { subst ls. rewrite length_app, !length_replicate, Hlen. reflexivity. }
  unfold skipgrams. rewrite (bind_Ok _ _ _ _ _ Hcol). destruct shuffle.
  - destruct (final_shuffle_spec seed cs ls s1 Hal)
      as (z & s2 & _ & _ & _ & Hfin & Hperm).
    exists z.*1, z.*2, s2. split; [exact Hfin|].
    assert (H1 : z.*1 ≡ₚ cs) by (rewrite Hperm, fst_zip by lia; reflexivity).
    assert (H2 : z.*2 ≡ₚ ls) by (rewrite Hperm, snd_zip by lia; reflexivity).
    split; [rewrite H1; exact Hnz|].
    split; [rewrite !length_fmap; reflexivity|].
    split; [rewrite H2; exact Hkind|].
    rewrite (count_positive_Permutation _ _ H2), Hcnt.
    split; [exact Hle|]. rewrite H2. exact Htot.
  - exists cs, ls, s1. split; [reflexivity|]. rewrite Hcnt. auto.
Qed.

(** The product is a floating-point one: ten positive couples and
    [negative_samples = 0.3] give three negative ones, although ten times
    the exact value of the float [0.3] is less than three. *)
Example negative_samples_rounding :
  num_negative_samples 10 (3 # 10) = 3%nat
  /\ num_negative_samples 10 (5404319552844595 # 18014398509481984) = 3%nat
  /\ Float64.round (3 # 10) = (5404319552844595 # 18014398509481984)%Q
  /\ Py.int (10 * (5404319552844595 # 18014398509481984)) = 2.
Proof. repeat split; vm_compute; reflexivity. Qed.

(** A non-zero token that is no index into the sampling table makes
    [skipgrams] raise [IndexError]. *)
Lemma outer_table_error sequence w cat table i rest
    (acc : list couple * list label) s :
  Exists (fun wi => wi <> 0 /\ ~ (- Py.len table <= wi < Py.len table)) rest ->
  exists msg,
    outer sequence w cat (Some table) i rest acc s = Err (IndexError msg).
Proof.
  revert i acc s. induction rest as [|wi rest IH]; intros i acc s Hex.
  - inversion Hex.
  - cbn [outer]. destruct (Z.eqb_spec wi 0) as [Hz|Hz].
    { apply IH. apply Exists_cons in Hex as [[Hne _]|Hex];
        [contradiction|exact Hex]. }
    unfold mbind at 1, M_bind at 1. unfold mbind at 1, M_bind at 1.
    unfold lift at 1.
    destruct (Py.getitem table wi) as [p|e] eqn:Hp.
    + apply getitem_inv in Hp.
      assert (Hex1 : Exists (fun wi => wi <> 0
                 /\ ~ (- Py.len table <= wi < Py.len table)) rest).
      { apply Exists_cons in Hex as [[_ Hout]|Hex];
          [contradiction|exact Hex]. }
      unfold mbind at 1, M_bind at 1.
      unfold Random.random. destruct (rng_random s) as [u s2].
      cbn [mret M_ret].
      destruct (negb (Qle_bool u p)); [apply IH; exact Hex1|].
      unfold mbind at 1, M_bind at 1. unfold lift.
      rewrite for_each_inner by (intros j Hj; eapply elem_of_window; exact Hj).
      apply IH. exact Hex1.
    + unfold Py.getitem in Hp. destruct (_ || _).
      * injection Hp as <-. eexists. reflexivity.
      * destruct (table !! _); [discriminate|].
        injection Hp as <-. eexists. reflexivity.
Qed.

Theorem skipgrams_table_index_error (sequence : list Z) (vs w : Z) (ns : Q)
    (shuffle cat : bool) (table : list Q) (seed : option Z) (s : rng) :
  Exists (fun wi => wi <> 0 /\ ~ (- Py.len table <= wi < Py.len table))
         sequence ->
  exists msg,
    skipgrams sequence vs w ns shuffle cat (Some table) seed s
    = Err (IndexError msg).
Proof.
  intros Hex.
  destruct (outer_table_error sequence w cat table 0 sequence ([], []) s Hex)
    as [msg Hout].
  exists msg. apply skipgrams_raises_with_collect.
  unfold collect, mbind, M_bind. rewrite Hout. reflexivity.
Qed.

Lemma filter_none {X} (P : X -> bool) (l : list X) :
  (forall x, x ∈ l -> P x = false) -> List.filter P l = [].
Proof.
  induction l as [|x l IH]; intros Hall; [reflexivity|].
  simpl. rewrite (Hall x) by left. apply IH. intros y Hy. apply Hall.
  right. exact Hy.
Qed.

Lemma token_zero sequence i :
  Forall (fun t => t = 0) sequence -> token sequence i = 0.
Proof.
  intros Hall. unfold token.
  destruct (sequence !! Z.to_nat i) as [t|] eqn:E; [|reflexivity].
  rewrite Forall_lookup in Hall. simpl. exact (Hall _ _ E).
Qed.

Lemma no_cooccurrence sequence w :
  w <= 0 \/ Forall (fun t => t = 0) sequence ->
  cooccurrence_count sequence w = 0%nat.
Proof.
  intros Hcase. unfold cooccurrence_count. rewrite filter_none; [reflexivity|].
  intros [i j] _. unfold cooccurs. cbn [fst snd].
  destruct Hcase as [Hw|Hz].
  - destruct (Z.leb_spec (Z.max 0 (i - w)) j); [|reflexivity].
    destruct (Z.ltb_spec j (Z.min (Py.len sequence) (i + w + 1)));
      [|reflexivity].
    destruct (Z.eqb_spec j i); [reflexivity|lia].
  - rewrite (token_zero sequence i Hz). rewrite !andb_false_r. reflexivity.
Qed.

(** Nothing to pair: with a window of size zero or less, or a sequence of
    zeros only (or an empty one), the result is a pair of empty lists,
    whatever the other arguments; no vocabulary size can make it raise. *)
Theorem skipgrams_no_context (sequence : list Z) (vs w : Z) (ns : Q)
    (shuffle cat : bool) (seed : option Z) (s : rng) :
  w <= 0 \/ Forall (fun t => t = 0) sequence ->
  exists s1,
    skipgrams sequence vs w ns shuffle cat None seed s = Ok (([], []), s1).
Proof.
  intros Hcase.
  assert (Hpos : outer_pairs sequence w 0 sequence = []).
  { apply length_zero_iff_nil. rewrite positives_count.
    apply no_cooccurrence. exact Hcase. }
  assert (Hcol : exists s1,
    collect sequence vs w ns cat None s = Ok (([], []), s1)).
  { unfold collect. unfold mbind at 1, M_bind at 1.
    rewrite outer_no_table, Hpos. cbn [fst snd app length replicate].
    cbv zeta.
    destruct (negb (Qle_bool (Float64.round ns) 0)); [|exists s; reflexivity].
    unfold Py.len. cbn [length fmap list_fmap]. change (Z.of_nat 0) with 0.
    rewrite int_of_zero. exists s. reflexivity. }
  destruct Hcol as [s1 Hcol].
  unfold skipgrams. rewrite (bind_Ok _ _ _ _ _ Hcol).
  destruct shuffle; [|exists s1; reflexivity].
  destruct (final_shuffle_spec seed [] [] s1 eq_refl)
    as (z & s2 & _ & _ & _ & Hfin & Hperm).
  apply Permutation_nil_r in Hperm. subst z. exists s2. exact Hfin.
Qed.

End SkipgramMoreFacts.

(** [[1, 0, 2, 3]] with one negative sample per positive couple. *)
Lemma skipgrams_unshuffled_layout_witness :
  exists negs s1,
    Skipgrams.skipgrams (H := LCG.gen) [1; 0; 2; 3]%Z 4 1 1 false false None
                        None 0%Z
    = Ok ((Skipgrams.outer_pairs [1; 0; 2; 3]%Z 1 0 [1; 0; 2; 3]%Z ++ negs,
           replicate
             (length (Skipgrams.outer_pairs [1; 0; 2; 3]%Z 1 0 [1; 0; 2; 3]%Z))
             (Skipgrams.positive_label false)
           ++ replicate (length negs) (Skipgrams.negative_label false)), s1)
    /\ length (Skipgrams.outer_pairs [1; 0; 2; 3]%Z 1 0 [1; 0; 2; 3]%Z)
       = Skipgrams.cooccurrence_count [1; 0; 2; 3]%Z 1
    /\ length negs
       = SkipgramSpec.num_negative_samples
           (length (Skipgrams.outer_pairs [1; 0; 2; 3]%Z 1 0 [1; 0; 2; 3]%Z)) 1
    /\ Forall (fun c : Skipgrams.couple =>
                 c.1 ∈ (Skipgrams.outer_pairs [1; 0; 2; 3]%Z 1 0
                          [1; 0; 2; 3]%Z).*1
                 /\ (1 <= c.2 <= 4 - 1)%Z) negs.
Proof.
  apply (skipgrams_unshuffled_layout (H := LCG.gen)).
  intros _. lia.
Defined.

(** [[1, 0, 2, 3]] with a sampling table of four entries, shuffled. *)
Lemma skipgrams_sample_count_witness :
  exists couples labels s1,
    Skipgrams.skipgrams (H := LCG.gen) [1; 0; 2; 3]%Z 4 1 1 true false
                        (Some [1; 1; 1; 1]%Q) (Some 42%Z) 0%Z
    = Ok ((couples, labels), s1)
    /\ Forall Skipgrams.no_zero_token couples
    /\ length couples = length labels
    /\ Forall (fun l => l = Skipgrams.positive_label false
                        \/ l = Skipgrams.negative_label false) labels
    /\ (Skipgrams.count_positive labels
        <= Skipgrams.cooccurrence_count [1; 0; 2; 3]%Z 1)%nat
    /\ length labels
       = (Skipgrams.count_positive labels
          + SkipgramSpec.num_negative_samples
              (Skipgrams.count_positive labels) 1)%nat.
Proof.
  apply (skipgrams_sample_count (H := LCG.gen)).
  - unfold SkipgramSpec.table_covers, Py.len. simpl.
    repeat (constructor; [first [left; reflexivity | right; lia]|]).
    constructor.
  - intros _. lia.
Defined.

(** Token 5 with a sampling table of two entries. *)
Lemma skipgrams_table_index_error_witness :
  exists msg,
    Skipgrams.skipgrams (H := LCG.gen) [1; 5]%Z 6 1 0 false false
                        (Some [1; 1]%Q) None 0%Z
    = Err (IndexError msg).
Proof.
  apply (skipgrams_table_index_error (H := LCG.gen)).
  apply Exists_cons_tl, Exists_cons_hd.
  split; [lia|]. unfold Py.len. simpl. lia.
Defined.

(** A window of size 0. *)
Lemma skipgrams_no_context_witness :
  exists s1,
    Skipgrams.skipgrams (H := LCG.gen) [1; 2; 3]%Z 1 0 1 true false None
                        (Some 1%Z) 0%Z
    = Ok (([], []), s1).
Proof.
  apply (skipgrams_no_context (H := LCG.gen)).
  left. lia.
Defined.

(** ** More on [make_sampling_table] *)

Section SamplingTableMoreFacts.
Import SamplingTable.
Local Open Scope R_scope.

Lemma probability_bounds (factor : R) (r : Z) :
  0 < factor -> (1 <= r)%Z ->
  0 < probability factor r <= 1
  /\ (probability factor r = 1 <-> 1 <= factor * inv_fq r).
Proof.
  intros Hf Hr. rewrite probability_sqrt by assumption.
  pose proof (inv_fq_pos r Hr) as Hpos.
  assert (Hx : 0 < factor * inv_fq r) by nra.
  pose proof (sqrt_lt_R0 _ Hx) as Hs.
  split.
  - split; [apply Rmin_glb_lt; lra|apply Rmin_l].
  - split.
    + intros Hmin.
      assert (H1 : 1 <= sqrt (factor * inv_fq r)).
      { rewrite <- Hmin at 1. apply Rmin_r. }
      rewrite <- (sqrt_def (factor * inv_fq r)) by lra. nra.
    + intros Hge. apply Rmin_left. rewrite <- sqrt_1.
      apply sqrt_le_1_alt. exact Hge.
Qed.

(** Every entry of the table is a probability in [(0, 1]], equal to 1
    exactly for the ranks with [sampling_factor * f(rank) >= 1]; the entries
    for ranks 0 and 1 are equal.  A table of size 1 is fine. *)
Theorem sampling_table_bounds (size : Z) (factor : R) :
  (1 <= size)%Z -> 0 < factor ->
  exists table,
    make_sampling_table size factor = Ok table
    /\ length table = Z.to_nat size
    /\ Forall (fun p => 0 < p <= 1) table
    /\ (forall (r : Z) (p : R), (0 <= r)%Z -> table !! Z.to_nat r = Some p ->
          (p = 1 <-> 1 <= factor * inv_fq (Z.max 1 r)))
    /\ ((2 <= size)%Z -> table !! 0%nat = table !! 1%nat).
Proof.
  intros Hsize Hf.
  destruct (ranks_spec size Hsize) as (rs & Hrs & Hlen & Hlook).
  unfold make_sampling_table. rewrite Hrs.
  exists (probability factor <$> rs). split; [reflexivity|].
  assert (Hentry : forall r : Z, (0 <= r < size)%Z ->
            (probability factor <$> rs) !! Z.to_nat r
            = Some (probability factor (Z.max 1 r))).
  { intros r Hr. rewrite list_lookup_fmap, (Hlook r Hr). reflexivity. }
  split; [rewrite length_fmap; exact Hlen|]. split; [|split].
  - apply Forall_lookup. intros i p Hp.
    assert (Hi : (i < Z.to_nat size)%nat).
    { apply lookup_lt_Some in Hp. rewrite length_fmap, Hlen in Hp. exact Hp. }
    rewrite <- (Nat2Z.id i), Hentry in Hp by lia. injection Hp as <-.
    apply probability_bounds; [exact Hf|lia].
  - intros r p Hr Hp.
    assert (Hlt : (r < size)%Z).
    { apply lookup_lt_Some in Hp. rewrite length_fmap, Hlen in Hp. lia. }
    rewrite Hentry in Hp by lia. injection Hp as <-.
    apply probability_bounds; [exact Hf|lia].
  - intros H2.
    pose proof (Hentry 0%Z ltac:(lia)) as H0.
    pose proof (Hentry 1%Z ltac:(lia)) as H1.
    change (Z.to_nat 0) with 0%nat in H0. change (Z.to_nat 1) with 1%nat in H1.
    rewrite H0, H1. reflexivity.
Qed.

(** A table of size zero or less cannot be made: [rank[0] = 1] raises
    [IndexError] on the empty array. *)
Theorem sampling_table_empty (size : Z) (factor : R) :
  (size <= 0)%Z ->
  exists msg, make_sampling_table size factor = Err (IndexError msg).
Proof.
  intros Hsize. unfold make_sampling_table, ranks, Py.range.
  replace (Z.to_nat (size - 0)) with 0%nat by lia. simpl.
  eexists. reflexivity.
Qed.

(** The table of size 1 and the table of size 0. *)
Lemma sampling_table_bounds_witness :
  exists table,
    make_sampling_table 1 (1 / 100000) = Ok table
    /\ length table = Z.to_nat 1
    /\ Forall (fun p => 0 < p <= 1) table.
Proof.
  destruct (sampling_table_bounds 1 (1 / 100000))
    as (table & Ht & Hl & Hb & _).
  - lia.
  - lra.
  - exists table. split; [exact Ht|]. split; assumption.
Defined.

Lemma sampling_table_empty_witness :
  exists msg, make_sampling_table 0 (1 / 100000) = Err (IndexError msg).
Proof.
  apply sampling_table_empty. lia.
Defined.

End SamplingTableMoreFacts.

(** ** The numpy reference of the momentum tests *)

Section MomentumReferenceFacts.
Import Optimizer MomentumReference.
Local Open Scope Qc_scope.

Lemma reference_steps_S (n : nat) (var accum g lr m : Qc) :
  reference_steps (S n) var accum g lr m
  = reference_steps n (var + ((accum * m - g * lr) * m - g * lr))
                    (accum * m - g * lr) g lr m.
Proof. reflexivity. Qed.

Lemma reference_accumulator (n : nat) (var accum g lr m : Qc) :
  (reference_steps n var accum g lr m).2 * (1 - m)
  = accum * m ^ n * (1 - m) - g * lr * (1 - m ^ n).
Proof.
  revert var accum. induction n as [|n IH]; intros var accum.
  - simpl. ring.
  - rewrite reference_steps_S, IH. simpl. ring.
Qed.

Lemma Qc_mult_nonneg (a b : Qc) : 0 <= a -> 0 <= b -> 0 <= a * b.
Proof.
  intros Ha Hb. rewrite <- (Qcmult_0_l b). apply Qcmult_le_compat_r; assumption.
Qed.

Lemma Qcpower_unit_interval (m : Qc) (n : nat) :
  0 <= m -> m <= 1 -> 0 <= m ^ n /\ m ^ n <= 1.
Proof.
  intros H0 H1. induction n as [|n [IH0 IH1]].
  - simpl. split; [discriminate|apply Qcle_refl].
  - simpl. split.
    + apply Qc_mult_nonneg; assumption.
    + apply Qcle_trans with (1 * m ^ n).
      * apply Qcmult_le_compat_r; assumption.
      * rewrite Qcmult_1_l. exact IH1.
Qed.

(** Under a constant gradient the accumulator of the reference is a
    geometric sum, [accum_n * (1 - m) = -g*lr*(1 - m^n)] from a zero
    accumulator; for a momentum in [[0, 1]] and [g*lr >= 0] it never leaves
    [[-g*lr/(1 - m), 0]]. *)
Theorem reference_accumulator_bounded (n : nat) (var g lr m : Qc) :
  0 <= m -> m <= 1 -> 0 <= g * lr ->
  let accum_n := (reference_steps n var 0 g lr m).2 in
  accum_n * (1 - m) = - (g * lr) * (1 - m ^ n)
  /\ - (g * lr) <= accum_n * (1 - m)
  /\ accum_n * (1 - m) <= 0.
Proof.
  intros H0 H1 Hg accum_n.
  destruct (Qcpower_unit_interval m n H0 H1) as [Hp0 Hp1].
  assert (Heq : accum_n * (1 - m) = - (g * lr) * (1 - m ^ n)).
  { subst accum_n. rewrite reference_accumulator. ring. }
  split; [exact Heq|]. rewrite Heq.
  assert (Hq : - (g * lr) * (1 - m ^ n) = g * lr * m ^ n - g * lr) by ring.
  rewrite Hq. split.
  - assert (Hz : 0 <= g * lr * m ^ n) by (apply Qc_mult_nonneg; assumption).
    replace (- (g * lr)) with (0 - g * lr) by ring.
    unfold Qcminus. apply Qcplus_le_compat; [exact Hz|apply Qcle_refl].
  - replace 0 with (g * lr - g * lr) by ring.
    unfold Qcminus. apply Qcplus_le_compat; [|apply Qcle_refl].
    rewrite <- (Qcmult_1_r (g * lr)) at 2.
    rewrite !(Qcmult_comm (g * lr)).
    apply Qcmult_le_compat_r; assumption.
Qed.

End MomentumReferenceFacts.

(** The second variable of [testNesterovMomentum]: gradient 3, learning
    rate 2, momentum 0.9, four steps. *)
Lemma reference_accumulator_bounded_witness :
  ((MomentumReference.reference_steps 4 (Optimizer.q 3 1) 0 (Optimizer.q 3 1)
      (Optimizer.q 2 1) (Optimizer.q 9 10)).2 * (1 - Optimizer.q 9 10)
   = - (Optimizer.q 3 1 * Optimizer.q 2 1) * (1 - Optimizer.q 9 10 ^ 4))%Qc.
Proof.
  refine (proj1 (reference_accumulator_bounded 4 (Optimizer.q 3 1)
                   (Optimizer.q 3 1) (Optimizer.q 2 1) (Optimizer.q 9 10)
                   _ _ _)).
  - vm_compute. discriminate.
  - vm_compute. discriminate.
  - vm_compute. discriminate.
Defined.
